(** * BankSim: the simulation orchestrator of banksim/model.py

    A shallow embedding of [banksim.model.BankSim] (construction, schema
    initialisation, [step] and [run_model]) and the properties of its
    control flow: error containment, early termination, ordering of the
    per-step operations, the construction invariant and the sharing of the
    class-level result lists.

    The orchestrator calls code that lives outside [model.py]: the agent
    classes, the pipeline stages, the result writers, the persistence
    helpers, and the libraries mesa, networkx, sqlite3, random and
    datetime.  Those are gathered in one interface, [Externals]; every
    theorem is proved for an arbitrary implementation of it. *)

From Stdlib Require Import String Ascii ZArith Bool Arith Lia List.
Import ListNotations.

Set Implicit Arguments.

(** ** Python exceptions and results *)

Inductive Exn : Type :=
| IndexError                          (* random.choice on an empty sequence *)
| KeyError (node : nat)               (* NetworkGrid.place_agent on a missing node *)
| UnboundLocalError (name : string)   (* a local read before assignment *)
| AttributeError (name : string)      (* attribute access on None *)
| PyException (msg : string)          (* raise Exception(msg) *)
| ValueError                          (* int() on a string that is no number *)
| ExtError (code : nat).              (* raised inside an external call *)

Inductive Result (A : Type) : Type :=
| Ok (a : A)
| Raise (e : Exn).
Arguments Ok {A} a.
Arguments Raise {A} e.

Definition is_ok {A} (r : Result A) : bool :=
  match r with Ok _ => true | Raise _ => false end.

(** ** datetime and the run id *)

Record DateTime : Type := mkDateTime {
  year : Z; month : Z; day : Z; hour : Z; minute : Z; second : Z
}.

Definition valid_datetime (d : DateTime) : Prop :=
  (1 <= year d <= 9999 /\ 1 <= month d <= 12 /\ 1 <= day d <= 31 /\
   0 <= hour d <= 23 /\ 0 <= minute d <= 59 /\ 0 <= second d <= 59)%Z.

Definition digit_char (d : Z) : ascii :=
  ascii_of_nat (48 + Z.to_nat (d mod 10)).

(* %m, %d, %H, %M, %S: two digits, zero padded. *)
Definition pad2 (n : Z) : list ascii :=
  [digit_char (n / 10); digit_char n].

(* %Y: four digits. *)
Definition pad4 (n : Z) : list ascii :=
  [digit_char (n / 1000); digit_char (n / 100); digit_char (n / 10); digit_char n].

(* dt.strftime('%Y%m%d%H%M%S') *)
Definition strftime_YmdHMS (d : DateTime) : list ascii :=
  pad4 (year d) ++ pad2 (month d) ++ pad2 (day d) ++
  pad2 (hour d) ++ pad2 (minute d) ++ pad2 (second d).

Definition digit_val (c : ascii) : option Z :=
  let n := nat_of_ascii c in
  if (48 <=? n) && (n <=? 57) then Some (Z.of_nat (n - 48)) else None.

(* int(s) on a string of decimal digits; None stands for ValueError. *)
Fixpoint int_digits (acc : Z) (s : list ascii) : option Z :=
  match s with
  | [] => Some acc
  | c :: s' =>
      match digit_val c with
      | Some d => int_digits (10 * acc + d) s'
      | None => None
      end
  end.

Definition py_int (s : list ascii) : option Z :=
  match s with
  | [] => None
  | _ => int_digits 0 s
  end.

(* The number whose decimal writing is YYYYMMDDHHMMSS. *)
Definition encode_YmdHMS (d : DateTime) : Z :=
  (year d * 10000000000 + month d * 100000000 + day d * 1000000 +
   hour d * 10000 + minute d * 100 + second d)%Z.

(* Earlier on the calendar and the clock: the order of (year, month, day,
   hour, minute, second). *)
Definition datetime_lt (a b : DateTime) : Prop :=
  (year a < year b \/
   year a = year b /\
   (month a < month b \/
    month a = month b /\
    (day a < day b \/
     day a = day b /\
     (hour a < hour b \/
      hour a = hour b /\
      (minute a < minute b \/
       minute a = minute b /\ second a < second b)))))%Z.

(** ** Agents and the interbank graph *)

Inductive AgentKind : Type := KBank | KSaver | KLoan.

Definition kind_eqb (a b : AgentKind) : bool :=
  match a, b with
  | KBank, KBank | KSaver, KSaver | KLoan, KLoan => true
  | _, _ => false
  end.

(* A mesa agent: its class, its unique_id, the grid node it was placed on
   and the attributes its class defines (economic state). *)
Record Agent (Attrs : Type) : Type := mkAgent {
  unique_id : nat;
  kind : AgentKind;
  pos : option nat;
  attrs : Attrs
}.
Arguments mkAgent {Attrs}.

(* isinstance(x, Bank) *)
Definition is_bank {Attrs} (x : Agent Attrs) : bool := kind_eqb (kind x) KBank.

Record Graph : Type := mkGraph {
  nodes : list nat;
  edges : list (nat * nat)
}.

(* range(n) for a Python int n: empty when n <= 0. *)
Definition py_range (n : Z) : list nat := seq 0 (Z.to_nat n).

(* nx.empty_graph(n): nodes 0 .. n-1, no edges. *)
Definition empty_graph (n : Z) : Graph :=
  {| nodes := py_range n; edges := [] |}.

(** ** The code outside model.py *)

(* What a call that works on the agent population leaves behind: the new
   attributes of every agent, the new hidden state, and the exception it
   ended with, if any.  Such a call mutates agents in place; it cannot
   change an object's class or unique_id, and the population and the grid
   placement are the scheduler's and the grid's. *)
Record StageOut (Attrs ExtState : Type) : Type := mkStageOut {
  so_upd : Agent Attrs -> Attrs;
  so_ext : ExtState;
  so_exn : option Exn
}.

Record Externals : Type := mkExternals {
  (* carriers *)
  ExtState : Type;      (* hidden state: random generator, clock, files, database *)
  Attrs : Type;         (* attributes of Bank, Saver and Loan objects *)
  num : Type;           (* Python numbers passed through (rates and ratios) *)
  BankRatio : Type;     (* a record of lst_bank_ratio *)
  IbLoan : Type;        (* a record of lst_ibloan *)
  DataFrame : Type;
  (* conf/config.ini, section SQLITEDB *)
  sqlite_db : string;
  db_init_query : string;
  (* numbers *)
  num_half : num -> num;              (* x / 2.0 *)
  num_zero : num;
  num_add : num -> num -> num;
  (* banksim.agent *)
  Bank_new : nat -> num -> num -> num -> Attrs;   (* Bank(id, model, rfree, car, equity) *)
  Saver_new : nat -> Attrs;                       (* Saver(id, model) *)
  Loan_new : nat -> num -> Attrs;                 (* Loan(id, model, rfree) *)
  set_bank_id : nat -> Attrs -> Attrs;            (* loan.bank_id = bank_id *)
  bank_solvent : Attrs -> bool;
  total_assets : Attrs -> num;
  (* os, sqlite3, builtins: whether the call raises *)
  os_path_isfile : string -> ExtState -> bool;
  sqlite3_connect : string -> ExtState -> option Exn * ExtState;
  file_open : string -> ExtState -> option Exn * ExtState;
  file_read : ExtState -> option Exn * ExtState;
  cursor_executescript : ExtState -> option Exn * ExtState;
  conn_commit : ExtState -> option Exn * ExtState;
  (* datetime, random *)
  datetime_now : ExtState -> DateTime * ExtState;       (* naive local time *)
  datetime_now_utc : ExtState -> DateTime * ExtState;   (* datetime.now(timezone.utc) *)
  random_below : nat -> ExtState -> nat * ExtState;
  (* banksim.util.write_sqlitedb *)
  insert_simulation_table :
    option nat -> Z * string * DateTime -> ExtState -> option Exn * ExtState;
  insert_agtbank_table :
    option nat -> option Z -> nat -> list (Agent Attrs) -> ExtState -> option Exn * ExtState;
  (* banksim.bankingsystem *)
  initialize_deposit_base : list (Agent Attrs) -> ExtState -> StageOut Attrs ExtState;
  initialize_loan_book : list (Agent Attrs) -> num -> num -> ExtState -> StageOut Attrs ExtState;
  main_evaluate_solvency :
    list (Agent Attrs) -> num -> Z -> num -> ExtState -> StageOut Attrs ExtState;
  main_second_round_effects :
    list (Agent Attrs) -> Z -> num -> Graph -> ExtState -> StageOut Attrs ExtState * Graph;
  main_risk_weight_optimization :
    list (Agent Attrs) -> num -> ExtState -> StageOut Attrs ExtState;
  main_pay_dividends :
    list (Agent Attrs) -> num -> num -> ExtState -> StageOut Attrs ExtState;
  main_reset_insolvent_loans :
    list (Agent Attrs) -> ExtState -> StageOut Attrs ExtState;
  main_build_loan_book_locally :
    list (Agent Attrs) -> num -> num -> ExtState -> StageOut Attrs ExtState;
  main_build_loan_book_globally :
    list (Agent Attrs) -> num -> num -> ExtState -> StageOut Attrs ExtState;
  main_evaluate_liquidity :
    list (Agent Attrs) -> num -> num -> Z -> ExtState -> StageOut Attrs ExtState;
  (* mesa: the agents' own step(), run by RandomActivation.step *)
  agents_step : list (Agent Attrs) -> ExtState -> StageOut Attrs ExtState;
  (* banksim.util.write_agent_activity *)
  bank_ratio_records :
    list (Agent Attrs) -> num -> num -> ExtState -> list BankRatio * option Exn * ExtState;
  interbank_link_records :
    list (Agent Attrs) -> ExtState -> list IbLoan * option Exn * ExtState;
  convert_result2dataframe : list BankRatio -> list IbLoan -> DataFrame * DataFrame
}.

(** ** Observable operations *)

Inductive LogMsg : Type :=
| LogText (s : string)         (* logger.info(s) *)
| LogTraceback (e : Exn).      (* logger.info(traceback.format_exc()) *)

Inductive StageId : Type :=
| SolvencyEvaluation | SecondRoundEffects | RiskWeightOptimization
| DividendPayment | ResetInsolventLoans | BuildLoanBookLocally
| BuildLoanBookGlobally | LiquidityEvaluation.

(* One entry per operation of the orchestrator, in program order.  A call
   is recorded when it is made, whether or not it then raises; a handle is
   recorded when it is obtained. *)
Inductive Event : Type :=
| EvStepBegin                                   (* step() entered *)
| EvConnect (h : nat)                           (* sqlite3.connect returned h *)
| EvCursor (c : nat)                            (* conn.cursor() returned c *)
| EvCloseCursor (c : nat)
| EvCloseConn (h : nat)
| EvOpenScript
| EvExecuteScript
| EvCommit (h : nat)
| EvMintSimid (id : Z)
| EvInsertSimulation (cur : option nat) (task : Z * string * DateTime)
| EvStage (s : StageId) (population : list nat)
| EvWriteBankRatios
| EvWriteInterbankLinks
| EvInsertAgtbank (cur : option nat) (run : option Z) (step_no : nat)
                  (banks : list (nat * AgentKind))
| EvSchedulerStep
| EvCollect
| EvLog (m : LogMsg)
| EvPrint (i : nat) (solvent : nat).

Definition all_bankrupt_notice : LogMsg := LogText "All banks are bankrupt!".

(** ** A state, error and trace monad

    A computation runs on a state, ends normally or with an exception, and
    leaves the state it reached (what was mutated before a raise stays
    mutated) together with the operations it performed. *)

Definition M (S A : Type) : Type := S -> Result A * S * list Event.

Definition ret {S A} (a : A) : M S A := fun s => (Ok a, s, []).

Definition raise {S A} (e : Exn) : M S A := fun s => (Raise e, s, []).

Definition bind {S A B} (m : M S A) (f : A -> M S B) : M S B :=
  fun s =>
    match m s with
    | (Ok a, s1, ev1) =>
        match f a s1 with
        | (r, s2, ev2) => (r, s2, ev1 ++ ev2)
        end
    | (Raise e, s1, ev1) => (Raise e, s1, ev1)
    end.

(* try: m  except: h *)
Definition try_except {S A} (m : M S A) (h : Exn -> M S A) : M S A :=
  fun s =>
    match m s with
    | (Ok a, s1, ev1) => (Ok a, s1, ev1)
    | (Raise e, s1, ev1) =>
        match h e s1 with
        | (r, s2, ev2) => (r, s2, ev1 ++ ev2)
        end
    end.

Definition emit {S} (e : Event) : M S unit := fun s => (Ok tt, s, [e]).

Definition get {S} : M S S := fun s => (Ok s, s, []).

Definition modify {S} (f : S -> S) : M S unit := fun s => (Ok tt, f s, []).

Declare Scope py_scope.
Delimit Scope py_scope with py.
Notation "x <- c1 ;; c2" := (bind c1 (fun x => c2))
  (at level 61, c1 at next level, right associativity) : py_scope.
Notation "c1 ;; c2" := (bind c1 (fun _ => c2))
  (at level 61, right associativity) : py_scope.
Open Scope py_scope.

(* for x in l: body(x) *)
Fixpoint for_each {S A} (l : list A) (body : A -> M S unit) : M S unit :=
  match l with
  | [] => ret tt
  | x :: l' => body x ;; for_each l' body
  end.

Definition result_of {S A} (x : Result A * S * list Event) : Result A := fst (fst x).
Definition state_of {S A} (x : Result A * S * list Event) : S := snd (fst x).
Definition events_of {S A} (x : Result A * S * list Event) : list Event := snd x.


(** ** Reading a trace *)

Definition is_connect (e : Event) : bool :=
  match e with EvConnect _ => true | _ => false end.

Definition is_cursor (e : Event) : bool :=
  match e with EvCursor _ => true | _ => false end.

Definition is_mint (e : Event) : bool :=
  match e with EvMintSimid _ => true | _ => false end.

Definition is_insert_simulation (e : Event) : bool :=
  match e with EvInsertSimulation _ _ => true | _ => false end.

Definition is_step_begin (e : Event) : bool :=
  match e with EvStepBegin => true | _ => false end.

Definition is_notice (e : Event) : bool :=
  match e with
  | EvLog (LogText s) => String.eqb s "All banks are bankrupt!"
  | _ => false
  end.

(* The operations of the block that step() runs when schedule.steps == 0. *)
Definition is_first_block_event (e : Event) : bool :=
  is_connect e || is_cursor e || is_mint e || is_insert_simulation e.

(* Neither a connection nor a cursor is obtained. *)
Definition not_acquire (e : Event) : bool := negb (is_connect e || is_cursor e).

(* The operations of step() after that block. *)
Definition is_body_event (e : Event) : bool :=
  match e with
  | EvStage _ _ | EvWriteBankRatios | EvWriteInterbankLinks
  | EvInsertAgtbank _ _ _ _ | EvCommit _ | EvSchedulerStep | EvCollect => true
  | _ => false
  end.

Definition is_close (e : Event) : bool :=
  match e with EvCloseConn _ | EvCloseCursor _ => true | _ => false end.

Definition is_traceback (e : Event) : bool :=
  match e with EvLog (LogTraceback _) => true | _ => false end.

(* A row set of the agent-bank table is written through cursor c under run
   id i. *)
Definition stamped (c : option nat) (i : option Z) (e : Event) : Prop :=
  match e with
  | EvInsertAgtbank c' i' _ _ => c' = c /\ i' = i
  | _ => True
  end.

(* A row set of the agent-bank table is written through a cursor and under
   a run id, neither of them None. *)
Definition identified (e : Event) : Prop :=
  match e with
  | EvInsertAgtbank c i _ _ => c <> None /\ i <> None
  | _ => True
  end.

Definition count_events (p : Event -> bool) (evs : list Event) : nat :=
  List.length (filter p evs).




(* Every operation m performs is of the kind p. *)
Definition emits_only {S A} (p : Event -> bool) (m : M S A) : Prop :=
  forall s, forallb p (events_of (m s)) = true.

Section Model.

Variable E : Externals.

Let agent : Type := Agent (Attrs E).
Let stage_out : Type := StageOut (Attrs E) (ExtState E).

(** ** Program state *)

(* The attributes of one BankSim object. *)
Record BankSim : Type := mkBankSim {
  simid : option Z;
  height : Z;
  width : Z;
  initial_saver : Z;
  initial_loan : Z;
  initial_bank : Z;
  rfree : num E;
  car : num E;
  libor_rate : num E;
  min_reserves_ratio : num E;
  reserve_rates : num E;
  bankrupt_liquidation : Z;
  initial_equity : num E;
  conn : option nat;
  db_cursor : option nat;
  G : Graph;
  schedule_agents : list agent;       (* self.schedule.agents *)
  schedule_steps : nat;               (* self.schedule.steps *)
  current_id : nat;
  running : bool;
  model_vars : list (num E)           (* datacollector: "BankAsset" *)
}.

(* What all BankSim objects of a process share: the two class-level lists
   and the world outside the program.  open_conns and open_cursors list the
   handles that were obtained and that no call of close() has closed; what
   the runtime does to a handle that nothing refers to any more is not
   followed. *)
Record World : Type := mkWorld {
  lst_bank_ratio : list (BankRatio E);
  lst_ibloan : list (IbLoan E);
  open_conns : list nat;
  open_cursors : list nat;
  next_handle : nat;
  ext : ExtState E
}.

Definition St : Type := (BankSim * World)%type.

Definition set_ext (x : ExtState E) (w : World) : World :=
  mkWorld (lst_bank_ratio w) (lst_ibloan w) (open_conns w) (open_cursors w)
          (next_handle w) x.

Definition set_handles (cs cu : list nat) (n : nat) (w : World) : World :=
  mkWorld (lst_bank_ratio w) (lst_ibloan w) cs cu n (ext w).

Definition set_lst_bank_ratio (l : list (BankRatio E)) (w : World) : World :=
  mkWorld l (lst_ibloan w) (open_conns w) (open_cursors w) (next_handle w) (ext w).

Definition set_lst_ibloan (l : list (IbLoan E)) (w : World) : World :=
  mkWorld (lst_bank_ratio w) l (open_conns w) (open_cursors w) (next_handle w) (ext w).

Definition set_db (c cu : option nat) (i : option Z) (m : BankSim) : BankSim :=
  mkBankSim i (height m) (width m) (initial_saver m) (initial_loan m)
    (initial_bank m) (rfree m) (car m) (libor_rate m) (min_reserves_ratio m)
    (reserve_rates m) (bankrupt_liquidation m) (initial_equity m) c cu (G m)
    (schedule_agents m) (schedule_steps m) (current_id m) (running m) (model_vars m).

Definition set_schedule (ags : list agent) (n : nat) (m : BankSim) : BankSim :=
  mkBankSim (simid m) (height m) (width m) (initial_saver m) (initial_loan m)
    (initial_bank m) (rfree m) (car m) (libor_rate m) (min_reserves_ratio m)
    (reserve_rates m) (bankrupt_liquidation m) (initial_equity m) (conn m)
    (db_cursor m) (G m) ags n (current_id m) (running m) (model_vars m).

Definition set_G (g : Graph) (m : BankSim) : BankSim :=
  mkBankSim (simid m) (height m) (width m) (initial_saver m) (initial_loan m)
    (initial_bank m) (rfree m) (car m) (libor_rate m) (min_reserves_ratio m)
    (reserve_rates m) (bankrupt_liquidation m) (initial_equity m) (conn m)
    (db_cursor m) g (schedule_agents m) (schedule_steps m) (current_id m)
    (running m) (model_vars m).

Definition set_misc (cid : nat) (r : bool) (mv : list (num E)) (m : BankSim) : BankSim :=
  mkBankSim (simid m) (height m) (width m) (initial_saver m) (initial_loan m)
    (initial_bank m) (rfree m) (car m) (libor_rate m) (min_reserves_ratio m)
    (reserve_rates m) (bankrupt_liquidation m) (initial_equity m) (conn m)
    (db_cursor m) (G m) (schedule_agents m) (schedule_steps m) cid r mv.

Definition on_self (f : BankSim -> BankSim) : M St unit :=
  modify (fun s => (f (fst s), snd s)).

Definition on_world (f : World -> World) : M St unit :=
  modify (fun s => (fst s, f (snd s))).

(** ** Calls into the outside *)

(* A call whose only effect on the program is that it may raise. *)
Definition ext_call (f : ExtState E -> option Exn * ExtState E) : M St unit :=
  fun s =>
    match f (ext (snd s)) with
    | (None, x) => (Ok tt, (fst s, set_ext x (snd s)), [])
    | (Some e, x) => (Raise e, (fst s, set_ext x (snd s)), [])
    end.

Definition ext_read {A} (f : ExtState E -> A * ExtState E) : M St A :=
  fun s =>
    match f (ext (snd s)) with
    | (a, x) => (Ok a, (fst s, set_ext x (snd s)), [])
    end.

Definition update_attrs (upd : agent -> Attrs E) (ags : list agent) : list agent :=
  map (fun a => mkAgent (unique_id a) (kind a) (pos a) (upd a)) ags.

(* A call that is handed self.schedule: the agents are mutated in place,
   also when the call ends with an exception. *)
Definition run_stage (f : list agent -> ExtState E -> stage_out) : M St unit :=
  fun s =>
    let m := fst s in
    let w := snd s in
    let o := f (schedule_agents m) (ext w) in
    let s' := (set_schedule (update_attrs (so_upd o) (schedule_agents m))
                            (schedule_steps m) m,
               set_ext (so_ext o) w) in
    match so_exn o with
    | None => (Ok tt, s', [])
    | Some e => (Raise e, s', [])
    end.

Definition population (s : St) : list nat :=
  map (@unique_id _) (schedule_agents (fst s)).

Definition stage (id : StageId) (f : list agent -> ExtState E -> stage_out) : M St unit :=
  s <- get ;;
  emit (EvStage id (population s)) ;;
  run_stage f.

(* sqlite3.connect(path): a new open connection, or an exception. *)
Definition sqlite3_connect_ (path : string) : M St nat :=
  ext_call (sqlite3_connect E path) ;;
  s <- get ;;
  let h := next_handle (snd s) in
  on_world (fun w => set_handles (h :: open_conns w) (open_cursors w) (S h) w) ;;
  emit (EvConnect h) ;;
  ret h.

(* conn.cursor(): creating a cursor on an open connection of this thread
   touches neither the file nor the database and does not raise. *)
Definition conn_cursor (h : nat) : M St nat :=
  s <- get ;;
  let c := next_handle (snd s) in
  on_world (fun w => set_handles (open_conns w) (c :: open_cursors w) (S c) w) ;;
  emit (EvCursor c) ;;
  ret c.

Definition cursor_close (c : nat) : M St unit :=
  on_world (fun w => set_handles (open_conns w)
                       (remove Nat.eq_dec c (open_cursors w)) (next_handle w) w) ;;
  emit (EvCloseCursor c).

Definition conn_close (h : nat) : M St unit :=
  on_world (fun w => set_handles (remove Nat.eq_dec h (open_conns w))
                       (open_cursors w) (next_handle w) w) ;;
  emit (EvCloseConn h).

Definition logger_info (m : LogMsg) : M St unit := emit (EvLog m).

(** ** BankSim.init_database *)

(* The local variables of init_database; None is "not yet assigned". *)
Record Locals : Type := mkLocals {
  l_conn : option nat;
  l_db_cursor : option nat
}.

Definition lift {A} (m : M St A) : M (Locals * St) A :=
  fun ls =>
    match m (snd ls) with
    | (r, s, ev) => (r, (fst ls, s), ev)
    end.

Definition with_locals {A} (m : M (Locals * St) A) : M St A :=
  fun s =>
    match m (mkLocals None None, s) with
    | (r, ls, ev) => (r, snd ls, ev)
    end.

(* try: m  finally: f.  An exception of f replaces the pending outcome. *)
Definition try_finally {S A} (m : M S A) (f : M S unit) : M S A :=
  fun s =>
    match m s with
    | (r, s1, ev1) =>
        match f s1 with
        | (Ok _, s2, ev2) => (r, s2, ev1 ++ ev2)
        | (Raise e, s2, ev2) => (Raise e, s2, ev1 ++ ev2)
        end
    end.

Definition init_database_try : M (Locals * St) unit :=
  h <- lift (sqlite3_connect_ (sqlite_db E)) ;;
  modify (fun ls => (mkLocals (Some h) (l_db_cursor (fst ls)), snd ls)) ;;
  c <- lift (conn_cursor h) ;;
  modify (fun ls => (mkLocals (l_conn (fst ls)) (Some c), snd ls)) ;;
  lift (emit EvOpenScript) ;;
  lift (ext_call (file_open E (db_init_query E))) ;;
  lift (ext_call (file_read E)) ;;
  lift (emit EvExecuteScript) ;;
  lift (ext_call (cursor_executescript E)) ;;
  lift (emit (EvCommit h)) ;;
  lift (ext_call (conn_commit E)).

Definition init_database_finally : M (Locals * St) unit :=
  ls <- get ;;
  match l_db_cursor (fst ls) with
  | None => raise (UnboundLocalError "db_cursor")
  | Some c => lift (cursor_close c)
  end ;;
  match l_conn (fst ls) with
  | None => raise (UnboundLocalError "conn")
  | Some h => lift (conn_close h)
  end.

Definition init_database : M St unit :=
  with_locals
    (try_finally
       (try_except init_database_try
                   (fun _ => raise (PyException "SQLite DB init error")))
       init_database_finally).

(** ** BankSim.__init__ *)

(* get_sum_totasset(model) *)
Definition get_sum_totasset (m : BankSim) : num E :=
  fold_left (num_add E)
            (map (fun x : agent => total_assets E (attrs x))
                 (filter (@is_bank _) (schedule_agents m)))
            (num_zero E).

(* self.datacollector.collect(self) *)
Definition datacollector_collect : M St unit :=
  emit EvCollect ;;
  on_self (fun m => set_misc (current_id m) (running m)
                             (model_vars m ++ [get_sum_totasset m]) m).

(* Model.next_id() *)
Definition next_id : M St nat :=
  on_self (fun m => set_misc (S (current_id m)) (running m) (model_vars m) m) ;;
  s <- get ;;
  ret (current_id (fst s)).

(* NetworkGrid.place_agent(agent, node_id): G.nodes[node_id] must exist. *)
Definition place_agent (a : agent) (node_id : nat) : M St agent :=
  s <- get ;;
  if existsb (Nat.eqb node_id) (nodes (G (fst s)))
  then ret (mkAgent (unique_id a) (kind a) (Some node_id) (attrs a))
  else raise (KeyError node_id).

(* self.schedule.add(agent) *)
Definition schedule_add (a : agent) : M St unit :=
  on_self (fun m => set_schedule (schedule_agents m ++ [a]) (schedule_steps m) m).

(* random.choice(seq): IndexError on an empty sequence, else the element at
   an index below len(seq); the remainder keeps any generator in range. *)
Definition random_choice (l : list nat) : M St nat :=
  match l with
  | [] => raise IndexError
  | _ :: _ =>
      r <- ext_read (random_below E (length l)) ;;
      ret (nth (r mod length l) l 0)
  end.

Definition add_bank (i : nat) : M St unit :=
  uid <- next_id ;;
  s <- get ;;
  let m := fst s in
  bank <- place_agent
            (mkAgent uid KBank None
               (Bank_new E uid (rfree m) (car m) (initial_equity m))) i ;;
  schedule_add bank.

Definition add_saver (i : nat) : M St unit :=
  uid <- next_id ;;
  s <- get ;;
  node <- random_choice (nodes (G (fst s))) ;;
  saver <- place_agent (mkAgent uid KSaver None (Saver_new E uid)) node ;;
  schedule_add saver.

Definition add_loan (i : nat) : M St unit :=
  uid <- next_id ;;
  s <- get ;;
  let m := fst s in
  bank_id <- random_choice (nodes (G m)) ;;
  loan <- place_agent
            (mkAgent uid KLoan None
               (set_bank_id E bank_id (Loan_new E uid (rfree m)))) bank_id ;;
  schedule_add loan.

(* if not os.path.isfile(self.sqlite_db): ... *)
Definition ensure_database : M St unit :=
  s <- get ;;
  if os_path_isfile E (sqlite_db E) (ext (snd s)) then ret tt
  else init_database ;; logger_info (LogText "db initialization").

(* The three creation loops. *)
Definition create_agents : M St unit :=
  s <- get ;;
  for_each (py_range (initial_bank (fst s))) add_bank ;;
  s <- get ;;
  for_each (py_range (initial_saver (fst s))) add_saver ;;
  s <- get ;;
  for_each (py_range (initial_loan (fst s))) add_loan.

(* Stage 0: initialize_deposit_base and initialize_loan_book. *)
Definition initialize_market : M St unit :=
  run_stage (initialize_deposit_base E) ;;
  s <- get ;;
  run_stage (fun ags => initialize_loan_book E ags (car (fst s))
                          (min_reserves_ratio (fst s))).

(* The statements of __init__ after the attribute assignments. *)
Definition init_body : M St unit :=
  ensure_database ;;
  create_agents ;;
  initialize_market ;;
  on_self (fun m => set_misc (current_id m) true (model_vars m) m) ;;
  datacollector_collect.

(* The object as the assignments before the first call leave it. *)
Definition fresh_object (height width initial_saver initial_loan initial_bank : Z)
    (rfree car min_reserves_ratio initial_equity : num E) : BankSim :=
  {| simid := None; height := height; width := width;
     initial_saver := initial_saver; initial_loan := initial_loan;
     initial_bank := initial_bank;
     rfree := rfree; car := car; libor_rate := rfree;
     min_reserves_ratio := min_reserves_ratio;
     reserve_rates := num_half E rfree;
     bankrupt_liquidation := 1;
     initial_equity := initial_equity;
     conn := None; db_cursor := None;
     G := empty_graph initial_bank;
     schedule_agents := []; schedule_steps := 0; current_id := 0;
     running := true; model_vars := [] |}.

(* BankSim(height, width, initial_saver, initial_loan, initial_bank,
           rfree, car, min_reserves_ratio, initial_equity): the new object,
   or the exception that construction ended with. *)
Definition BankSim_init (height width initial_saver initial_loan initial_bank : Z)
    (rfree car min_reserves_ratio initial_equity : num E)
    (w : World) : Result BankSim * World * list Event :=
  match init_body (fresh_object height width initial_saver initial_loan
                     initial_bank rfree car min_reserves_ratio initial_equity, w) with
  | (Ok _, s, ev) => (Ok (fst s), snd s, ev)
  | (Raise e, s, ev) => (Raise e, snd s, ev)
  end.

(** ** BankSim.step *)

Definition first_step_block : M St unit :=
  h <- sqlite3_connect_ (sqlite_db E) ;;
  on_self (fun m => set_db (Some h) (db_cursor m) (simid m) m) ;;
  c <- conn_cursor h ;;
  on_self (fun m => set_db (conn m) (Some c) (simid m) m) ;;
  local <- ext_read (datetime_now E) ;;
  match py_int (strftime_YmdHMS local) with
  | None => raise ValueError
  | Some id =>
      on_self (fun m => set_db (conn m) (db_cursor m) (Some id) m) ;;
      emit (EvMintSimid id) ;;
      utc <- ext_read (datetime_now_utc E) ;;
      s <- get ;;
      let task := (id, "test"%string, utc) in
      emit (EvInsertSimulation (db_cursor (fst s)) task) ;;
      ext_call (insert_simulation_table E (db_cursor (fst s)) task)
  end.

Definition second_round_effects : M St unit :=
  s <- get ;;
  emit (EvStage SecondRoundEffects (population s)) ;;
  let m := fst s in
  let og := main_second_round_effects E (schedule_agents m)
              (bankrupt_liquidation m) (car m) (G m) (ext (snd s)) in
  on_self (set_G (snd og)) ;;
  run_stage (fun _ _ => fst og).

(** Modelled from the spec: [main_write_bank_ratios] of
    banksim/util/write_agent_activity.py, which is handed the list object
    and appends this step's records to it. *)
Definition main_write_bank_ratios : M St unit :=
  emit EvWriteBankRatios ;;
  fun s =>
    let m := fst s in
    let w := snd s in
    match bank_ratio_records E (schedule_agents m) (car m)
            (min_reserves_ratio m) (ext w) with
    | (recs, exn, x) =>
        let s' := (m, set_ext x (set_lst_bank_ratio (lst_bank_ratio w ++ recs) w)) in
        match exn with
        | None => (Ok tt, s', [])
        | Some e => (Raise e, s', [])
        end
    end.

(** Modelled from the spec: [main_write_interbank_links] of
    banksim/util/write_agent_activity.py, which is handed the list object
    and appends this step's records to it. *)
Definition main_write_interbank_links : M St unit :=
  emit EvWriteInterbankLinks ;;
  fun s =>
    let m := fst s in
    let w := snd s in
    match interbank_link_records E (schedule_agents m) (ext w) with
    | (recs, exn, x) =>
        let s' := (m, set_ext x (set_lst_ibloan (lst_ibloan w ++ recs) w)) in
        match exn with
        | None => (Ok tt, s', [])
        | Some e => (Raise e, s', [])
        end
    end.

Definition snapshot_banks (m : BankSim) : list agent :=
  filter (@is_bank _) (schedule_agents m).

Definition insert_agtbank : M St unit :=
  s <- get ;;
  let m := fst s in
  emit (EvInsertAgtbank (db_cursor m) (simid m) (schedule_steps m)
          (map (fun a : agent => (unique_id a, kind a)) (snapshot_banks m))) ;;
  ext_call (insert_agtbank_table E (db_cursor m) (simid m) (schedule_steps m)
              (snapshot_banks m)).

(* self.conn.commit() *)
Definition commit : M St unit :=
  s <- get ;;
  match conn (fst s) with
  | None => raise (AttributeError "commit")
  | Some h => emit (EvCommit h) ;; ext_call (conn_commit E)
  end.

(* self.schedule.step(): every agent's step(), then steps += 1. *)
Definition schedule_step : M St unit :=
  emit EvSchedulerStep ;;
  run_stage (agents_step E) ;;
  on_self (fun m => set_schedule (schedule_agents m) (S (schedule_steps m)) m).

Definition step_body : M St unit :=
  s <- get ;;
  let m := fst s in
  stage SolvencyEvaluation
    (fun ags => main_evaluate_solvency E ags (reserve_rates m)
                  (bankrupt_liquidation m) (car m)) ;;
  second_round_effects ;;
  stage RiskWeightOptimization
    (fun ags => main_risk_weight_optimization E ags (car m)) ;;
  stage DividendPayment
    (fun ags => main_pay_dividends E ags (car m) (min_reserves_ratio m)) ;;
  stage ResetInsolventLoans (main_reset_insolvent_loans E) ;;
  stage BuildLoanBookLocally
    (fun ags => main_build_loan_book_locally E ags (min_reserves_ratio m) (car m)) ;;
  stage BuildLoanBookGlobally
    (fun ags => main_build_loan_book_globally E ags (car m) (min_reserves_ratio m)) ;;
  stage LiquidityEvaluation
    (fun ags => main_evaluate_liquidity E ags (car m) (min_reserves_ratio m)
                  (bankrupt_liquidation m)) ;;
  main_write_bank_ratios ;;
  main_write_interbank_links ;;
  insert_agtbank ;;
  commit ;;
  schedule_step ;;
  datacollector_collect.

Definition step : M St unit :=
  emit EvStepBegin ;;
  s <- get ;;
  (if schedule_steps (fst s) =? 0 then first_step_block else ret tt) ;;
  step_body.

(** ** BankSim.run_model *)

(* len([x for x in self.schedule.agents if isinstance(x, Bank) and x.bank_solvent]) *)
Definition count_solvent (m : BankSim) : nat :=
  length (filter (fun x : agent => is_bank x && bank_solvent E (attrs x))
                 (schedule_agents m)).

(* One pass through the body of the for loop; true when it ends in break. *)
Definition run_iteration (step_count : Z) (i : nat) : M St bool :=
  s <- get ;;
  (if (i mod 10 =? 0) || (Z.of_nat i + 1 =? step_count)%Z
   then emit (EvPrint i (count_solvent (fst s)))
   else ret tt) ;;
  try_except step (fun e => logger_info (LogTraceback e)) ;;
  s' <- get ;;
  if count_solvent (fst s') =? 0
  then logger_info all_bankrupt_notice ;; ret true
  else ret false.

(* The for loop over the indices that are left; true when it was left by
   break. *)
Fixpoint run_loop (step_count : Z) (indices : list nat) : M St bool :=
  match indices with
  | [] => ret false
  | i :: rest =>
      b <- run_iteration step_count i ;;
      if b then ret true else run_loop step_count rest
  end.

Definition run_model (step_count : Z) : M St (DataFrame E * DataFrame E) :=
  run_loop step_count (py_range step_count) ;;
  s <- get ;;
  ret (convert_result2dataframe E (lst_bank_ratio (snd s)) (lst_ibloan (snd s))).

(** ** What the program can do to its state *)

Inductive MutKind : Type :=
| MExt | MAttrs | MGraph | MBankRatio | MIbLoan | MSteps | MMisc | MDb
| MHandles | MAdd.

Inductive mutation : MutKind -> St -> St -> Prop :=
| mut_ext s x :
    mutation MExt s (fst s, set_ext x (snd s))
| mut_attrs s upd :
    mutation MAttrs s
      (set_schedule (update_attrs upd (schedule_agents (fst s)))
                    (schedule_steps (fst s)) (fst s), snd s)
| mut_graph s g :
    mutation MGraph s (set_G g (fst s), snd s)
| mut_bank_ratio s recs :
    mutation MBankRatio s
      (fst s, set_lst_bank_ratio (lst_bank_ratio (snd s) ++ recs) (snd s))
| mut_ibloan s recs :
    mutation MIbLoan s
      (fst s, set_lst_ibloan (lst_ibloan (snd s) ++ recs) (snd s))
| mut_steps s :
    mutation MSteps s
      (set_schedule (schedule_agents (fst s)) (S (schedule_steps (fst s))) (fst s),
       snd s)
| mut_misc s cid r mv :
    mutation MMisc s (set_misc cid r mv (fst s), snd s)
| mut_db s c cu i :
    mutation MDb s (set_db c cu i (fst s), snd s)
| mut_handles s cs cu n :
    mutation MHandles s (fst s, set_handles cs cu n (snd s))
| mut_add s a :
    mutation MAdd s
      (set_schedule (schedule_agents (fst s) ++ [a]) (schedule_steps (fst s)) (fst s),
       snd s).

(* s' is reached from s by mutations of the allowed kinds. *)
Inductive reaches (allow : MutKind -> bool) : St -> St -> Prop :=
| reaches_refl s : reaches allow s s
| reaches_step k s1 s2 s3 :
    allow k = true -> mutation k s1 s2 -> reaches allow s2 s3 ->
    reaches allow s1 s3.

(* The mutations of step() up to and including the commit. *)
Definition pre_mut (k : MutKind) : bool :=
  match k with
  | MExt | MAttrs | MGraph | MBankRatio | MIbLoan => true
  | _ => false
  end.

(* The mutations of step() after its first-call block. *)
Definition body_mut (k : MutKind) : bool :=
  match k with
  | MExt | MAttrs | MGraph | MBankRatio | MIbLoan | MSteps | MMisc => true
  | _ => false
  end.

(* The mutations of step() and run_model(). *)
Definition run_mut (k : MutKind) : bool :=
  match k with
  | MAdd => false
  | _ => true
  end.

(* The mutations of __init__ once the database exists. *)
Definition build_mut (k : MutKind) : bool :=
  match k with
  | MExt | MAttrs | MMisc | MAdd | MHandles => true
  | _ => false
  end.

Definition keeps {A} (R : St -> St -> Prop) (m : M St A) : Prop :=
  forall s, R s (state_of (m s)).

(* m performs the operations [g s] when started in s: all of them when
   it ends normally, a beginning of them when it raises. *)
Definition performs {A} (m : M St A) (g : St -> list Event) : Prop :=
  forall s,
    match m s with
    | (Ok _, _, evs) => evs = g s
    | (Raise _, _, evs) => exists rest, evs ++ rest = g s
    end.

(* The class, id and node of every agent, in scheduler order. *)
Definition shape (a : agent) : nat * AgentKind * option nat :=
  (unique_id a, kind a, pos a).

(* What the operations of a step are told about the state. *)
Definition step_view (s : St) :=
  (map shape (schedule_agents (fst s)), schedule_steps (fst s),
   conn (fst s), db_cursor (fst s), simid (fst s)).

(* The ids and classes of the agents handed to insert_agtbank_table. *)
Definition snapshot_ids (s : St) : list (nat * AgentKind) :=
  map (fun a : agent => (unique_id a, kind a)) (snapshot_banks (fst s)).

(* The operations of one step after its first-call block, with their
   arguments, for a step entered in state s. *)
Definition body_events (s : St) : list Event :=
  [EvStage SolvencyEvaluation (population s);
   EvStage SecondRoundEffects (population s);
   EvStage RiskWeightOptimization (population s);
   EvStage DividendPayment (population s);
   EvStage ResetInsolventLoans (population s);
   EvStage BuildLoanBookLocally (population s);
   EvStage BuildLoanBookGlobally (population s);
   EvStage LiquidityEvaluation (population s);
   EvWriteBankRatios;
   EvWriteInterbankLinks;
   EvInsertAgtbank (db_cursor (fst s)) (simid (fst s)) (schedule_steps (fst s))
                   (snapshot_ids s);
   EvCommit (match conn (fst s) with Some h => h | None => 0 end);
   EvSchedulerStep;
   EvCollect].

(* What the except clause of run_model logs for the outcome of a step. *)
Definition traceback_log {A} (r : Result A) : list Event :=
  match r with
  | Ok _ => []
  | Raise e => [EvLog (LogTraceback e)]
  end.

(* The notice and the break, when no solvent bank is left. *)
Definition bankrupt_log (s : St) : list Event :=
  if count_solvent (fst s) =? 0 then [EvLog all_bankrupt_notice] else [].

(* What the progress report of iteration i prints. *)
Definition progress_report (step_count : Z) (i : nat) (s : St) : list Event :=
  if (i mod 10 =? 0) || (Z.of_nat i + 1 =? step_count)%Z
  then [EvPrint i (count_solvent (fst s))]
  else [].

(* What the i-th pass of the bank loop adds: a Bank on node i. *)
Definition bank_at (g : Graph) (i : nat) (a : agent) : Prop :=
  kind a = KBank /\ pos a = Some i.

(* What a pass of the saver or loan loop adds: an agent of class k on a
   node of the graph. *)
Definition placed (k : AgentKind) (g : Graph) (i : nat) (a : agent) : Prop :=
  kind a = k /\ exists n, pos a = Some n /\ In n (nodes g).

Definition count_kind (k : AgentKind) (m : BankSim) : nat :=
  List.length (filter (fun a : agent => kind_eqb (kind a) k) (schedule_agents m)).

(* The mutations that move neither the scheduler's counter nor the data
   collector. *)
Definition quiet_mut (k : MutKind) : bool :=
  match k with
  | MSteps | MMisc => false
  | _ => true
  end.

(* m moves the scheduler's counter and the data collector together: one
   step and one collected value when it ends normally, nothing when it
   raises. *)
Definition advances {A} (m : M St A) : Prop :=
  forall s,
    match result_of (m s) with
    | Ok _ =>
        schedule_steps (fst (state_of (m s))) = S (schedule_steps (fst s)) /\
        List.length (model_vars (fst (state_of (m s))))
        = S (List.length (model_vars (fst s)))
    | Raise _ =>
        schedule_steps (fst (state_of (m s))) = schedule_steps (fst s) /\
        model_vars (fst (state_of (m s))) = model_vars (fst s)
    end.

(* When m ends normally it has appended one value to the data collector:
   the total assets of the Banks as m leaves them. *)
Definition collects {A} (m : M St A) : Prop :=
  forall s,
    is_ok (result_of (m s)) = true ->
    model_vars (fst (state_of (m s)))
    = model_vars (fst s) ++ [get_sum_totasset (fst (state_of (m s)))].

(* m performs no operation. *)
Definition silent {A} (m : M St A) : Prop :=
  forall s, events_of (m s) = [].

(* The object has its connection, its cursor and its run id. *)
Definition db_ready (s : St) : Prop :=
  conn (fst s) <> None /\ db_cursor (fst s) <> None /\ simid (fst s) <> None.

(* self.conn and self.db_cursor, when they are set, refer to handles that
   are open. *)
Definition holds_open (s : St) : Prop :=
  (forall h, conn (fst s) = Some h -> In h (open_conns (snd s))) /\
  (forall c, db_cursor (fst s) = Some c -> In c (open_cursors (snd s))).

(* The connections and the cursors that are open. *)
Definition handles (s : St) : list nat * list nat :=
  (open_conns (snd s), open_cursors (snd s)).

(* The statements of __init__ after the database check: the three creation
   loops, stage 0, running = True and the first collection. *)
Definition populate : M St unit :=
  create_agents ;;
  initialize_market ;;
  on_self (fun m => set_misc (current_id m) true (model_vars m) m) ;;
  datacollector_collect.

(** ** The operations of a step, as the specification lists them

    The second description of the body of step(), written from the
    sentence of the specification and compared with [step_body] below: a
    list of operations in the stated order.  An operation has its place
    in the order, what it records when it is reached in a state, and its
    call: the exception it ends with, if any, and the state it leaves. *)














(* The unique_ids handed out so far are 1 .. current_id, in scheduler order. *)
Definition ids_in_order (s : St) : Prop :=
  map (@unique_id _) (schedule_agents (fst s)) = seq 1 (current_id (fst s)).

End Model.

Arguments mkWorld {E}.

(** ** A small concrete outside

    One agent attribute (the solvency flag), integer numbers, records that
    are agent ids.  The hidden state counts the calls of
    main_evaluate_solvency.  A scenario chooses the behaviour: whether the
    first call of main_evaluate_solvency raises, whether
    main_evaluate_solvency marks every bank insolvent, whether
    main_second_round_effects raises, whether the database file exists,
    whether sqlite3.connect raises, and what the local and the UTC clock
    read. *)

Record Scenario : Type := mkScenario {
  first_solvency_call_raises : bool;
  solvency_marks_insolvent : bool;
  second_round_raises : bool;
  db_file_exists : bool;
  connect_raises : bool;
  local_clock : DateTime;
  utc_clock : DateTime
}.

Definition keep (x : nat) : StageOut bool nat :=
  mkStageOut (fun a : Agent bool => attrs a) x None.

Definition never {A} (x : A) : option Exn * A := (None, x).

Definition toy (sc : Scenario) : Externals :=
  {| ExtState := nat; Attrs := bool; num := Z; BankRatio := nat; IbLoan := nat;
     DataFrame := list nat;
     sqlite_db := "banksim.db"; db_init_query := "init.sql";
     num_half := fun x => (x / 2)%Z; num_zero := 0%Z; num_add := Z.add;
     Bank_new := fun _ _ _ _ => true;
     Saver_new := fun _ => true;
     Loan_new := fun _ _ => true;
     set_bank_id := fun _ a => a;
     bank_solvent := fun a => a;
     total_assets := fun _ => 100%Z;
     os_path_isfile := fun _ _ => db_file_exists sc;
     sqlite3_connect := fun _ x =>
       (if connect_raises sc then Some (ExtError 14) else None, x);
     file_open := fun _ => never;
     file_read := never;
     cursor_executescript := never;
     conn_commit := never;
     datetime_now := fun x => (local_clock sc, x);
     datetime_now_utc := fun x => (utc_clock sc, x);
     random_below := fun _ x => (0, x);
     insert_simulation_table := fun _ _ => never;
     insert_agtbank_table := fun _ _ _ _ => never;
     initialize_deposit_base := fun _ x => keep x;
     initialize_loan_book := fun _ _ _ x => keep x;
     main_evaluate_solvency := fun _ _ _ _ x =>
       mkStageOut
         (fun a : Agent bool =>
            if solvency_marks_insolvent sc then false else attrs a)
         (S x)
         (if first_solvency_call_raises sc && (x =? 0) then Some (ExtError 1)
          else None);
     main_second_round_effects := fun _ _ _ g x =>
       (mkStageOut (fun a : Agent bool => attrs a) x
          (if second_round_raises sc then Some (ExtError 2) else None), g);
     main_risk_weight_optimization := fun _ _ x => keep x;
     main_pay_dividends := fun _ _ _ x => keep x;
     main_reset_insolvent_loans := fun _ x => keep x;
     main_build_loan_book_locally := fun _ _ _ x => keep x;
     main_build_loan_book_globally := fun _ _ _ x => keep x;
     main_evaluate_liquidity := fun _ _ _ _ x => keep x;
     agents_step := fun _ x => keep x;
     bank_ratio_records := fun ags _ _ x =>
       (map (@unique_id _) (filter (@is_bank _) ags), None, x);
     interbank_link_records := fun _ x => ([], None, x);
     convert_result2dataframe := fun l1 l2 => (l1, l2) |}.

Definition noon_utc : DateTime := mkDateTime 2024 3 5 12 0 0.
Definition nine_pm_local : DateTime := mkDateTime 2024 3 5 21 0 0.

Definition calm : Scenario :=
  mkScenario false false false true false noon_utc noon_utc.

(* The first call of main_evaluate_solvency raises. *)
Definition flaky : Scenario :=
  mkScenario true false false true false noon_utc noon_utc.

(* main_evaluate_solvency marks every bank insolvent, then
   main_second_round_effects raises. *)
Definition doomed : Scenario :=
  mkScenario false true true true false noon_utc noon_utc.

(* main_evaluate_solvency marks every bank insolvent; nothing raises. *)
Definition collapse : Scenario :=
  mkScenario false true false true false noon_utc noon_utc.

(* A process whose local time zone is nine hours ahead of UTC. *)
Definition abroad : Scenario :=
  mkScenario false false false true false nine_pm_local noon_utc.

(* No database file yet, and sqlite3.connect raises. *)
Definition unreachable_db : Scenario :=
  mkScenario false false false false true noon_utc noon_utc.

(* No database file yet; the schema script runs. *)
Definition first_launch : Scenario :=
  mkScenario false false false false false noon_utc noon_utc.

(* The database file exists, but sqlite3.connect raises. *)
Definition offline : Scenario :=
  mkScenario false false false true true noon_utc noon_utc.

(* A process that has just started: both class-level lists empty, no open
   handle. *)
Definition start_world (sc : Scenario) : World (toy sc) :=
  @mkWorld (toy sc) [] [] [] [] 0 0.

(* BankSim(initial_saver=s, initial_loan=l, initial_bank=b) in a process
   that has just started. *)
Definition toy_construct (sc : Scenario) (b s l : Z) :=
  @BankSim_init (toy sc) 20 20 s l b 0%Z 0%Z 0%Z 100%Z (start_world sc).

(* The object and the world that this construction leaves (when it raises:
   the object before __init__ ran its statements). *)
Definition toy_built (sc : Scenario) (b s l : Z) : St (toy sc) :=
  match toy_construct sc b s l with
  | (Ok m, w, _) => (m, w)
  | (Raise _, w, _) =>
      (fresh_object (toy sc) 20 20 s l b 0%Z 0%Z 0%Z 100%Z, w)
  end.


(** * Properties *)

Unset Implicit Arguments.

(** ** The run id is the decimal reading of the strftime string *)

Lemma digit_val_char (d : Z) : digit_val (digit_char d) = Some (d mod 10)%Z.
Proof.
  unfold digit_val, digit_char.
  assert (Hr : (0 <= d mod 10 < 10)%Z) by (apply Z.mod_pos_bound; lia).
  rewrite nat_ascii_embedding by lia.
  replace (48 <=? 48 + Z.to_nat (d mod 10)) with true
    by (symmetry; apply Nat.leb_le; lia).
  replace (48 + Z.to_nat (d mod 10) <=? 57) with true
    by (symmetry; apply Nat.leb_le; lia).
  simpl. f_equal. lia.
Qed.

Lemma two_digits_value (n : Z) :
  (0 <= n < 100)%Z -> (10 * ((n / 10) mod 10) + n mod 10 = n)%Z.
Proof.
  intros H. rewrite (Z.mod_small (n / 10)).
  - symmetry. apply Z.div_mod. lia.
  - split; [apply Z.div_pos; lia | apply Z.div_lt_upper_bound; lia].
Qed.

Lemma four_digits_value (y : Z) :
  (0 <= y < 10000)%Z ->
  (1000 * ((y / 1000) mod 10) + 100 * ((y / 100) mod 10)
   + 10 * ((y / 10) mod 10) + y mod 10 = y)%Z.
Proof.
  intros H.
  pose proof (Z.div_mod y 10 ltac:(lia)) as H0.
  pose proof (Z.div_mod (y / 10) 10 ltac:(lia)) as H1.
  pose proof (Z.div_mod (y / 10 / 10) 10 ltac:(lia)) as H2.
  rewrite Z.div_div in H1, H2 by lia.
  rewrite Z.div_div in H2 by lia.
  change (10 * 10)%Z with 100%Z in *. change (100 * 10)%Z with 1000%Z in *.
  assert (H3 : ((y / 1000) mod 10 = y / 1000)%Z).
  { apply Z.mod_small. split; [apply Z.div_pos; lia | apply Z.div_lt_upper_bound; lia]. }
  lia.
Qed.

Lemma int_of_strftime (d : DateTime) :
  valid_datetime d -> py_int (strftime_YmdHMS d) = Some (encode_YmdHMS d).
Proof.
  intros (Hy & Hm & Hd & Hh & Hmi & Hs).
  unfold py_int, strftime_YmdHMS, pad4, pad2, encode_YmdHMS.
  cbn [app int_digits].
  rewrite !digit_val_char. f_equal.
  pose proof (four_digits_value (year d) ltac:(lia)).
  pose proof (two_digits_value (month d) ltac:(lia)).
  pose proof (two_digits_value (day d) ltac:(lia)).
  pose proof (two_digits_value (hour d) ltac:(lia)).
  pose proof (two_digits_value (minute d) ltac:(lia)).
  pose proof (two_digits_value (second d) ltac:(lia)).
  lia.
Qed.

Lemma strftime_is_a_number (d : DateTime) : py_int (strftime_YmdHMS d) <> None.
Proof.
  unfold py_int, strftime_YmdHMS, pad4, pad2. cbn [app int_digits].
  rewrite !digit_val_char. discriminate.
Qed.

(** ** Composing facts about computations *)

Section Composition.

Context {S : Type}.

Lemma run_bind {A B} (m : M S A) (f : A -> M S B) (s : S) :
  bind m f s =
  match m s with
  | (Ok a, s1, ev1) => (result_of (f a s1), state_of (f a s1), ev1 ++ events_of (f a s1))
  | (Raise e, s1, ev1) => (Raise e, s1, ev1)
  end.
Proof.
  unfold bind, result_of, state_of, events_of.
  destruct (m s) as [[[a|e] s1] ev1]; [|reflexivity].
  destruct (f a s1) as [[r s2] ev2]. reflexivity.
Qed.

Lemma count_events_app p (l1 l2 : list Event) :
  count_events p (l1 ++ l2) = count_events p l1 + count_events p l2.
Proof. unfold count_events. rewrite filter_app, length_app. reflexivity. Qed.

Lemma count_events_none (p q : Event -> bool) (l : list Event) :
  (forall e, q e = true -> p e = false) ->
  forallb q l = true -> count_events p l = 0.
Proof.
  intros Hqp Hl. unfold count_events. induction l as [|e l IH]; [reflexivity|].
  simpl in *. apply andb_true_iff in Hl as [He Hl].
  rewrite (Hqp e He). auto.
Qed.

End Composition.

(** ** What each operation can change *)

Section Frames.

Variable E : Externals.

Lemma reaches_trans allow (s1 s2 s3 : St E) :
  reaches allow s1 s2 -> reaches allow s2 s3 -> reaches allow s1 s3.
Proof.
  induction 1 as [|k a b c Hk Hm _ IH]; intros H3; [assumption|].
  eapply reaches_step; eauto.
Qed.

Lemma reaches_one allow k (s s' : St E) :
  allow k = true -> mutation k s s' -> reaches allow s s'.
Proof. intros Hk Hm. eapply reaches_step; eauto. apply reaches_refl. Qed.

Lemma reaches_weaken (a b : MutKind -> bool) (s s' : St E) :
  (forall k, a k = true -> b k = true) -> reaches a s s' -> reaches b s s'.
Proof.
  intros Hab. induction 1 as [|k s1 s2 s3 Hk Hm _ IH]; [apply reaches_refl|].
  eapply reaches_step; eauto.
Qed.

(* A reflexive and transitive relation that holds across every allowed
   mutation holds from the start to the end of a run of them. *)
Lemma reaches_inv (R : St E -> St E -> Prop) allow :
  (forall s, R s s) ->
  (forall s1 s2 s3, R s1 s2 -> R s2 s3 -> R s1 s3) ->
  (forall k s s', allow k = true -> mutation k s s' -> R s s') ->
  forall s s', reaches allow s s' -> R s s'.
Proof.
  intros Hrefl Htrans Hmut s s'. induction 1 as [|k s1 s2 s3 Hk Hm _ IH]; eauto.
Qed.

Lemma keeps_ret allow {A} (a : A) : keeps (reaches allow) (ret (S:=St E) a).
Proof. intros s. apply reaches_refl. Qed.

Lemma keeps_raise allow {A} e : keeps (reaches allow) (raise (S:=St E) (A:=A) e).
Proof. intros s. apply reaches_refl. Qed.

Lemma keeps_emit allow e : keeps (reaches allow) (emit (S:=St E) e).
Proof. intros s. apply reaches_refl. Qed.

Lemma keeps_get allow : keeps (reaches allow) (get (S:=St E)).
Proof. intros s. apply reaches_refl. Qed.

Lemma keeps_bind allow {A B} (m : M (St E) A) (f : A -> M (St E) B) :
  keeps (reaches allow) m -> (forall a, keeps (reaches allow) (f a)) ->
  keeps (reaches allow) (bind m f).
Proof.
  intros Hm Hf s. rewrite run_bind. specialize (Hm s). unfold state_of in *.
  destruct (m s) as [[[a|e] s1] ev1]; simpl in *; [|assumption].
  eapply reaches_trans; [exact Hm | apply Hf].
Qed.

Lemma keeps_try_except allow {A} (m : M (St E) A) (h : Exn -> M (St E) A) :
  keeps (reaches allow) m -> (forall e, keeps (reaches allow) (h e)) ->
  keeps (reaches allow) (try_except m h).
Proof.
  intros Hm Hh s. unfold try_except. specialize (Hm s). unfold state_of in *.
  destruct (m s) as [[[a|e] s1] ev1]; simpl in *; [assumption|].
  specialize (Hh e s1). destruct (h e s1) as [[r s2] ev2]. simpl in *.
  eapply reaches_trans; eassumption.
Qed.

Lemma keeps_for_each allow {A} (l : list A) (body : A -> M (St E) unit) :
  (forall x, keeps (reaches allow) (body x)) ->
  keeps (reaches allow) (for_each l body).
Proof.
  intros H. induction l as [|x l IH]; simpl.
  - apply keeps_ret.
  - apply keeps_bind; auto.
Qed.

Lemma keeps_on_self allow k (f : BankSim E -> BankSim E) :
  (forall s : St E, mutation k s (f (fst s), snd s)) -> allow k = true ->
  keeps (reaches allow) (on_self f).
Proof. intros Hm Hk s. eapply reaches_one; [exact Hk | apply Hm]. Qed.

Lemma keeps_on_world allow k (f : World E -> World E) :
  (forall s : St E, mutation k s (fst s, f (snd s))) -> allow k = true ->
  keeps (reaches allow) (on_world f).
Proof. intros Hm Hk s. eapply reaches_one; [exact Hk | apply Hm]. Qed.

Lemma keeps_ext_call allow f :
  allow MExt = true -> keeps (reaches allow) (ext_call (E:=E) f).
Proof.
  intros Hk s. unfold ext_call, state_of.
  destruct (f (ext (snd s))) as [[e|] x]; simpl;
    (eapply reaches_one; [exact Hk | apply mut_ext]).
Qed.

Lemma keeps_ext_read allow {A} (f : ExtState E -> A * ExtState E) :
  allow MExt = true -> keeps (reaches allow) (ext_read (E:=E) f).
Proof.
  intros Hk s. unfold ext_read, state_of.
  destruct (f (ext (snd s))) as [a x]; simpl.
  eapply reaches_one; [exact Hk | apply mut_ext].
Qed.

Lemma keeps_run_stage allow f :
  allow MAttrs = true -> allow MExt = true ->
  keeps (reaches allow) (run_stage (E:=E) f).
Proof.
  intros Ha Hx s. unfold run_stage, state_of.
  set (o := f (schedule_agents (fst s)) (ext (snd s))).
  assert (H : reaches allow s
                (set_schedule (update_attrs E (so_upd o) (schedule_agents (fst s)))
                   (schedule_steps (fst s)) (fst s), set_ext (so_ext o) (snd s))).
  { eapply reaches_step; [exact Ha | apply (mut_attrs s (so_upd o)) |].
    eapply reaches_one; [exact Hx |].
    apply (mut_ext (set_schedule (update_attrs E (so_upd o) (schedule_agents (fst s)))
                      (schedule_steps (fst s)) (fst s), snd s) (so_ext o)). }
  destruct (so_exn o); exact H.
Qed.

End Frames.

Ltac keeps_tac :=
  repeat first
    [ apply keeps_ret | apply keeps_raise | apply keeps_emit | apply keeps_get
    | match goal with
      | |- keeps _ (bind _ _) => apply keeps_bind; [ | intro ]
      | |- keeps _ (ext_call _) => apply keeps_ext_call; reflexivity
      | |- keeps _ (ext_read _) => apply keeps_ext_read; reflexivity
      | |- keeps _ (run_stage _) => apply keeps_run_stage; reflexivity
      | |- keeps _ (on_self _) =>
          eapply keeps_on_self; [ intro; constructor | reflexivity ]
      | |- keeps _ (on_world _) =>
          eapply keeps_on_world; [ intro; constructor | reflexivity ]
      | |- keeps _ (match ?x with _ => _ end) => destruct x
      | |- keeps _ (if ?x then _ else _) => destruct x
      end
    | progress cbv zeta ].

Section Frame_ops.

Variable E : Externals.

Lemma keeps_stage allow id f :
  allow MAttrs = true -> allow MExt = true ->
  keeps (reaches allow) (stage (E:=E) id f).
Proof.
  intros Ha Hx. unfold stage. keeps_tac. apply keeps_run_stage; assumption.
Qed.

Lemma keeps_second_round_effects allow :
  allow MAttrs = true -> allow MExt = true -> allow MGraph = true ->
  keeps (reaches allow) (second_round_effects (E:=E)).
Proof.
  intros Ha Hx Hg. unfold second_round_effects. keeps_tac.
  - eapply keeps_on_self; [intro; constructor | exact Hg].
  - apply keeps_run_stage; assumption.
Qed.

Lemma keeps_main_write_bank_ratios allow :
  allow MBankRatio = true -> allow MExt = true ->
  keeps (reaches allow) (main_write_bank_ratios (E:=E)).
Proof.
  intros Hb Hx s. unfold main_write_bank_ratios, bind, emit, state_of.
  destruct (bank_ratio_records E _ _ _ _) as [[recs exn] x].
  assert (H : reaches allow s
    (fst s, set_ext x (set_lst_bank_ratio (lst_bank_ratio (snd s) ++ recs) (snd s)))).
  { eapply reaches_step; [exact Hb | apply (mut_bank_ratio s recs) |].
    eapply reaches_one; [exact Hx | apply (mut_ext (fst s, _) x)]. }
  destruct exn; exact H.
Qed.

Lemma keeps_main_write_interbank_links allow :
  allow MIbLoan = true -> allow MExt = true ->
  keeps (reaches allow) (main_write_interbank_links (E:=E)).
Proof.
  intros Hb Hx s. unfold main_write_interbank_links, bind, emit, state_of.
  destruct (interbank_link_records E _ _) as [[recs exn] x].
  assert (H : reaches allow s
    (fst s, set_ext x (set_lst_ibloan (lst_ibloan (snd s) ++ recs) (snd s)))).
  { eapply reaches_step; [exact Hb | apply (mut_ibloan s recs) |].
    eapply reaches_one; [exact Hx | apply (mut_ext (fst s, _) x)]. }
  destruct exn; exact H.
Qed.

Lemma keeps_insert_agtbank allow :
  allow MExt = true -> keeps (reaches allow) (insert_agtbank (E:=E)).
Proof.
  intros Hx. unfold insert_agtbank. keeps_tac. apply keeps_ext_call; exact Hx.
Qed.

Lemma keeps_commit allow :
  allow MExt = true -> keeps (reaches allow) (commit (E:=E)).
Proof.
  intros Hx. unfold commit. keeps_tac. apply keeps_ext_call; exact Hx.
Qed.

Lemma keeps_schedule_step : keeps (reaches body_mut) (schedule_step (E:=E)).
Proof. unfold schedule_step. keeps_tac. Qed.

Lemma keeps_datacollector_collect allow :
  allow MMisc = true -> keeps (reaches allow) (datacollector_collect (E:=E)).
Proof.
  intros H. unfold datacollector_collect. keeps_tac.
  eapply keeps_on_self; [intro; constructor | exact H].
Qed.

Lemma keeps_step_body : keeps (reaches body_mut) (step_body (E:=E)).
Proof.
  unfold step_body.
  repeat first
    [ apply keeps_get
    | apply keeps_schedule_step
    | match goal with
      | |- keeps _ (stage _ _) => apply keeps_stage; reflexivity
      | |- keeps _ (second_round_effects (E:=_)) =>
          apply keeps_second_round_effects; reflexivity
      | |- keeps _ (main_write_bank_ratios (E:=_)) =>
          apply keeps_main_write_bank_ratios; reflexivity
      | |- keeps _ (main_write_interbank_links (E:=_)) =>
          apply keeps_main_write_interbank_links; reflexivity
      | |- keeps _ (insert_agtbank (E:=_)) => apply keeps_insert_agtbank; reflexivity
      | |- keeps _ (commit (E:=_)) => apply keeps_commit; reflexivity
      | |- keeps _ (datacollector_collect (E:=_)) =>
          apply keeps_datacollector_collect; reflexivity
      | |- keeps _ (bind _ _) => apply keeps_bind; [ | intro ]
      end
    | progress cbv zeta ].
Qed.

Lemma keeps_sqlite3_connect allow path :
  allow MExt = true -> allow MHandles = true ->
  keeps (reaches allow) (sqlite3_connect_ (E:=E) path).
Proof.
  intros Hx Hh. unfold sqlite3_connect_. keeps_tac.
  - apply keeps_ext_call; assumption.
  - eapply keeps_on_world; [intro; constructor | exact Hh].
Qed.

Lemma keeps_conn_cursor allow h :
  allow MHandles = true -> keeps (reaches allow) (conn_cursor (E:=E) h).
Proof.
  intros Hh. unfold conn_cursor. keeps_tac.
  eapply keeps_on_world; [intro; constructor | exact Hh].
Qed.

Lemma keeps_first_step_block : keeps (reaches run_mut) (first_step_block (E:=E)).
Proof.
  unfold first_step_block.
  repeat first
    [ match goal with
      | |- keeps _ (sqlite3_connect_ _) => apply keeps_sqlite3_connect; reflexivity
      | |- keeps _ (conn_cursor _) => apply keeps_conn_cursor; reflexivity
      end
    | progress keeps_tac ].
Qed.

Lemma body_mut_run_mut k : body_mut k = true -> run_mut k = true.
Proof. destruct k; simpl; congruence. Qed.

Lemma keeps_step : keeps (reaches run_mut) (step (E:=E)).
Proof.
  unfold step. keeps_tac.
  - apply keeps_first_step_block.
  - intros s. eapply reaches_weaken; [apply body_mut_run_mut | apply keeps_step_body].
Qed.

Lemma keeps_run_iteration step_count i :
  keeps (reaches run_mut) (run_iteration (E:=E) step_count i).
Proof.
  unfold run_iteration, logger_info. keeps_tac.
  apply keeps_try_except; [apply keeps_step | intro; apply keeps_emit].
Qed.

Lemma keeps_run_loop step_count indices :
  keeps (reaches run_mut) (run_loop (E:=E) step_count indices).
Proof.
  induction indices as [|i rest IH]; simpl.
  - apply keeps_ret.
  - apply keeps_bind; [apply keeps_run_iteration|].
    intros [|]; [apply keeps_ret | exact IH].
Qed.

End Frame_ops.

(** ** Invariants of the allowed mutations *)

Section Invariants.

Variable E : Externals.

Lemma map_shape_update_attrs upd (l : list (Agent (Attrs E))) :
  map (shape E) (update_attrs E upd l) = map (shape E) l.
Proof.
  unfold update_attrs. rewrite map_map. apply map_ext. intros a. reflexivity.
Qed.

Lemma step_view_stable (s s' : St E) :
  reaches pre_mut s s' -> step_view s' = step_view s.
Proof.
  apply reaches_inv with (R := fun a b : St E => step_view b = step_view a).
  - reflexivity.
  - intros s1 s2 s3 H12 H23. congruence.
  - intros k a b Hk Hm. destruct Hm; try discriminate Hk; try reflexivity.
    unfold step_view. simpl. rewrite map_shape_update_attrs. reflexivity.
Qed.

Lemma schedule_steps_monotone allow (s s' : St E) :
  reaches allow s s' -> schedule_steps (fst s) <= schedule_steps (fst s').
Proof.
  apply reaches_inv
    with (R := fun a b : St E => schedule_steps (fst a) <= schedule_steps (fst b)).
  - intros a. apply Nat.le_refl.
  - intros s1 s2 s3 H12 H23. eapply Nat.le_trans; eassumption.
  - intros k a b Hk Hm. destruct Hm; simpl; lia.
Qed.

(* Whatever runs, the two class-level lists only grow at the end. *)
Lemma lists_grow allow (s s' : St E) :
  reaches allow s s' ->
  (exists x, lst_bank_ratio (snd s') = lst_bank_ratio (snd s) ++ x) /\
  (exists y, lst_ibloan (snd s') = lst_ibloan (snd s) ++ y).
Proof.
  apply reaches_inv
    with (R := fun a b : St E =>
                 (exists x, lst_bank_ratio (snd b) = lst_bank_ratio (snd a) ++ x) /\
                 (exists y, lst_ibloan (snd b) = lst_ibloan (snd a) ++ y)).
  - intros a. split; exists []; rewrite app_nil_r; reflexivity.
  - intros s1 s2 s3 [[x1 H1] [y1 G1]] [[x2 H2] [y2 G2]]. split.
    + exists (x1 ++ x2). rewrite H2, H1, app_assoc. reflexivity.
    + exists (y1 ++ y2). rewrite G2, G1, app_assoc. reflexivity.
  - intros k a b Hk Hm.
    destruct Hm; simpl; split;
      solve [ exists []; rewrite app_nil_r; reflexivity | eexists; reflexivity ].
Qed.

(* step() and run_model() neither add nor remove agents, and change no
   agent's class, id or node. *)
Lemma shape_stable (s s' : St E) :
  reaches run_mut s s' ->
  map (shape E) (schedule_agents (fst s')) = map (shape E) (schedule_agents (fst s)).
Proof.
  apply reaches_inv
    with (R := fun a b : St E =>
                 map (shape E) (schedule_agents (fst b))
                 = map (shape E) (schedule_agents (fst a))).
  - reflexivity.
  - intros s1 s2 s3 H12 H23. congruence.
  - intros k a b Hk Hm. destruct Hm; try discriminate Hk; try reflexivity.
    simpl. apply map_shape_update_attrs.
Qed.

Lemma db_stable (s s' : St E) :
  reaches body_mut s s' ->
  conn (fst s') = conn (fst s) /\ db_cursor (fst s') = db_cursor (fst s) /\
  simid (fst s') = simid (fst s).
Proof.
  apply reaches_inv
    with (R := fun a b : St E =>
                 conn (fst b) = conn (fst a) /\ db_cursor (fst b) = db_cursor (fst a) /\
                 simid (fst b) = simid (fst a)).
  - intros a. auto.
  - intros s1 s2 s3 (A1 & B1 & C1) (A2 & B2 & C2). repeat split; congruence.
  - intros k a b Hk Hm. destruct Hm; try discriminate Hk; simpl; auto.
Qed.

(* The graph is touched by the second-round stage only. *)
Lemma graph_stable allow (s s' : St E) :
  allow MGraph = false -> reaches allow s s' -> G (fst s') = G (fst s).
Proof.
  intros Hg.
  apply reaches_inv with (R := fun a b : St E => G (fst b) = G (fst a)).
  - reflexivity.
  - intros s1 s2 s3 H12 H23. congruence.
  - intros k a b Hk Hm. destruct Hm; try reflexivity. congruence.
Qed.

(* No operation touches the constructor's parameters. *)
Lemma parameters_stable allow (s s' : St E) :
  reaches allow s s' ->
  initial_bank (fst s') = initial_bank (fst s) /\
  initial_saver (fst s') = initial_saver (fst s) /\
  initial_loan (fst s') = initial_loan (fst s).
Proof.
  apply reaches_inv
    with (R := fun a b : St E =>
                 initial_bank (fst b) = initial_bank (fst a) /\
                 initial_saver (fst b) = initial_saver (fst a) /\
                 initial_loan (fst b) = initial_loan (fst a)).
  - intros a. auto.
  - intros s1 s2 s3 (A1 & B1 & C1) (A2 & B2 & C2). repeat split; congruence.
  - intros k a b Hk Hm. destruct Hm; simpl; auto.
Qed.

Lemma population_of_view (s : St E) :
  population s = map (fun x => fst (fst x)) (fst (fst (fst (fst (step_view s))))).
Proof.
  unfold population, step_view. simpl. rewrite map_map. reflexivity.
Qed.

Lemma snapshot_ids_of_view (s : St E) :
  snapshot_ids s =
  map (fun x : nat * AgentKind * option nat => fst x)
      (filter (fun x : nat * AgentKind * option nat => kind_eqb (snd (fst x)) KBank)
              (fst (fst (fst (fst (step_view s)))))).
Proof.
  unfold snapshot_ids, snapshot_banks, step_view. simpl.
  induction (schedule_agents (fst s)) as [|a l IH]; [reflexivity|].
  simpl. unfold is_bank at 1. destruct (kind_eqb (kind a) KBank); simpl; congruence.
Qed.

Lemma body_events_of_view (s s' : St E) :
  step_view s' = step_view s -> body_events s' = body_events s.
Proof.
  intros H. unfold body_events.
  rewrite (population_of_view s'), (snapshot_ids_of_view s'), H,
    <- (population_of_view s), <- (snapshot_ids_of_view s).
  unfold step_view in H. injection H as H1 H2 H3 H4 H5.
  rewrite H2, H3, H4, H5. reflexivity.
Qed.

End Invariants.

(** ** The operations of one step, in order *)

Section Step_order.

Variable E : Externals.

Lemma performs_get {B} (f : St E -> M (St E) B) (g : St E -> list Event) :
  (forall a, performs (f a) g) -> performs (bind get f) g.
Proof.
  intros Hf s. unfold bind, get. specialize (Hf s s).
  destruct (f s s) as [[[b|e] s2] ev2]; exact Hf.
Qed.

Lemma performs_cons {A B} (m : M (St E) A) (f : A -> M (St E) B)
    (e : St E -> Event) (g : St E -> list Event) :
  performs m (fun s => [e s]) ->
  (forall a, performs (f a) g) ->
  (forall s, g (state_of (m s)) = g s) ->
  performs (bind m f) (fun s => e s :: g s).
Proof.
  intros Hm Hf Hg s. unfold bind. specialize (Hm s). specialize (Hg s).
  unfold state_of in Hg.
  destruct (m s) as [[[a|x] s1] ev1]; simpl in Hg.
  - specialize (Hf a s1). subst ev1.
    destruct (f a s1) as [[[b|x] s2] ev2].
    + simpl. congruence.
    + destruct Hf as [rest Hrest]. exists rest. simpl. congruence.
  - destruct Hm as [rest Hrest]. exists (rest ++ g s).
    rewrite app_assoc, Hrest. reflexivity.
Qed.

Lemma performs_emits_only {A} (m : M (St E) A) (g : St E -> list Event) p :
  performs m g -> (forall s, forallb p (g s) = true) -> emits_only p m.
Proof.
  intros Hm Hp s. specialize (Hm s). specialize (Hp s). unfold events_of.
  destruct (m s) as [[[a|x] s1] ev]; simpl.
  - congruence.
  - destruct Hm as [rest Hrest]. rewrite <- Hrest, forallb_app in Hp.
    apply andb_true_iff in Hp. tauto.
Qed.

Lemma performs_stage id f :
  performs (stage (E:=E) id f) (fun s => [EvStage id (population s)]).
Proof.
  intros s. unfold stage, bind, get, emit, run_stage.
  destruct (so_exn _); [exists []|]; reflexivity.
Qed.

Lemma performs_second_round_effects :
  performs (second_round_effects (E:=E))
           (fun s => [EvStage SecondRoundEffects (population s)]).
Proof.
  intros s. unfold second_round_effects, bind, get, emit, on_self, modify, run_stage.
  cbv zeta. simpl. destruct (so_exn _); [exists []|]; reflexivity.
Qed.

Lemma performs_main_write_bank_ratios :
  performs (main_write_bank_ratios (E:=E)) (fun _ => [EvWriteBankRatios]).
Proof.
  intros s. unfold main_write_bank_ratios, bind, emit.
  destruct (bank_ratio_records E _ _ _ _) as [[recs [x|]] y];
    [exists []|]; reflexivity.
Qed.

Lemma performs_main_write_interbank_links :
  performs (main_write_interbank_links (E:=E)) (fun _ => [EvWriteInterbankLinks]).
Proof.
  intros s. unfold main_write_interbank_links, bind, emit.
  destruct (interbank_link_records E _ _) as [[recs [x|]] y];
    [exists []|]; reflexivity.
Qed.

Lemma performs_insert_agtbank :
  performs (insert_agtbank (E:=E))
    (fun s => [EvInsertAgtbank (db_cursor (fst s)) (simid (fst s))
                 (schedule_steps (fst s)) (snapshot_ids s)]).
Proof.
  intros s. unfold insert_agtbank, bind, get, emit, ext_call. cbv zeta.
  destruct (insert_agtbank_table E _ _ _ _ _) as [[x|] y];
    [exists []|]; reflexivity.
Qed.

Lemma performs_commit :
  performs (commit (E:=E))
    (fun s => [EvCommit (match conn (fst s) with Some h => h | None => 0 end)]).
Proof.
  intros s. unfold commit, bind, get, emit, ext_call, raise.
  destruct (conn (fst s)) as [h|].
  - destruct (conn_commit E _) as [[x|] y]; [exists []|]; reflexivity.
  - eexists. reflexivity.
Qed.

Lemma performs_schedule_step :
  performs (schedule_step (E:=E)) (fun _ => [EvSchedulerStep]).
Proof.
  intros s. unfold schedule_step, bind, emit, run_stage, on_self, modify.
  destruct (so_exn _); [exists []|]; reflexivity.
Qed.

Lemma performs_datacollector_collect :
  performs (datacollector_collect (E:=E)) (fun _ => [EvCollect]).
Proof. intros s. reflexivity. Qed.

Lemma tail_stable {A} k (m : M (St E) A) :
  keeps (reaches pre_mut) m ->
  forall s, skipn k (body_events (state_of (m s))) = skipn k (body_events s).
Proof.
  intros Hm s. f_equal. apply body_events_of_view, step_view_stable, Hm.
Qed.

(* One step performs the eight stages, the two writers, the snapshot, the
   commit, the scheduler step and the collection, in this order and on these
   arguments, up to the operation that raises, if one does. *)
Lemma performs_step_body : performs (step_body (E:=E)) (body_events (E:=E)).
Proof.
  unfold step_body. apply performs_get. intros s0. cbv zeta.
  unfold body_events.
  eapply performs_cons; [apply performs_stage | intros _ |
    exact (tail_stable 1 _ (keeps_stage E pre_mut _ _ eq_refl eq_refl))].
  eapply performs_cons; [apply performs_second_round_effects | intros _ |
    exact (tail_stable 2 _ (keeps_second_round_effects E pre_mut eq_refl eq_refl eq_refl))].
  eapply performs_cons; [apply performs_stage | intros _ |
    exact (tail_stable 3 _ (keeps_stage E pre_mut _ _ eq_refl eq_refl))].
  eapply performs_cons; [apply performs_stage | intros _ |
    exact (tail_stable 4 _ (keeps_stage E pre_mut _ _ eq_refl eq_refl))].
  eapply performs_cons; [apply performs_stage | intros _ |
    exact (tail_stable 5 _ (keeps_stage E pre_mut _ _ eq_refl eq_refl))].
  eapply performs_cons; [apply performs_stage | intros _ |
    exact (tail_stable 6 _ (keeps_stage E pre_mut _ _ eq_refl eq_refl))].
  eapply performs_cons; [apply performs_stage | intros _ |
    exact (tail_stable 7 _ (keeps_stage E pre_mut _ _ eq_refl eq_refl))].
  eapply performs_cons; [apply performs_stage | intros _ |
    exact (tail_stable 8 _ (keeps_stage E pre_mut _ _ eq_refl eq_refl))].
  eapply performs_cons; [apply performs_main_write_bank_ratios | intros _ |
    exact (tail_stable 9 _ (keeps_main_write_bank_ratios E pre_mut eq_refl eq_refl))].
  eapply performs_cons; [apply performs_main_write_interbank_links | intros _ |
    exact (tail_stable 10 _ (keeps_main_write_interbank_links E pre_mut eq_refl eq_refl))].
  eapply performs_cons; [apply performs_insert_agtbank | intros _ |
    exact (tail_stable 11 _ (keeps_insert_agtbank E pre_mut eq_refl))].
  eapply performs_cons; [apply performs_commit | intros _ | reflexivity].
  eapply performs_cons; [apply performs_schedule_step | intros _ | reflexivity].
  apply performs_datacollector_collect.
Qed.

End Step_order.

(** ** One call of step() *)

Section Step_facts.

Variable E : Externals.

Lemma step_run (s : St E) :
  step s =
  if schedule_steps (fst s) =? 0 then
    match first_step_block s with
    | (Ok _, s1, ev1) =>
        (result_of (step_body s1), state_of (step_body s1),
         EvStepBegin :: ev1 ++ events_of (step_body s1))
    | (Raise e, s1, ev1) => (Raise e, s1, EvStepBegin :: ev1)
    end
  else
    (result_of (step_body s), state_of (step_body s),
     EvStepBegin :: events_of (step_body s)).
Proof.
  unfold step, bind, emit, get, ret, result_of, state_of, events_of.
  destruct (schedule_steps (fst s) =? 0).
  - destruct (first_step_block s) as [[[[]|e] s1] ev1]; [|reflexivity].
    destruct (step_body s1) as [[r s2] ev2]. reflexivity.
  - destruct (step_body s) as [[r s2] ev2]. reflexivity.
Qed.

(* The block of the first call: nothing when sqlite3.connect raises, else
   the connection, the cursor, the run id read off the local clock and the
   run record stamped with the UTC clock. *)
Lemma first_step_block_run (s : St E) :
  let c := sqlite3_connect E (sqlite_db E) (ext (snd s)) in
  let h := next_handle (snd s) in
  let local := datetime_now E (snd c) in
  let utc := datetime_now_utc E (snd local) in
  match fst c with
  | Some e => first_step_block s = (Raise e, (fst s, set_ext (snd c) (snd s)), [])
  | None =>
      exists id r s',
        py_int (strftime_YmdHMS (fst local)) = Some id /\
        first_step_block s =
          (r, s', [EvConnect h; EvCursor (S h); EvMintSimid id;
                   EvInsertSimulation (Some (S h)) (id, "test"%string, fst utc)]) /\
        simid (fst s') = Some id /\ conn (fst s') = Some h /\
        db_cursor (fst s') = Some (S h) /\
        schedule_steps (fst s') = schedule_steps (fst s)
  end.
Proof.
  cbv zeta.
  unfold first_step_block, sqlite3_connect_, conn_cursor, bind, ext_call, ext_read,
    on_self, on_world, modify, get, emit, ret, raise.
  destruct (sqlite3_connect E (sqlite_db E) (ext (snd s))) as [[e|] x1];
    cbn -[py_int strftime_YmdHMS]; [reflexivity|].
  destruct (datetime_now E x1) as [local x2]. cbn -[py_int strftime_YmdHMS].
  destruct (py_int (strftime_YmdHMS local)) as [id|] eqn:Hid;
    [|exfalso; exact (strftime_is_a_number local Hid)].
  cbn -[py_int strftime_YmdHMS].
  destruct (datetime_now_utc E x2) as [utc x3]. cbn -[py_int strftime_YmdHMS].
  destruct (insert_simulation_table E _ _ _) as [[e|] x4];
    cbn -[py_int strftime_YmdHMS];
    exists id; eexists _, _; repeat split; reflexivity.
Qed.

Lemma first_step_block_events (s : St E) :
  forallb is_first_block_event (events_of (first_step_block s)) = true.
Proof.
  pose proof (first_step_block_run s) as H. cbv zeta in H.
  destruct (fst (sqlite3_connect E (sqlite_db E) (ext (snd s)))).
  - rewrite H. reflexivity.
  - destruct H as (id & r & s' & _ & H & _). rewrite H. reflexivity.
Qed.

Lemma step_body_events (s : St E) :
  forallb is_body_event (events_of (step_body s)) = true.
Proof.
  apply (performs_emits_only E _ _ is_body_event (performs_step_body E)).
  intros s0. reflexivity.
Qed.

(* The operations of a call of step(): the entry, the first-call block (only
   when schedule.steps is 0), then operations of the body. *)
Lemma step_events_shape (s : St E) :
  exists blk body,
    events_of (step s) = EvStepBegin :: blk ++ body /\
    forallb is_first_block_event blk = true /\
    forallb is_body_event body = true /\
    (schedule_steps (fst s) <> 0 -> blk = []).
Proof.
  rewrite step_run. destruct (schedule_steps (fst s) =? 0) eqn:H0.
  - pose proof (first_step_block_events s) as Hb. unfold events_of in Hb.
    destruct (first_step_block s) as [[[[]|e] s1] ev1]; simpl in Hb.
    + exists ev1, (events_of (step_body s1)). repeat split; auto.
      * apply step_body_events.
      * apply Nat.eqb_eq in H0. congruence.
    + exists ev1, []. rewrite app_nil_r. repeat split; auto.
      apply Nat.eqb_eq in H0. congruence.
  - exists [], (events_of (step_body s)). repeat split.
    apply step_body_events.
Qed.

Lemma ok_bind_tail {A B} (m : M (St E) A) (f : A -> M (St E) B) (Q : St E -> Prop) :
  (forall a s, is_ok (result_of (f a s)) = true -> Q (state_of (f a s))) ->
  forall s, is_ok (result_of (bind m f s)) = true -> Q (state_of (bind m f s)).
Proof.
  intros Hf s. rewrite run_bind.
  destruct (m s) as [[[a|e] s1] ev1]; simpl; [apply Hf | discriminate].
Qed.

(* A step that ends normally has advanced the scheduler. *)
Lemma step_body_ok_advances (s : St E) :
  is_ok (result_of (step_body s)) = true ->
  schedule_steps (fst (state_of (step_body s))) <> 0.
Proof.
  revert s. unfold step_body.
  do 13 (apply (ok_bind_tail _ _ (fun s : St E => schedule_steps (fst s) <> 0));
         intros ?; cbv zeta).
  intros s.
  unfold schedule_step, datacollector_collect, bind, emit, run_stage, on_self, modify.
  destruct (so_exn _); simpl; [discriminate | intros _; discriminate].
Qed.

Lemma step_ok_advances (s : St E) :
  is_ok (result_of (step s)) = true ->
  schedule_steps (fst (state_of (step s))) <> 0.
Proof.
  rewrite step_run. destruct (schedule_steps (fst s) =? 0).
  - destruct (first_step_block s) as [[[[]|e] s1] ev1]; simpl; [|discriminate].
    apply step_body_ok_advances.
  - simpl. apply step_body_ok_advances.
Qed.

Lemma steps_stay_positive (s s' : St E) :
  reaches run_mut s s' -> schedule_steps (fst s) <> 0 -> schedule_steps (fst s') <> 0.
Proof.
  intros H Hs. apply schedule_steps_monotone in H. lia.
Qed.

End Step_facts.

(** ** The run loop *)

Section Run_facts.

Variable E : Externals.

Lemma run_iteration_run step_count i (s : St E) :
  run_iteration step_count i s =
  (Ok (count_solvent (fst (state_of (step s))) =? 0), state_of (step s),
   progress_report step_count i s ++ events_of (step s)
   ++ traceback_log (result_of (step s)) ++ bankrupt_log (state_of (step s))).
Proof.
  unfold run_iteration, progress_report, bankrupt_log, bind, get, try_except,
    logger_info, emit, ret, result_of, state_of, events_of.
  destruct ((i mod 10 =? 0) || (Z.of_nat i + 1 =? step_count)%Z);
    destruct (step s) as [[[[]|e] s1] ev]; cbn [fst snd traceback_log app];
    destruct (count_solvent (fst s1) =? 0); cbn [fst snd app];
    rewrite ?app_nil_r, <- ?app_assoc; reflexivity.
Qed.

Lemma run_loop_cons step_count i rest (s : St E) :
  run_loop step_count (i :: rest) s =
  if count_solvent (fst (state_of (step s))) =? 0
  then (Ok true, state_of (step s), events_of (run_iteration step_count i s))
  else (result_of (run_loop step_count rest (state_of (step s))),
        state_of (run_loop step_count rest (state_of (step s))),
        events_of (run_iteration step_count i s)
        ++ events_of (run_loop step_count rest (state_of (step s)))).
Proof.
  cbn [run_loop]. rewrite run_bind, run_iteration_run. cbn [events_of snd].
  destruct (count_solvent (fst (state_of (step s))) =? 0).
  - cbn. rewrite app_nil_r. reflexivity.
  - reflexivity.
Qed.

(* The loop itself never raises. *)
Lemma run_loop_total step_count indices (s : St E) :
  exists b, result_of (run_loop step_count indices s) = Ok b.
Proof.
  revert s. induction indices as [|i rest IH]; intros s.
  - exists false. reflexivity.
  - rewrite run_loop_cons.
    destruct (count_solvent (fst (state_of (step s))) =? 0).
    + exists true. reflexivity.
    + apply IH.
Qed.

Lemma run_loop_app step_count l1 l2 (s : St E) :
  run_loop step_count (l1 ++ l2) s =
  match run_loop step_count l1 s with
  | (Ok false, s1, ev1) =>
      (result_of (run_loop step_count l2 s1), state_of (run_loop step_count l2 s1),
       ev1 ++ events_of (run_loop step_count l2 s1))
  | other => other
  end.
Proof.
  revert s. induction l1 as [|i l1 IH]; intros s.
  - cbn. destruct (run_loop step_count l2 s) as [[r s1] ev]. reflexivity.
  - rewrite <- app_comm_cons, !run_loop_cons.
    destruct (count_solvent (fst (state_of (step s))) =? 0); [reflexivity|].
    rewrite IH.
    destruct (run_loop step_count l1 (state_of (step s))) as [[[[|]|e] s1] ev1];
      cbn; try reflexivity.
    rewrite app_assoc. reflexivity.
Qed.

Lemma run_model_run step_count (s : St E) :
  run_model step_count s =
  (Ok (convert_result2dataframe E
         (lst_bank_ratio (snd (state_of (run_loop step_count (py_range step_count) s))))
         (lst_ibloan (snd (state_of (run_loop step_count (py_range step_count) s))))),
   state_of (run_loop step_count (py_range step_count) s),
   events_of (run_loop step_count (py_range step_count) s)).
Proof.
  unfold run_model. rewrite run_bind.
  destruct (run_loop_total step_count (py_range step_count) s) as [b Hb].
  unfold result_of, state_of, events_of in *.
  destruct (run_loop step_count (py_range step_count) s) as [[r s1] ev].
  cbn in *. subst r. cbn. rewrite app_nil_r. reflexivity.
Qed.

Lemma keeps_run_model step_count :
  keeps (reaches run_mut) (run_model (E:=E) step_count).
Proof.
  intros s. rewrite run_model_run. apply keeps_run_loop.
Qed.

(** Counting the operations of a run *)

Lemma first_block_not_begin e : is_first_block_event e = true -> is_step_begin e = false.
Proof. destruct e; intros H; try reflexivity; discriminate H. Qed.

Lemma body_not_begin e : is_body_event e = true -> is_step_begin e = false.
Proof. destruct e; intros H; try reflexivity; discriminate H. Qed.

Lemma first_block_not_notice e : is_first_block_event e = true -> is_notice e = false.
Proof. destruct e; intros H; try reflexivity; discriminate H. Qed.

Lemma body_not_notice e : is_body_event e = true -> is_notice e = false.
Proof. destruct e; intros H; try reflexivity; discriminate H. Qed.

Lemma body_not_first_block e :
  is_body_event e = true -> is_first_block_event e = false.
Proof. destruct e; intros H; try reflexivity; discriminate H. Qed.

Lemma count_progress_report p step_count i (s : St E) :
  (forall j n, p (EvPrint j n) = false) ->
  count_events p (progress_report step_count i s) = 0.
Proof.
  intros Hp. unfold progress_report, count_events.
  destruct ((i mod 10 =? 0) || (Z.of_nat i + 1 =? step_count)%Z); [|reflexivity].
  simpl. rewrite Hp. reflexivity.
Qed.

Lemma count_traceback_log p {A} (r : Result A) :
  (forall e, p (EvLog (LogTraceback e)) = false) ->
  count_events p (traceback_log r) = 0.
Proof.
  intros Hp. destruct r as [a|e]; [reflexivity|].
  unfold count_events. simpl. rewrite Hp. reflexivity.
Qed.

Lemma count_bankrupt_log p (s : St E) :
  p (EvLog all_bankrupt_notice) = false -> count_events p (bankrupt_log s) = 0.
Proof.
  intros Hp. unfold bankrupt_log, count_events.
  destruct (count_solvent (fst s) =? 0); [|reflexivity].
  simpl. rewrite Hp. reflexivity.
Qed.

(* Every call of step() is entered once and logs no notice. *)
Lemma step_counts (s : St E) :
  count_events is_step_begin (events_of (step s)) = 1 /\
  count_events is_notice (events_of (step s)) = 0.
Proof.
  destruct (step_events_shape E s) as (blk & body & Heq & Hblk & Hbody & _).
  rewrite Heq. change (EvStepBegin :: blk ++ body) with ([EvStepBegin] ++ blk ++ body).
  rewrite !count_events_app.
  rewrite (count_events_none is_step_begin _ blk first_block_not_begin Hblk),
    (count_events_none is_step_begin _ body body_not_begin Hbody),
    (count_events_none is_notice _ blk first_block_not_notice Hblk),
    (count_events_none is_notice _ body body_not_notice Hbody).
  split; reflexivity.
Qed.

(* Once the scheduler has advanced, step() opens no connection, mints no
   run id and inserts no run record. *)
Lemma step_later_no_first_block (s : St E) :
  schedule_steps (fst s) <> 0 ->
  count_events is_first_block_event (events_of (step s)) = 0.
Proof.
  intros Hs.
  destruct (step_events_shape E s) as (blk & body & Heq & Hblk & Hbody & Hnil).
  rewrite Heq, (Hnil Hs). cbn [app].
  change (EvStepBegin :: body) with ([EvStepBegin] ++ body).
  rewrite count_events_app,
    (count_events_none is_first_block_event _ body body_not_first_block Hbody).
  reflexivity.
Qed.

Lemma iteration_counts step_count i (s : St E) :
  count_events is_step_begin (events_of (run_iteration step_count i s)) = 1 /\
  count_events is_notice (events_of (run_iteration step_count i s))
  = List.length (bankrupt_log (state_of (step s))) /\
  (schedule_steps (fst s) <> 0 ->
   count_events is_first_block_event (events_of (run_iteration step_count i s)) = 0).
Proof.
  rewrite run_iteration_run. cbn [events_of snd].
  rewrite !count_events_app.
  destruct (step_counts s) as [Hb Hn]. rewrite Hb, Hn.
  rewrite !count_progress_report, !count_traceback_log by reflexivity.
  rewrite (count_bankrupt_log is_step_begin), (count_bankrupt_log is_first_block_event)
    by reflexivity.
  repeat split.
  - unfold bankrupt_log.
    destruct (count_solvent (fst (state_of (step s))) =? 0); reflexivity.
  - intros Hs. rewrite (step_later_no_first_block s Hs). reflexivity.
Qed.

Lemma run_loop_later_no_first_block step_count indices (s : St E) :
  schedule_steps (fst s) <> 0 ->
  count_events is_first_block_event (events_of (run_loop step_count indices s)) = 0.
Proof.
  revert s. induction indices as [|i rest IH]; intros s Hs; [reflexivity|].
  rewrite run_loop_cons.
  destruct (iteration_counts step_count i s) as (_ & _ & Hfb).
  destruct (count_solvent (fst (state_of (step s))) =? 0); cbn [events_of snd].
  - auto.
  - rewrite count_events_app, (Hfb Hs), IH; [reflexivity|].
    eapply steps_stay_positive; [apply keeps_step | exact Hs].
Qed.

(* A loop that was not left by break ran every index, and logged no notice. *)
Lemma run_loop_no_break step_count indices (s s1 : St E) ev :
  run_loop step_count indices s = (Ok false, s1, ev) ->
  count_events is_step_begin ev = List.length indices /\
  count_events is_notice ev = 0.
Proof.
  revert s ev. induction indices as [|i rest IH]; intros s ev H.
  - cbn in H. injection H as _ H. subst ev. split; reflexivity.
  - rewrite run_loop_cons in H.
    destruct (iteration_counts step_count i s) as (Hb & Hn & _).
    unfold bankrupt_log in Hn.
    destruct (count_solvent (fst (state_of (step s))) =? 0); [discriminate|].
    remember (events_of (run_iteration step_count i s)) as evI eqn:HevI.
    destruct (run_loop step_count rest (state_of (step s))) as [[r s2] ev2] eqn:Hrest.
    cbn in H. injection H as Hr Hs Hev. subst r s2 ev.
    destruct (IH _ _ Hrest) as [IHb IHn].
    rewrite !count_events_app, Hb, Hn, IHb, IHn. split; reflexivity.
Qed.

End Run_facts.

(** ** Schema initialisation *)

Section Init_database_facts.

Variable E : Externals.

(* The outcomes of init_database.  When sqlite3.connect raises, nothing was
   acquired and the finally clause fails on the unassigned db_cursor.
   Otherwise one connection and one cursor were acquired, and whatever
   happened next, both are closed by the finally clause. *)
Lemma init_database_run (s : St E) :
  let c := sqlite3_connect E (sqlite_db E) (ext (snd s)) in
  let h := next_handle (snd s) in
  match fst c with
  | Some _ =>
      init_database s =
      (Raise (UnboundLocalError "db_cursor"), (fst s, set_ext (snd c) (snd s)), [])
  | None =>
      exists r x mid,
        init_database s =
        (r,
         (fst s,
          set_handles (remove Nat.eq_dec h (h :: open_conns (snd s)))
                      (remove Nat.eq_dec (S h) (S h :: open_cursors (snd s)))
                      (S (S h)) (set_ext x (snd s))),
         [EvConnect h; EvCursor (S h)] ++ mid ++ [EvCloseCursor (S h); EvCloseConn h])
        /\ (r = Ok tt \/ r = Raise (PyException "SQLite DB init error"))
        /\ forallb not_acquire mid = true
  end.
Proof.
  cbv zeta.
  unfold init_database, with_locals, try_finally, try_except, init_database_try,
    init_database_finally, lift, sqlite3_connect_, conn_cursor, cursor_close,
    conn_close, bind, ext_call, on_world, modify, get, emit, ret, raise.
  cbn [fst snd].
  destruct (sqlite3_connect E (sqlite_db E) (ext (snd s))) as [[e|] x1]; cbn;
    [reflexivity|].
  destruct (file_open E (db_init_query E) x1) as [[e|] x2]; cbn.
  { exists (Raise (PyException "SQLite DB init error")), x2, [EvOpenScript].
    repeat split; auto. }
  destruct (file_read E x2) as [[e|] x3]; cbn.
  { exists (Raise (PyException "SQLite DB init error")), x3, [EvOpenScript].
    repeat split; auto. }
  destruct (cursor_executescript E x3) as [[e|] x4]; cbn.
  { exists (Raise (PyException "SQLite DB init error")), x4,
      [EvOpenScript; EvExecuteScript].
    repeat split; auto. }
  destruct (conn_commit E x4) as [[e|] x5]; cbn.
  { exists (Raise (PyException "SQLite DB init error")), x5,
      [EvOpenScript; EvExecuteScript; EvCommit (next_handle (snd s))].
    repeat split; auto. }
  exists (Ok tt), x5, [EvOpenScript; EvExecuteScript; EvCommit (next_handle (snd s))].
  repeat split; auto.
Qed.

(* init_database leaves the object alone and, in the world, touches only
   the handles and the hidden state. *)
Lemma init_database_frame (s : St E) :
  fst (state_of (init_database s)) = fst s /\
  lst_bank_ratio (snd (state_of (init_database s))) = lst_bank_ratio (snd s) /\
  lst_ibloan (snd (state_of (init_database s))) = lst_ibloan (snd s).
Proof.
  pose proof (init_database_run s) as H. cbv zeta in H.
  destruct (fst (sqlite3_connect E (sqlite_db E) (ext (snd s)))).
  - rewrite H. auto.
  - destruct H as (r & x & mid & H & _). rewrite H. auto.
Qed.

Lemma keeps_init_database allow :
  allow MExt = true -> allow MHandles = true ->
  keeps (reaches allow) (init_database (E:=E)).
Proof.
  intros Hx Hh s.
  pose proof (init_database_run s) as H. cbv zeta in H.
  destruct (fst (sqlite3_connect E (sqlite_db E) (ext (snd s)))).
  - rewrite H. eapply reaches_one; [exact Hx | apply mut_ext].
  - destruct H as (r & x & mid & H & _). rewrite H. unfold state_of. cbn [fst snd].
    eapply reaches_step; [exact Hx | apply (mut_ext s x) |].
    eapply reaches_one; [exact Hh |].
    apply (mut_handles (fst s, set_ext x (snd s))).
Qed.

End Init_database_facts.

(** ** Construction *)

Section Construction_facts.

Variable E : Externals.

Lemma bind_ok_inv {S A B} (m : M S A) (f : A -> M S B) (s : S) :
  is_ok (result_of (bind m f s)) = true ->
  exists a, result_of (m s) = Ok a /\
            is_ok (result_of (f a (state_of (m s)))) = true /\
            state_of (bind m f s) = state_of (f a (state_of (m s))).
Proof.
  rewrite run_bind. unfold result_of, state_of.
  destruct (m s) as [[[a|e] s1] ev1]; cbn; [|discriminate].
  intros H. exists a. auto.
Qed.

Lemma bind_ok_intro {S A B} (m : M S A) (f : A -> M S B) (s : S) :
  is_ok (result_of (m s)) = true ->
  (forall a, is_ok (result_of (f a (state_of (m s)))) = true) ->
  is_ok (result_of (bind m f s)) = true.
Proof.
  rewrite run_bind. unfold result_of, state_of.
  destruct (m s) as [[[a|e] s1] ev1]; cbn; [|discriminate].
  intros _ H. apply H.
Qed.

Lemma node_test (n : nat) (l : list nat) :
  existsb (Nat.eqb n) l = true <-> In n l.
Proof.
  rewrite existsb_exists. split.
  - intros (x & Hx & Heq). apply Nat.eqb_eq in Heq. congruence.
  - intros H. exists n. split; [exact H | apply Nat.eqb_refl].
Qed.

Lemma choice_in_range (r : nat) (l : list nat) :
  l <> [] -> In (nth (r mod List.length l) l 0) l.
Proof.
  intros Hl. apply nth_In. apply Nat.mod_upper_bound.
  destruct l; [congruence | discriminate].
Qed.

(* The i-th bank is created on node i. *)
Lemma add_bank_appends i (s : St E) :
  is_ok (result_of (add_bank i s)) = true ->
  exists a, schedule_agents (fst (state_of (add_bank i s)))
            = schedule_agents (fst s) ++ [a] /\
            (kind a = KBank /\ pos a = Some i) /\
            G (fst (state_of (add_bank i s))) = G (fst s).
Proof.
  unfold add_bank, next_id, place_agent, schedule_add, bind, on_self, modify, get,
    ret, raise, result_of, state_of.
  cbn. destruct (existsb (Nat.eqb i) (nodes (G (fst s)))); cbn; [|discriminate].
  intros _. eexists. repeat split.
Qed.

Lemma add_bank_ok i (s : St E) :
  In i (nodes (G (fst s))) -> is_ok (result_of (add_bank i s)) = true.
Proof.
  intros Hi. apply node_test in Hi.
  unfold add_bank, next_id, place_agent, schedule_add, bind, on_self, modify, get,
    ret, raise, result_of.
  cbn. rewrite Hi. reflexivity.
Qed.

(* A saver is created on a node drawn from the graph. *)
Lemma add_saver_appends i (s : St E) :
  is_ok (result_of (add_saver i s)) = true ->
  exists a, schedule_agents (fst (state_of (add_saver i s)))
            = schedule_agents (fst s) ++ [a] /\
            (kind a = KSaver /\ exists n, pos a = Some n /\ In n (nodes (G (fst s)))) /\
            G (fst (state_of (add_saver i s))) = G (fst s).
Proof.
  unfold add_saver, next_id, random_choice, place_agent, schedule_add, bind, on_self,
    modify, get, ext_read, ret, raise, result_of, state_of.
  cbn -[Nat.modulo nth List.length existsb].
  destruct (nodes (G (fst s))) as [|n0 l] eqn:Hn;
    cbn -[Nat.modulo nth List.length existsb]; [discriminate|].
  destruct (random_below E _ _) as [r x]. cbn -[Nat.modulo nth List.length existsb].
  rewrite ?Hn.
  destruct (existsb _ _) eqn:Hex; cbn -[Nat.modulo nth List.length existsb];
    [|discriminate].
  intros _. eexists. repeat split.
  eexists. split; [reflexivity|]. apply node_test in Hex. exact Hex.
Qed.

Lemma add_saver_ok i (s : St E) :
  nodes (G (fst s)) <> [] -> is_ok (result_of (add_saver i s)) = true.
Proof.
  intros Hne.
  unfold add_saver, next_id, random_choice, place_agent, schedule_add, bind, on_self,
    modify, get, ext_read, ret, raise, result_of.
  cbn -[Nat.modulo nth List.length existsb].
  destruct (nodes (G (fst s))) as [|n0 l] eqn:Hn; [congruence|].
  destruct (random_below E _ _) as [r x]. cbn -[Nat.modulo nth List.length existsb].
  rewrite ?Hn.
  rewrite (proj2 (node_test _ _) (choice_in_range r (n0 :: l) ltac:(discriminate))).
  reflexivity.
Qed.

(* A loan is created on a node drawn from the graph, which is its bank_id. *)
Lemma add_loan_appends i (s : St E) :
  is_ok (result_of (add_loan i s)) = true ->
  exists a, schedule_agents (fst (state_of (add_loan i s)))
            = schedule_agents (fst s) ++ [a] /\
            (kind a = KLoan /\ exists n, pos a = Some n /\ In n (nodes (G (fst s)))) /\
            G (fst (state_of (add_loan i s))) = G (fst s).
Proof.
  unfold add_loan, next_id, random_choice, place_agent, schedule_add, bind, on_self,
    modify, get, ext_read, ret, raise, result_of, state_of.
  cbn -[Nat.modulo nth List.length existsb].
  destruct (nodes (G (fst s))) as [|n0 l] eqn:Hn;
    cbn -[Nat.modulo nth List.length existsb]; [discriminate|].
  destruct (random_below E _ _) as [r x]. cbn -[Nat.modulo nth List.length existsb].
  rewrite ?Hn.
  destruct (existsb _ _) eqn:Hex; cbn -[Nat.modulo nth List.length existsb];
    [|discriminate].
  intros _. eexists. repeat split.
  eexists. split; [reflexivity|]. apply node_test in Hex. exact Hex.
Qed.

Lemma add_loan_ok i (s : St E) :
  nodes (G (fst s)) <> [] -> is_ok (result_of (add_loan i s)) = true.
Proof.
  intros Hne.
  unfold add_loan, next_id, random_choice, place_agent, schedule_add, bind, on_self,
    modify, get, ext_read, ret, raise, result_of.
  cbn -[Nat.modulo nth List.length existsb].
  destruct (nodes (G (fst s))) as [|n0 l] eqn:Hn; [congruence|].
  destruct (random_below E _ _) as [r x]. cbn -[Nat.modulo nth List.length existsb].
  rewrite ?Hn.
  rewrite (proj2 (node_test _ _) (choice_in_range r (n0 :: l) ltac:(discriminate))).
  reflexivity.
Qed.

(* With no node to draw from, random.choice raises IndexError. *)
Lemma add_saver_no_node i (s : St E) :
  nodes (G (fst s)) = [] -> result_of (add_saver i s) = Raise IndexError.
Proof.
  intros Hn.
  unfold add_saver, next_id, random_choice, bind, on_self, modify, get, ret, raise,
    result_of.
  cbn. rewrite Hn. reflexivity.
Qed.

Lemma add_loan_no_node i (s : St E) :
  nodes (G (fst s)) = [] -> result_of (add_loan i s) = Raise IndexError.
Proof.
  intros Hn.
  unfold add_loan, next_id, random_choice, bind, on_self, modify, get, ret, raise,
    result_of.
  cbn. rewrite Hn. reflexivity.
Qed.

(* A loop whose body appends one agent and leaves the graph alone appends
   one agent per index. *)
Lemma for_each_appends (body : nat -> M (St E) unit)
    (P : Graph -> nat -> Agent (Attrs E) -> Prop) :
  (forall x s, is_ok (result_of (body x s)) = true ->
     exists a, schedule_agents (fst (state_of (body x s)))
               = schedule_agents (fst s) ++ [a] /\
               P (G (fst s)) x a /\
               G (fst (state_of (body x s))) = G (fst s)) ->
  forall l s, is_ok (result_of (for_each l body s)) = true ->
    exists new, schedule_agents (fst (state_of (for_each l body s)))
                = schedule_agents (fst s) ++ new /\
                Forall2 (P (G (fst s))) l new /\
                G (fst (state_of (for_each l body s))) = G (fst s).
Proof.
  intros Hbody l. induction l as [|x l IH]; intros s Hok.
  - exists []. cbn. rewrite app_nil_r. auto.
  - cbn [for_each] in *. apply bind_ok_inv in Hok as ([] & Hx & Hrest & Hst).
    rewrite Hst.
    assert (Hxok : is_ok (result_of (body x s)) = true) by (rewrite Hx; reflexivity).
    destruct (Hbody x s Hxok) as (a & Ha & HP & HG).
    destruct (IH _ Hrest) as (new & Hnew & HF & HG').
    exists (a :: new). rewrite Hnew, Ha, <- app_assoc. repeat split.
    + constructor; [exact HP | rewrite <- HG; exact HF].
    + congruence.
Qed.

Lemma for_each_ok (body : nat -> M (St E) unit) (I : St E -> Prop) (Q : nat -> Prop) :
  (forall x s, I s -> Q x ->
     is_ok (result_of (body x s)) = true /\ I (state_of (body x s))) ->
  forall l s, I s -> Forall Q l -> is_ok (result_of (for_each l body s)) = true.
Proof.
  intros Hbody l. induction l as [|x l IH]; intros s Hs Hl; [reflexivity|].
  inversion Hl as [|? ? Hx Hl']; subst.
  cbn [for_each]. destruct (Hbody x s Hs Hx) as [Hok HI].
  apply bind_ok_intro; [exact Hok | intros _; apply IH; assumption].
Qed.

End Construction_facts.

Section Construction_frames.

Variable E : Externals.

Lemma keeps_add_bank i : keeps (reaches build_mut) (add_bank (E:=E) i).
Proof. unfold add_bank, next_id, place_agent, schedule_add. keeps_tac. Qed.

Lemma keeps_random_choice l : keeps (reaches build_mut) (random_choice (E:=E) l).
Proof. unfold random_choice. keeps_tac. Qed.

Lemma keeps_add_saver i : keeps (reaches build_mut) (add_saver (E:=E) i).
Proof.
  unfold add_saver, next_id, place_agent, schedule_add.
  repeat first [ apply keeps_random_choice | progress keeps_tac ].
Qed.

Lemma keeps_add_loan i : keeps (reaches build_mut) (add_loan (E:=E) i).
Proof.
  unfold add_loan, next_id, place_agent, schedule_add.
  repeat first [ apply keeps_random_choice | progress keeps_tac ].
Qed.

Lemma keeps_ensure_database : keeps (reaches build_mut) (ensure_database (E:=E)).
Proof.
  unfold ensure_database, logger_info. keeps_tac.
  apply keeps_init_database; reflexivity.
Qed.

Lemma keeps_create_agents : keeps (reaches build_mut) (create_agents (E:=E)).
Proof.
  unfold create_agents.
  repeat first
    [ apply keeps_for_each; intro;
      first [ apply keeps_add_bank | apply keeps_add_saver | apply keeps_add_loan ]
    | progress keeps_tac ].
Qed.

Lemma keeps_initialize_market : keeps (reaches build_mut) (initialize_market (E:=E)).
Proof. unfold initialize_market. keeps_tac. Qed.

Lemma keeps_init_body : keeps (reaches build_mut) (init_body (E:=E)).
Proof.
  unfold init_body.
  repeat first
    [ apply keeps_ensure_database | apply keeps_create_agents
    | apply keeps_initialize_market
    | match goal with
      | |- keeps _ (datacollector_collect (E:=_)) =>
          apply keeps_datacollector_collect; reflexivity
      end
    | progress keeps_tac ].
Qed.

(* Where nothing writes to them, the class-level lists stay as they are. *)
Lemma lists_stable allow (s s' : St E) :
  allow MBankRatio = false -> allow MIbLoan = false -> reaches allow s s' ->
  lst_bank_ratio (snd s') = lst_bank_ratio (snd s) /\
  lst_ibloan (snd s') = lst_ibloan (snd s).
Proof.
  intros Hb Hi.
  apply reaches_inv
    with (R := fun a b : St E =>
                 lst_bank_ratio (snd b) = lst_bank_ratio (snd a) /\
                 lst_ibloan (snd b) = lst_ibloan (snd a)).
  - intros a. auto.
  - intros s1 s2 s3 [A1 B1] [A2 B2]. split; congruence.
  - intros k a b Hk Hm. destruct Hm; simpl; auto; congruence.
Qed.

(* The scheduler counter moves only with MSteps. *)
Lemma schedule_steps_stable allow (s s' : St E) :
  allow MSteps = false -> reaches allow s s' ->
  schedule_steps (fst s') = schedule_steps (fst s).
Proof.
  intros Hs.
  apply reaches_inv
    with (R := fun a b : St E => schedule_steps (fst b) = schedule_steps (fst a)).
  - reflexivity.
  - intros s1 s2 s3 H12 H23. congruence.
  - intros k a b Hk Hm. destruct Hm; simpl; auto; congruence.
Qed.

Lemma ensure_database_self (s : St E) :
  fst (state_of (ensure_database s)) = fst s.
Proof.
  unfold ensure_database. rewrite run_bind. cbn [get state_of result_of fst snd].
  destruct (os_path_isfile E (sqlite_db E) (ext (snd s))); [reflexivity|].
  rewrite run_bind. pose proof (init_database_frame E s) as [Hf _].
  unfold state_of in *.
  destruct (init_database s) as [[[[]|e] s1] ev1]; cbn in *; exact Hf.
Qed.

Lemma bind_inv {S A B} (m : M S A) (f : A -> M S B) (s s' : S) b ev :
  bind m f s = (Ok b, s', ev) ->
  exists a s1 ev1 ev2,
    m s = (Ok a, s1, ev1) /\ f a s1 = (Ok b, s', ev2) /\ ev = ev1 ++ ev2.
Proof.
  unfold bind. destruct (m s) as [[[a|e] s1] ev1]; [|discriminate].
  destruct (f a s1) as [[r s2] ev2] eqn:Hf. intros H. injection H as Hr Hs Hev.
  subst. exists a, s1, ev1, ev2. repeat split. exact Hf.
Qed.

Lemma get_inv {S} (s a s1 : S) ev : get s = (Ok a, s1, ev) -> a = s /\ s1 = s.
Proof. unfold get. intros H. injection H as <- <- _. auto. Qed.

(* The three loops leave the banks, then the savers, then the loans. *)
Lemma create_agents_ok (s s' : St E) ev :
  schedule_agents (fst s) = [] ->
  create_agents s = (Ok tt, s', ev) ->
  exists banks savers loans,
    schedule_agents (fst s') = banks ++ savers ++ loans /\
    Forall2 ((bank_at E) (G (fst s))) (py_range (initial_bank (fst s))) banks /\
    Forall2 (placed E KSaver (G (fst s))) (py_range (initial_saver (fst s))) savers /\
    Forall2 (placed E KLoan (G (fst s))) (py_range (initial_loan (fst s))) loans /\
    G (fst s') = G (fst s).
Proof.
  intros Hnil H. unfold create_agents in H.
  apply bind_inv in H as (a0 & t0 & e0 & e0' & H0 & H & _).
  apply get_inv in H0 as [-> ->].
  apply bind_inv in H as ([] & s1 & e1 & e1' & H1 & H & _).
  apply bind_inv in H as (a1 & t1 & e2 & e2' & H1' & H & _).
  apply get_inv in H1' as [-> ->].
  apply bind_inv in H as ([] & s2 & e3 & e3' & H2 & H & _).
  apply bind_inv in H as (a2 & t2 & e4 & e4' & H2' & H3 & _).
  apply get_inv in H2' as [-> ->].
  pose proof (for_each_appends E _ (bank_at E) (add_bank_appends E)
                (py_range (initial_bank (fst s))) s) as A1.
  pose proof (keeps_for_each E build_mut (py_range (initial_bank (fst s))) _
                (keeps_add_bank) s) as K1.
  rewrite H1 in A1, K1. cbn [result_of state_of fst snd is_ok] in A1, K1.
  destruct (A1 eq_refl) as (banks & Hb & Fb & Gb).
  pose proof (for_each_appends E _ (placed E KSaver) (add_saver_appends E)
                (py_range (initial_saver (fst s1))) s1) as A2.
  pose proof (keeps_for_each E build_mut (py_range (initial_saver (fst s1))) _
                (keeps_add_saver) s1) as K2.
  rewrite H2 in A2, K2. cbn [result_of state_of fst snd is_ok] in A2, K2.
  destruct (A2 eq_refl) as (savers & Hs & Fs & Gs).
  pose proof (for_each_appends E _ (placed E KLoan) (add_loan_appends E)
                (py_range (initial_loan (fst s2))) s2) as A3.
  rewrite H3 in A3. cbn [result_of state_of fst snd is_ok] in A3.
  destruct (A3 eq_refl) as (loans & Hl & Fl & Gl).
  destruct (parameters_stable E _ _ _ K1) as (_ & P1 & P1').
  destruct (parameters_stable E _ _ _ K2) as (_ & _ & P2).
  exists banks, savers, loans.
  rewrite Hl, Hs, Hb, Hnil, <- app_assoc. cbn [app].
  rewrite <- P1, <- P1', <- P2, <- Gb, <- Gs at 1.
  repeat split; try assumption.
  - rewrite <- Gb. exact Fs.
  - rewrite <- Gb, <- Gs. exact Fl.
  - congruence.
Qed.

End Construction_frames.

Section Construction_result.

Variable E : Externals.

Lemma keeps_initialize_market_run :
  keeps (reaches run_mut) (initialize_market (E:=E)).
Proof. unfold initialize_market. keeps_tac. Qed.

Lemma init_body_ok (s s' : St E) ev :
  schedule_agents (fst s) = [] ->
  init_body s = (Ok tt, s', ev) ->
  exists banks savers loans,
    map (shape E) (schedule_agents (fst s'))
    = map (shape E) (banks ++ savers ++ loans) /\
    Forall2 (bank_at E (G (fst s))) (py_range (initial_bank (fst s))) banks /\
    Forall2 (placed E KSaver (G (fst s))) (py_range (initial_saver (fst s))) savers /\
    Forall2 (placed E KLoan (G (fst s))) (py_range (initial_loan (fst s))) loans /\
    G (fst s') = G (fst s).
Proof.
  intros Hnil H.
  pose proof (keeps_init_body E s) as Kall.
  rewrite H in Kall. cbn [state_of fst snd] in Kall.
  unfold init_body in H.
  apply bind_inv in H as ([] & s1 & e1 & e1' & H1 & H & _).
  apply bind_inv in H as ([] & s2 & e2 & e2' & H2 & H & _).
  pose proof (ensure_database_self E s) as Hself.
  rewrite H1 in Hself. cbn [state_of fst snd] in Hself.
  assert (Hnil1 : schedule_agents (fst s1) = []) by congruence.
  destruct (create_agents_ok E s1 s2 e2 Hnil1 H2)
    as (banks & savers & loans & Hag & Fb & Fs & Fl & HG).
  match type of H with
  | ?t s2 = _ => assert (K : keeps (reaches run_mut) t)
  end.
  { repeat first
      [ apply keeps_initialize_market_run
      | match goal with
        | |- keeps _ (datacollector_collect (E:=_)) =>
            apply keeps_datacollector_collect; reflexivity
        end
      | progress keeps_tac ]. }
  specialize (K s2). rewrite H in K. cbn [state_of fst snd] in K.
  rewrite Hself in Fb, Fs, Fl.
  exists banks, savers, loans.
  repeat split; try assumption.
  - rewrite (shape_stable E _ _ K), Hag. reflexivity.
  - apply (graph_stable E build_mut); [reflexivity | exact Kall].
Qed.

Lemma BankSim_init_ok height width initial_saver initial_loan initial_bank
    rfree car min_reserves_ratio initial_equity (w w' : World E) m ev :
  BankSim_init height width initial_saver initial_loan initial_bank rfree car
    min_reserves_ratio initial_equity w = (Ok m, w', ev) ->
  init_body (fresh_object E height width initial_saver initial_loan initial_bank
               rfree car min_reserves_ratio initial_equity, w)
  = (Ok tt, (m, w'), ev).
Proof.
  unfold BankSim_init.
  destruct (init_body _) as [[[[]|e] [m1 w1]] ev1]; intros H; [|discriminate].
  cbn in H. injection H as -> -> ->. reflexivity.
Qed.

(* Construction only reads the class-level lists. *)
Lemma BankSim_init_lists height width initial_saver initial_loan initial_bank
    rfree car min_reserves_ratio initial_equity (w : World E) :
  let r := BankSim_init height width initial_saver initial_loan initial_bank rfree car
             min_reserves_ratio initial_equity w in
  lst_bank_ratio (snd (fst r)) = lst_bank_ratio w /\
  lst_ibloan (snd (fst r)) = lst_ibloan w.
Proof.
  cbv zeta. unfold BankSim_init.
  pose proof (keeps_init_body E
                (fresh_object E height width initial_saver initial_loan initial_bank
                   rfree car min_reserves_ratio initial_equity, w)) as K.
  apply (lists_stable E build_mut) in K; [|reflexivity|reflexivity].
  unfold state_of in K.
  destruct (init_body _) as [[[[]|e] [m1 w1]] ev1]; cbn in *; exact K.
Qed.

(** Counting agents by class *)

Lemma count_kind_of_shape k (m : BankSim E) :
  count_kind k m =
  List.length (filter (fun x : nat * AgentKind * option nat => kind_eqb (snd (fst x)) k)
                      (map (shape E) (schedule_agents m))).
Proof.
  unfold count_kind. induction (schedule_agents m) as [|a l IH]; [reflexivity|].
  cbn. destruct (kind_eqb (kind a) k); cbn; congruence.
Qed.

Lemma count_uniform k k' (l : list (Agent (Attrs E))) :
  Forall (fun a => kind a = k) l ->
  List.length (filter (fun x : nat * AgentKind * option nat => kind_eqb (snd (fst x)) k')
                      (map (shape E) l))
  = if kind_eqb k k' then List.length l else 0.
Proof.
  induction 1 as [|a l Ha _ IH]; [destruct (kind_eqb k k'); reflexivity|].
  cbn. rewrite Ha. destruct (kind_eqb k k'); cbn; congruence.
Qed.

Lemma Forall2_right {A B} (P : A -> B -> Prop) (Q : B -> Prop) l l' :
  (forall x y, P x y -> Q y) -> Forall2 P l l' -> Forall Q l'.
Proof. intros HPQ. induction 1; constructor; eauto. Qed.

Lemma Forall2_pick {A B} (P : A -> B -> Prop) l l' x :
  Forall2 P l l' -> In x l -> exists y, In y l' /\ P x y.
Proof.
  induction 1 as [|a b l l' Hab _ IH]; intros Hin; [contradiction|].
  destruct Hin as [->|Hin].
  - exists b. split; [left; reflexivity | exact Hab].
  - destruct (IH Hin) as (y & Hy & HP). exists y. split; [right; exact Hy | exact HP].
Qed.

Lemma in_shape (a : Agent (Attrs E)) l l' :
  map (shape E) l = map (shape E) l' -> In a l ->
  exists a', In a' l' /\ kind a' = kind a /\ pos a' = pos a.
Proof.
  intros Hm Hin. apply (in_map (shape E)) in Hin. rewrite Hm in Hin.
  apply in_map_iff in Hin as (a' & Hs & Hin'). exists a'.
  unfold shape in Hs. injection Hs as _ Hk Hp. auto.
Qed.

End Construction_result.

Section Construction_outcome.

Variable E : Externals.

Lemma bind_ok_step {S A B} (m : M S A) (f : A -> M S B) (s : S) a :
  result_of (m s) = Ok a ->
  is_ok (result_of (f a (state_of (m s)))) = true ->
  is_ok (result_of (bind m f s)) = true.
Proof.
  rewrite run_bind. unfold result_of, state_of.
  destruct (m s) as [[[a'|e] s1] ev1]; cbn; [|discriminate].
  intros H. injection H as ->. auto.
Qed.

Lemma bind_raise {S A B} (m : M S A) (f : A -> M S B) (s : S) e :
  result_of (m s) = Raise e -> result_of (bind m f s) = Raise e.
Proof.
  rewrite run_bind. unfold result_of.
  destruct (m s) as [[[a'|e'] s1] ev1]; cbn; intros H; [discriminate H | injection H as ->; reflexivity].
Qed.

Lemma bind_result {S A B} (m : M S A) (f : A -> M S B) (s : S) a :
  result_of (m s) = Ok a ->
  result_of (bind m f s) = result_of (f a (state_of (m s))).
Proof.
  rewrite run_bind. unfold result_of, state_of.
  destruct (m s) as [[[a'|e'] s1] ev1]; cbn; [|discriminate].
  intros H. injection H as ->. reflexivity.
Qed.

Lemma py_range_empty n : (n <= 0)%Z -> py_range n = [].
Proof. intros H. unfold py_range. replace (Z.to_nat n) with 0 by lia. reflexivity. Qed.

Lemma py_range_first n : (0 < n)%Z -> exists l, py_range n = 0 :: l.
Proof.
  intros H. unfold py_range. destruct (Z.to_nat n) as [|k] eqn:Hk; [lia|].
  eexists. reflexivity.
Qed.

Lemma py_range_length n : (0 <= n)%Z -> Z.of_nat (List.length (py_range n)) = n.
Proof. intros H. unfold py_range. rewrite length_seq. lia. Qed.

Lemma py_range_nonempty n : (1 <= n)%Z -> py_range n <> [].
Proof. intros H. destruct (py_range_first n ltac:(lia)) as [l Hl]. congruence. Qed.

(* On a graph with a node, every pass of the saver loop and of the loan loop
   ends normally. *)
Lemma placement_loops_ok (s : St E) l :
  nodes (G (fst s)) <> [] ->
  is_ok (result_of (for_each l (add_saver (E:=E)) s)) = true /\
  is_ok (result_of (for_each l (add_loan (E:=E)) s)) = true.
Proof.
  intros Hne. split.
  - apply (for_each_ok E _ (fun t : St E => G (fst t) = G (fst s)) (fun _ => True));
      [| reflexivity | apply Forall_forall; auto].
    intros x t Ht _. split.
    + apply add_saver_ok. rewrite Ht. exact Hne.
    + rewrite <- Ht. apply (graph_stable E build_mut); [reflexivity|].
      apply keeps_add_saver.
  - apply (for_each_ok E _ (fun t : St E => G (fst t) = G (fst s)) (fun _ => True));
      [| reflexivity | apply Forall_forall; auto].
    intros x t Ht _. split.
    + apply add_loan_ok. rewrite Ht. exact Hne.
    + rewrite <- Ht. apply (graph_stable E build_mut); [reflexivity|].
      apply keeps_add_loan.
Qed.

Lemma bank_loop_ok (s : St E) :
  is_ok (result_of (for_each (nodes (G (fst s))) (add_bank (E:=E)) s)) = true.
Proof.
  apply (for_each_ok E _ (fun t : St E => G (fst t) = G (fst s))
           (fun x => In x (nodes (G (fst s)))));
    [| reflexivity | apply Forall_forall; auto].
  intros x t Ht Hx. split.
  - apply add_bank_ok. rewrite Ht. exact Hx.
  - rewrite <- Ht. apply (graph_stable E build_mut); [reflexivity|].
    apply keeps_add_bank.
Qed.

Lemma create_agents_succeeds (s : St E) :
  nodes (G (fst s)) = py_range (initial_bank (fst s)) ->
  (1 <= initial_bank (fst s))%Z ->
  is_ok (result_of (create_agents s)) = true.
Proof.
  intros HG Hib. unfold create_agents.
  apply bind_ok_step with (a := s); [reflexivity|]. cbn [get state_of fst snd].
  pose proof (bank_loop_ok s) as Hb. rewrite HG in Hb.
  pose proof (keeps_for_each E build_mut (py_range (initial_bank (fst s))) _
                (keeps_add_bank E) s) as K1.
  apply (graph_stable E build_mut) in K1; [|reflexivity].
  destruct (result_of (for_each (py_range (initial_bank (fst s))) (add_bank (E:=E)) s))
    as [[]|e] eqn:Hr; [|discriminate].
  apply bind_ok_step with (a := tt); [exact Hr|].
  set (s1 := state_of (for_each (py_range (initial_bank (fst s))) (add_bank (E:=E)) s))
    in *.
  assert (Hne1 : nodes (G (fst s1)) <> []).
  { rewrite K1, HG. apply py_range_nonempty. exact Hib. }
  apply bind_ok_step with (a := s1); [reflexivity|]. cbn [get state_of fst snd].
  destruct (placement_loops_ok s1 (py_range (initial_saver (fst s1))) Hne1) as [Hs _].
  pose proof (keeps_for_each E build_mut (py_range (initial_saver (fst s1))) _
                (keeps_add_saver E) s1) as K2.
  apply (graph_stable E build_mut) in K2; [|reflexivity].
  destruct (result_of (for_each (py_range (initial_saver (fst s1))) (add_saver (E:=E)) s1))
    as [[]|e] eqn:Hr2; [|discriminate].
  apply bind_ok_step with (a := tt); [exact Hr2|].
  set (s2 := state_of (for_each (py_range (initial_saver (fst s1))) (add_saver (E:=E)) s1))
    in *.
  apply bind_ok_step with (a := s2); [reflexivity|]. cbn [get state_of fst snd].
  apply placement_loops_ok. rewrite K2. exact Hne1.
Qed.

(* Without a node the first pass of the saver loop, or else of the loan
   loop, raises IndexError. *)
Lemma create_agents_no_node (s : St E) :
  nodes (G (fst s)) = [] ->
  (initial_bank (fst s) <= 0)%Z ->
  (0 < initial_saver (fst s) \/ 0 < initial_loan (fst s))%Z ->
  result_of (create_agents s) = Raise IndexError.
Proof.
  intros HG Hib Hsl. unfold create_agents.
  rewrite (bind_result _ _ s s) by reflexivity. cbn [get state_of fst snd].
  rewrite (py_range_empty _ Hib). cbn [for_each].
  rewrite (bind_result _ _ s tt) by reflexivity. cbn [ret state_of fst snd].
  rewrite (bind_result _ _ s s) by reflexivity. cbn [get state_of fst snd].
  destruct (Z_lt_le_dec 0 (initial_saver (fst s))) as [Hs|Hs].
  - destruct (py_range_first _ Hs) as [l ->]. cbn [for_each].
    apply bind_raise, bind_raise, add_saver_no_node, HG.
  - rewrite (py_range_empty _ Hs). cbn [for_each].
    rewrite (bind_result _ _ s tt) by reflexivity. cbn [ret state_of fst snd].
    rewrite (bind_result _ _ s s) by reflexivity. cbn [get state_of fst snd].
    destruct (py_range_first (initial_loan (fst s)) ltac:(lia)) as [l ->].
    cbn [for_each]. apply bind_raise, add_loan_no_node, HG.
Qed.

End Construction_outcome.

(** * The claims of the specification *)

(** ** C1: the run record *)

Lemma count_events_le (p q : Event -> bool) (l : list Event) :
  (forall e, p e = true -> q e = true) -> count_events p l <= count_events q l.
Proof.
  intros Hpq. unfold count_events. induction l as [|e l IH]; [apply Nat.le_refl|].
  cbn. destruct (p e) eqn:Hp.
  - rewrite (Hpq e Hp). cbn. lia.
  - destruct (q e); cbn; lia.
Qed.

Lemma connect_is_first_block e : is_connect e = true -> is_first_block_event e = true.
Proof. unfold is_first_block_event. intros ->. reflexivity. Qed.

Lemma mint_is_first_block e : is_mint e = true -> is_first_block_event e = true.
Proof. unfold is_first_block_event. intros ->. apply orb_true_iff. left. apply orb_true_r. Qed.

Lemma insert_is_first_block e :
  is_insert_simulation e = true -> is_first_block_event e = true.
Proof. unfold is_first_block_event. intros ->. apply orb_true_r. Qed.

Lemma body_not_connect e : is_body_event e = true -> is_connect e = false.
Proof. destruct e; intros H; try reflexivity; discriminate H. Qed.

Lemma body_not_mint e : is_body_event e = true -> is_mint e = false.
Proof. destruct e; intros H; try reflexivity; discriminate H. Qed.

Lemma body_not_insert e : is_body_event e = true -> is_insert_simulation e = false.
Proof. destruct e; intros H; try reflexivity; discriminate H. Qed.

(* A first call that ends normally ran the whole block, then the body. *)
Lemma first_step_ok_events (E : Externals) (s : St E) :
  schedule_steps (fst s) = 0 ->
  is_ok (result_of (step s)) = true ->
  exists h c id ts body,
    events_of (step s) =
      EvStepBegin :: EvConnect h :: EvCursor c :: EvMintSimid id
      :: EvInsertSimulation (Some c) (id, "test"%string, ts) :: body /\
    forallb is_body_event body = true.
Proof.
  intros H0 Hok. rewrite step_run in *. rewrite H0 in *. cbn [Nat.eqb] in *.
  pose proof (first_step_block_run E s) as Hrun. cbv zeta in Hrun.
  destruct (fst (sqlite3_connect E (sqlite_db E) (ext (snd s)))).
  - rewrite Hrun in Hok. discriminate Hok.
  - destruct Hrun as (id & r & s' & _ & Hrun & _). rewrite Hrun in *.
    destruct r as [[]|e]; [|discriminate Hok].
    cbn [events_of snd app]. eexists _, _, _, _, _. split; [reflexivity|].
    apply step_body_events.
Qed.

(** C1, the claim as stated fails: on the small outside where the first call
    of main_evaluate_solvency raises, the first step() of run_model(2)
    raises before the scheduler has advanced, the loop contains the error,
    and the second step() opens a connection, mints a run id and inserts a
    run record again: two of each in one run. *)
Lemma run_record_inserted_again_after_failed_first_step :
  is_ok (result_of (toy_construct flaky 1 0 0)) = true /\
  schedule_steps (fst (toy_built flaky 1 0 0)) = 0 /\
  result_of (step (toy_built flaky 1 0 0)) = Raise (ExtError 1) /\
  count_events is_connect (events_of (run_model 2 (toy_built flaky 1 0 0))) = 2 /\
  count_events is_mint (events_of (run_model 2 (toy_built flaky 1 0 0))) = 2 /\
  count_events is_insert_simulation
    (events_of (run_model 2 (toy_built flaky 1 0 0))) = 2.
Proof. repeat split; vm_compute; reflexivity. Qed.

(** C1, amended. The block that opens the connection, mints the run id and
    inserts the run record is guarded by the scheduler's step counter being
    0, and the counter moves only when a step reaches the scheduler.  So in
    a run_model of at least one step on a model whose counter is 0, if the
    first step() ends normally then the whole run opens one connection,
    mints one run id and inserts one run record, all three in that first
    step() before any pipeline stage, and none later, also when later steps
    raise errors that the loop contains; and from any state the program
    reaches after that first step(), a call of step() performs none of the
    three. *)
Theorem run_record_inserted_once (E : Externals) (step_count : Z) (s : St E) :
  schedule_steps (fst s) = 0 ->
  (1 <= step_count)%Z ->
  is_ok (result_of (step s)) = true ->
  let evs := events_of (run_model step_count s) in
  count_events is_connect evs = 1 /\
  count_events is_mint evs = 1 /\
  count_events is_insert_simulation evs = 1 /\
  (exists h c id ts body later,
     events_of (step s) =
       EvStepBegin :: EvConnect h :: EvCursor c :: EvMintSimid id
       :: EvInsertSimulation (Some c) (id, "test"%string, ts) :: body /\
     forallb is_body_event body = true /\
     evs = progress_report step_count 0 s ++ events_of (step s) ++ later /\
     count_events is_first_block_event later = 0) /\
  (forall t : St E, reaches run_mut (state_of (step s)) t ->
     count_events is_first_block_event (events_of (step t)) = 0).
Proof.
  intros H0 Hn Hok. cbv zeta.
  destruct (first_step_ok_events E s H0 Hok) as (h & c & id & ts & body & Hev & Hbody).
  pose proof (step_ok_advances E s Hok) as Hadv.
  assert (Hlater : exists later,
            events_of (run_model step_count s)
            = progress_report step_count 0 s ++ events_of (step s) ++ later /\
            count_events is_first_block_event later = 0).
  { rewrite run_model_run. cbn [events_of snd].
    destruct (py_range_first step_count ltac:(lia)) as [l ->].
    rewrite run_loop_cons, run_iteration_run.
    destruct (result_of (step s)) as [[]|e] eqn:Hr; [|discriminate Hok].
    cbn [traceback_log app events_of snd].
    destruct (count_solvent (fst (state_of (step s))) =? 0) eqn:Hz.
    - exists (bankrupt_log (state_of (step s))). cbn [events_of snd].
      split; [reflexivity|]. apply count_bankrupt_log. reflexivity.
    - exists (bankrupt_log (state_of (step s))
              ++ events_of (run_loop step_count l (state_of (step s)))).
      cbn [events_of snd]. split; [rewrite <- !app_assoc; reflexivity|].
      rewrite count_events_app, count_bankrupt_log by reflexivity.
      rewrite run_loop_later_no_first_block by exact Hadv. reflexivity. }
  destruct Hlater as (later & Hevs & Hnone).
  assert (Hcount : forall p,
            (forall e, p e = true -> is_first_block_event e = true) ->
            (forall e, is_body_event e = true -> p e = false) ->
            (forall j n, p (EvPrint j n) = false) ->
            p EvStepBegin = false ->
            count_events p (events_of (run_model step_count s))
            = count_events p [EvConnect h; EvCursor c; EvMintSimid id;
                              EvInsertSimulation (Some c) (id, "test"%string, ts)]).
  { intros p Hfb Hnb Hpr Hsb. rewrite Hevs, Hev.
    change (EvStepBegin :: EvConnect h :: EvCursor c :: EvMintSimid id
            :: EvInsertSimulation (Some c) (id, "test"%string, ts) :: body)
      with ([EvStepBegin] ++ [EvConnect h; EvCursor c; EvMintSimid id;
               EvInsertSimulation (Some c) (id, "test"%string, ts)] ++ body).
    rewrite !count_events_app, (count_progress_report E p _ _ _ Hpr).
    rewrite (count_events_none p _ body Hnb Hbody).
    pose proof (count_events_le p is_first_block_event later Hfb) as Hle.
    unfold count_events at 1. cbn [filter]. rewrite Hsb. cbn [List.length]. lia. }
  split; [rewrite (Hcount is_connect connect_is_first_block body_not_connect);
          reflexivity|].
  split; [rewrite (Hcount is_mint mint_is_first_block body_not_mint); reflexivity|].
  split; [rewrite (Hcount is_insert_simulation insert_is_first_block body_not_insert);
          reflexivity|].
  split.
  - exists h, c, id, ts, body, later. auto.
  - intros t Ht. apply step_later_no_first_block.
    eapply steps_stay_positive; [exact Ht | exact Hadv].
Qed.

(* C1 at work: nothing raises in the first step, the first call of
   main_evaluate_solvency in a later step is not the one that raises. *)
Lemma run_record_inserted_once_witness :
  is_ok (result_of (toy_construct calm 2 1 1)) = true /\
  count_events is_connect (events_of (run_model 12 (toy_built calm 2 1 1))) = 1 /\
  count_events is_mint (events_of (run_model 12 (toy_built calm 2 1 1))) = 1 /\
  count_events is_insert_simulation
    (events_of (run_model 12 (toy_built calm 2 1 1))) = 1.
Proof.
  split; [vm_compute; reflexivity|].
  destruct (run_record_inserted_once (toy calm) 12 (toy_built calm 2 1 1)
              ltac:(vm_compute; reflexivity) ltac:(lia)
              ltac:(vm_compute; reflexivity)) as (Hc & Hm & Hi & _).
  split; [exact Hc | split; [exact Hm | exact Hi]].
Defined.

(** ** C2: errors of a step are contained *)

(** C2, the claim as stated fails: on the small outside where
    main_evaluate_solvency marks the one bank insolvent and
    main_second_round_effects then raises, run_model(3) catches and logs the
    error of step 0 and returns normally, but it does not go on to
    iteration 1: step() was entered once. *)
Lemma loop_stops_after_contained_error :
  is_ok (result_of (toy_construct doomed 1 0 0)) = true /\
  result_of (step (toy_built doomed 1 0 0)) = Raise (ExtError 2) /\
  In (EvLog (LogTraceback (ExtError 2)))
     (events_of (run_model 3 (toy_built doomed 1 0 0))) /\
  is_ok (result_of (run_model 3 (toy_built doomed 1 0 0))) = true /\
  count_events is_step_begin (events_of (run_model 3 (toy_built doomed 1 0 0))) = 1.
Proof.
  split; [vm_compute; reflexivity|].
  split; [vm_compute; reflexivity|].
  split; [vm_compute; tauto|].
  split; vm_compute; reflexivity.
Qed.

(** C2, amended. When step() raises in iteration i, the run loop catches the
    error and logs its traceback, and then does what it does after any
    step: if no solvent bank is left it logs the notice and stops, otherwise
    it goes on with the next index, from the state the failed step left.
    Whatever the steps do, run_model itself ends normally. *)
Theorem step_errors_are_contained (E : Externals) (step_count : Z) (i : nat)
    (rest : list nat) (s : St E) (e : Exn) :
  result_of (step s) = Raise e ->
  let s1 := state_of (step s) in
  let logged := progress_report step_count i s ++ events_of (step s)
                ++ [EvLog (LogTraceback e)] in
  run_loop step_count (i :: rest) s =
    (if count_solvent (fst s1) =? 0
     then (Ok true, s1, logged ++ [EvLog all_bankrupt_notice])
     else (result_of (run_loop step_count rest s1),
           state_of (run_loop step_count rest s1),
           logged ++ events_of (run_loop step_count rest s1))) /\
  (forall n (t : St E), is_ok (result_of (run_model n t)) = true).
Proof.
  intros He. cbv zeta. split.
  - rewrite run_loop_cons, run_iteration_run, He. unfold bankrupt_log.
    cbn [events_of snd traceback_log].
    destruct (count_solvent (fst (state_of (step s))) =? 0).
    + rewrite <- !app_assoc. reflexivity.
    + rewrite app_nil_r, <- !app_assoc. reflexivity.
  - intros n t. rewrite run_model_run. reflexivity.
Qed.

(* C2 at work: the first call of main_evaluate_solvency raises, the bank
   stays solvent, and the loop goes on to iteration 1. *)
Lemma step_errors_are_contained_witness :
  is_ok (result_of (toy_construct flaky 1 0 0)) = true /\
  result_of (step (toy_built flaky 1 0 0)) = Raise (ExtError 1) /\
  count_events is_step_begin
    (events_of (run_loop 2 [0; 1] (toy_built flaky 1 0 0))) = 2 /\
  is_ok (result_of (run_model 2 (toy_built flaky 1 0 0))) = true.
Proof.
  split; [vm_compute; reflexivity|].
  split; [vm_compute; reflexivity|].
  destruct (step_errors_are_contained (toy flaky) 2 0 [1] (toy_built flaky 1 0 0)
              (ExtError 1) ltac:(vm_compute; reflexivity)) as [Hloop Htotal].
  split; [rewrite Hloop; vm_compute; reflexivity | apply Htotal].
Defined.

(** ** C3: the run stops when no solvent bank is left *)

(** C3, the claim as stated fails: on the small outside where
    main_evaluate_solvency marks the one bank insolvent, run_model(1) logs
    the notice once after its only iteration, and the number of steps
    executed is 1, which is step_count and not fewer. *)
Lemma all_bankrupt_after_last_iteration :
  is_ok (result_of (toy_construct collapse 1 0 0)) = true /\
  count_solvent (fst (state_of (step (toy_built collapse 1 0 0)))) = 0 /\
  count_events is_notice (events_of (run_model 1 (toy_built collapse 1 0 0))) = 1 /\
  count_events is_step_begin (events_of (run_model 1 (toy_built collapse 1 0 0)))
  = Z.to_nat 1.
Proof. repeat split; vm_compute; reflexivity. Qed.

Lemma py_range_split (n : Z) (i : nat) :
  i < Z.to_nat n ->
  py_range n = seq 0 i ++ i :: seq (S i) (Z.to_nat n - S i).
Proof.
  intros H. unfold py_range.
  replace (Z.to_nat n) with (i + S (Z.to_nat n - S i)) at 1 by lia.
  rewrite seq_app. reflexivity.
Qed.

(** C3, amended. When iterations 0 .. i-1 of run_model(step_count) went by
    without break and no solvent bank is left after the step of iteration i,
    the run loop logs the notice, once in the whole run and as its last
    operation, and executes no further step: run_model returns in the state
    that step left, with i + 1 steps executed.  That is fewer than
    step_count unless i is the last index. *)
Theorem all_bankrupt_stops_the_run (E : Externals) (step_count : Z) (i : nat)
    (s s_i : St E) (ev_i : list Event) :
  i < Z.to_nat step_count ->
  run_loop step_count (seq 0 i) s = (Ok false, s_i, ev_i) ->
  count_solvent (fst (state_of (step s_i))) = 0 ->
  let r := run_model step_count s in
  is_ok (result_of r) = true /\
  state_of r = state_of (step s_i) /\
  (exists before, events_of r = before ++ [EvLog all_bankrupt_notice]) /\
  count_events is_notice (events_of r) = 1 /\
  count_events is_step_begin (events_of r) = i + 1 /\
  i + 1 <= Z.to_nat step_count /\
  (S i <> Z.to_nat step_count ->
   count_events is_step_begin (events_of r) < Z.to_nat step_count).
Proof.
  intros Hi Hloop Hzero. cbv zeta.
  rewrite run_model_run.
  rewrite (py_range_split step_count i Hi), run_loop_app, Hloop, run_loop_cons.
  apply Nat.eqb_eq in Hzero. rewrite Hzero.
  destruct (run_loop_no_break E step_count (seq 0 i) s s_i ev_i Hloop) as [Hb Hn].
  destruct (iteration_counts E step_count i s_i) as (Ib & In_ & _).
  rewrite length_seq in Hb.
  unfold bankrupt_log in In_. rewrite Hzero in In_. cbn [List.length] in In_.
  assert (Hlast : exists before,
             events_of (run_iteration step_count i s_i)
             = before ++ [EvLog all_bankrupt_notice]).
  { rewrite run_iteration_run. cbn [events_of snd]. unfold bankrupt_log.
    rewrite Hzero. eexists. rewrite !app_assoc. reflexivity. }
  remember (events_of (run_iteration step_count i s_i)) as evI eqn:HevI.
  cbn [result_of state_of events_of fst snd is_ok].
  rewrite !count_events_app, Hb, Hn, Ib, In_.
  repeat split; try lia.
  destruct Hlast as [before ->]. exists (ev_i ++ before).
  rewrite app_assoc. reflexivity.
Qed.

(* C3 at work: two banks, all insolvent after the first of twenty steps. *)
Lemma all_bankrupt_stops_the_run_witness :
  is_ok (result_of (toy_construct collapse 2 1 1)) = true /\
  count_events is_notice (events_of (run_model 20 (toy_built collapse 2 1 1))) = 1 /\
  count_events is_step_begin (events_of (run_model 20 (toy_built collapse 2 1 1))) = 1.
Proof.
  split; [vm_compute; reflexivity|].
  destruct (all_bankrupt_stops_the_run (toy collapse) 20 0
              (toy_built collapse 2 1 1) (toy_built collapse 2 1 1) []
              ltac:(vm_compute; lia) eq_refl ltac:(vm_compute; reflexivity))
    as (_ & _ & _ & Hn & Hb & _).
  split; [exact Hn | exact Hb].
Defined.

(** ** C4: the run id *)

(** C4, the claim as stated fails: in a process whose local clock reads
    21:00:00 on 2024-03-05 while the UTC clock reads 12:00:00, the first
    step() mints the run id 20240305210000, the reading of the local clock;
    the UTC reading 20240305120000 is not the id, though the record's
    creation timestamp is the UTC time. *)
Lemma run_id_reads_the_local_clock :
  is_ok (result_of (toy_construct abroad 1 0 0)) = true /\
  simid (fst (state_of (step (toy_built abroad 1 0 0)))) = Some 20240305210000%Z /\
  encode_YmdHMS noon_utc = 20240305120000%Z /\
  In (EvInsertSimulation (Some 1) (20240305210000%Z, "test"%string, noon_utc))
     (events_of (step (toy_built abroad 1 0 0))).
Proof.
  split; [vm_compute; reflexivity|].
  split; [vm_compute; reflexivity|].
  split; [reflexivity|].
  vm_compute. tauto.
Qed.

(** C4, amended. On the first step() call, when the connection opens, the
    run id is the integer whose decimal writing is YYYYMMDDHHMMSS of the
    naive local time that datetime.now() returns; it is stored as simid and
    inserted in the run record with the label "test" and, as creation
    timestamp, the UTC time that datetime.now(timezone.utc) returns. *)
Theorem run_id_is_local_time (E : Externals) (s : St E) :
  let c := sqlite3_connect E (sqlite_db E) (ext (snd s)) in
  let local := datetime_now E (snd c) in
  let utc := datetime_now_utc E (snd local) in
  schedule_steps (fst s) = 0 ->
  fst c = None ->
  valid_datetime (fst local) ->
  simid (fst (state_of (step s))) = Some (encode_YmdHMS (fst local)) /\
  In (EvMintSimid (encode_YmdHMS (fst local))) (events_of (step s)) /\
  In (EvInsertSimulation (db_cursor (fst (state_of (step s))))
        (encode_YmdHMS (fst local), "test"%string, fst utc))
     (events_of (step s)).
Proof.
  cbv zeta. intros H0 Hc Hvalid.
  rewrite step_run, H0. cbn [Nat.eqb].
  pose proof (first_step_block_run E s) as Hrun. cbv zeta in Hrun.
  rewrite Hc in Hrun.
  destruct Hrun as (id & r & s' & Hid & Hrun & Hsimid & _ & Hcur & _).
  rewrite (int_of_strftime _ Hvalid) in Hid. injection Hid as <-.
  rewrite Hrun.
  destruct r as [[]|e]; cbn [state_of events_of fst snd].
  - destruct (db_stable E _ _ (keeps_step_body E s')) as (_ & Hcur' & Hsimid').
    rewrite Hsimid', Hcur', Hsimid, Hcur.
    split; [reflexivity|]. split; cbn; tauto.
  - rewrite Hsimid, Hcur. split; [reflexivity|]. split; cbn; tauto.
Qed.

(* C4 at work, nine hours ahead of UTC. *)
Lemma run_id_is_local_time_witness :
  simid (fst (state_of (step (toy_built abroad 1 0 0))))
  = Some (encode_YmdHMS nine_pm_local) /\
  In (EvMintSimid (encode_YmdHMS nine_pm_local))
     (events_of (step (toy_built abroad 1 0 0))).
Proof.
  destruct (run_id_is_local_time (toy abroad) (toy_built abroad 1 0 0)
              ltac:(vm_compute; reflexivity) ltac:(vm_compute; reflexivity)
              ltac:(vm_compute; intuition discriminate)) as (Hs & Hm & _).
  split; [exact Hs | exact Hm].
Defined.

(** ** C5: schema initialisation releases what it acquired *)

(** C5. Whatever happens in init_database (the script runs, or
    sqlite3.connect, open, read, executescript or commit raises), every
    connection and every cursor the call obtained is closed by the time
    it returns or raises: it is no longer among the open handles, and the
    close is among the operations performed. *)
Theorem init_database_releases_handles (E : Externals) (s : St E) :
  let r := init_database s in
  (forall h, In (EvConnect h) (events_of r) ->
     ~ In h (open_conns (snd (state_of r))) /\ In (EvCloseConn h) (events_of r)) /\
  (forall c, In (EvCursor c) (events_of r) ->
     ~ In c (open_cursors (snd (state_of r))) /\ In (EvCloseCursor c) (events_of r)).
Proof.
  cbv zeta. pose proof (init_database_run E s) as H. cbv zeta in H.
  destruct (fst (sqlite3_connect E (sqlite_db E) (ext (snd s)))).
  - rewrite H. split; intros x [].
  - destruct H as (r & x & mid & H & _ & Hmid). rewrite H.
    unfold events_of, state_of. cbn [fst snd open_conns open_cursors set_handles].
    rewrite forallb_forall in Hmid.
    split; intros y Hy.
    + assert (y = next_handle (snd s)) as ->.
      { cbn in Hy. destruct Hy as [Hy|[Hy|Hy]]; [congruence | discriminate |].
        apply in_app_or in Hy as [Hy|Hy].
        - apply Hmid in Hy. discriminate.
        - cbn in Hy. destruct Hy as [Hy|[Hy|[]]]; discriminate. }
      split; [apply remove_In|].
      cbn. right. right. apply in_or_app. right. cbn. auto.
    + assert (y = S (next_handle (snd s))) as ->.
      { cbn in Hy. destruct Hy as [Hy|[Hy|Hy]]; [discriminate | congruence |].
        apply in_app_or in Hy as [Hy|Hy].
        - apply Hmid in Hy. discriminate.
        - cbn in Hy. destruct Hy as [Hy|[Hy|[]]]; discriminate. }
      split; [apply remove_In|].
      cbn. right. right. apply in_or_app. right. cbn. auto.
Qed.

(* C5 at work, on a first launch where the script runs. *)
Lemma init_database_releases_handles_witness :
  let r := init_database (E:=toy first_launch)
             (fresh_object (toy first_launch) 20 20 0 0 1 0%Z 0%Z 0%Z 100%Z,
              start_world first_launch) in
  ~ In 0 (open_conns (snd (state_of r))) /\ In (EvCloseConn 0) (events_of r).
Proof.
  cbv zeta.
  destruct (init_database_releases_handles (toy first_launch)
              (fresh_object (toy first_launch) 20 20 0 0 1 0%Z 0%Z 0%Z 100%Z,
               start_world first_launch)) as [H _].
  apply H. vm_compute. tauto.
Defined.

(* The two ends of C5 on the small outside: a first launch where the script
   runs, and one where sqlite3.connect raises and nothing is acquired. *)
Example init_database_first_launch :
  events_of (init_database (E:=toy first_launch)
               (fresh_object (toy first_launch) 20 20 0 0 1 0%Z 0%Z 0%Z 100%Z,
                start_world first_launch))
  = [EvConnect 0; EvCursor 1; EvOpenScript; EvExecuteScript; EvCommit 0;
     EvCloseCursor 1; EvCloseConn 0].
Proof. reflexivity. Qed.

Example init_database_connect_raises :
  init_database (E:=toy unreachable_db)
    (fresh_object (toy unreachable_db) 20 20 0 0 1 0%Z 0%Z 0%Z 100%Z,
     start_world unreachable_db)
  = (Raise (UnboundLocalError "db_cursor"),
     (fresh_object (toy unreachable_db) 20 20 0 0 1 0%Z 0%Z 0%Z 100%Z,
      start_world unreachable_db), []).
Proof. reflexivity. Qed.

(** ** C6: the order of the operations of a step *)



Section Step_refines.

Variable E : Externals.












End Step_refines.


(** ** C7: the construction invariant *)

(** C7. For non-negative initial_bank, initial_saver and initial_loan
    (nb, ns and nl below), the object that BankSim(...) returns has a graph of exactly initial_bank
    nodes (0 .. initial_bank-1) and no edge, and its scheduler holds exactly
    initial_bank Bank agents, initial_saver Saver agents and initial_loan
    Loan agents and nothing else; every Saver and every Loan is placed on a
    node of the graph, and a Bank is placed on that node. *)
Theorem construction_invariant (E : Externals)
    (height width ns nl nb : Z)
    (rfree car min_reserves_ratio initial_equity : num E)
    (w w' : World E) (m : BankSim E) (ev : list Event) :
  (0 <= nb)%Z -> (0 <= ns)%Z -> (0 <= nl)%Z ->
  BankSim_init height width ns nl nb rfree car
    min_reserves_ratio initial_equity w = (Ok m, w', ev) ->
  nodes (G m) = py_range nb /\
  Z.of_nat (List.length (nodes (G m))) = nb /\
  edges (G m) = [] /\
  Z.of_nat (count_kind KBank m) = nb /\
  Z.of_nat (count_kind KSaver m) = ns /\
  Z.of_nat (count_kind KLoan m) = nl /\
  Z.of_nat (List.length (schedule_agents m))
  = (nb + ns + nl)%Z /\
  (forall a, In a (schedule_agents m) -> kind a <> KBank ->
     exists n b, pos a = Some n /\ In n (nodes (G m)) /\
                 In b (schedule_agents m) /\ kind b = KBank /\ pos b = Some n).
Proof.
  intros Hb Hs Hl Hinit. apply BankSim_init_ok in Hinit.
  destruct (init_body_ok E (fresh_object E height width ns nl
                               nb rfree car min_reserves_ratio
                               initial_equity, w) _ _ eq_refl Hinit)
    as (banks & savers & loans & Hshape & Fb & Fs & Fl & HG).
  cbn [fst snd fresh_object G initial_bank initial_saver initial_loan] in *.
  assert (Kb : Forall (fun a : Agent (Attrs E) => kind a = KBank) banks).
  { eapply Forall2_right; [|exact Fb]. intros x y [Hk _]. exact Hk. }
  assert (Ks : Forall (fun a : Agent (Attrs E) => kind a = KSaver) savers).
  { eapply Forall2_right; [|exact Fs]. intros x y [Hk _]. exact Hk. }
  assert (Kl : Forall (fun a : Agent (Attrs E) => kind a = KLoan) loans).
  { eapply Forall2_right; [|exact Fl]. intros x y [Hk _]. exact Hk. }
  pose proof (Forall2_length Fb) as Lb.
  pose proof (Forall2_length Fs) as Ls.
  pose proof (Forall2_length Fl) as Ll.
  pose proof (py_range_length _ Hb) as Rb.
  pose proof (py_range_length _ Hs) as Rs.
  pose proof (py_range_length _ Hl) as Rl.
  assert (Hcount : forall k,
            count_kind k m
            = (if kind_eqb KBank k then List.length banks else 0)
              + (if kind_eqb KSaver k then List.length savers else 0)
              + (if kind_eqb KLoan k then List.length loans else 0)).
  { intros k. rewrite count_kind_of_shape, Hshape, !map_app, !filter_app, !length_app.
    rewrite (count_uniform E _ k banks Kb), (count_uniform E _ k savers Ks),
      (count_uniform E _ k loans Kl). lia. }
  rewrite HG. cbn [empty_graph nodes edges].
  split; [reflexivity|]. split; [exact Rb|]. split; [reflexivity|].
  split; [rewrite Hcount; cbn; lia|].
  split; [rewrite Hcount; cbn; lia|].
  split; [rewrite Hcount; cbn; lia|].
  split.
  - rewrite <- (length_map (shape E)), Hshape, length_map, !length_app. lia.
  - intros a Ha Hnb.
    destruct (in_shape E a _ _ Hshape Ha) as (a' & Ha' & Hk & Hp).
    assert (Hplaced : exists n, pos a' = Some n /\ In n (py_range nb)).
    { apply in_app_or in Ha' as [Ha'|Ha'].
      - rewrite Forall_forall in Kb. specialize (Kb a' Ha'). congruence.
      - apply in_app_or in Ha' as [Ha'|Ha'].
        + assert (Hq : Forall (fun y : Agent (Attrs E) =>
                    exists n, pos y = Some n /\ In n (py_range nb)) savers).
          { eapply Forall2_right; [|exact Fs]. intros x y [_ Hy]. exact Hy. }
          rewrite Forall_forall in Hq. exact (Hq a' Ha').
        + assert (Hq : Forall (fun y : Agent (Attrs E) =>
                    exists n, pos y = Some n /\ In n (py_range nb)) loans).
          { eapply Forall2_right; [|exact Fl]. intros x y [_ Hy]. exact Hy. }
          rewrite Forall_forall in Hq. exact (Hq a' Ha'). }
    destruct Hplaced as (n & Hpos & Hn).
    destruct (Forall2_pick _ _ _ n Fb Hn) as (b & Hbin & Hbk & Hbp).
    assert (Hb' : In b (banks ++ savers ++ loans)) by (apply in_or_app; left; exact Hbin).
    destruct (in_shape E b _ _ (eq_sym Hshape) Hb') as (b' & Hb'in & Hb'k & Hb'p).
    exists n, b'. repeat split; congruence.
Qed.

(* C7 at work: three banks, four savers, five loans. *)
Lemma construction_invariant_witness :
  Z.of_nat (count_kind KBank (fst (toy_built calm 3 4 5))) = 3%Z /\
  Z.of_nat (count_kind KSaver (fst (toy_built calm 3 4 5))) = 4%Z /\
  Z.of_nat (count_kind KLoan (fst (toy_built calm 3 4 5))) = 5%Z /\
  edges (G (fst (toy_built calm 3 4 5))) = [].
Proof.
  destruct (construction_invariant (toy calm) 20 20 4 5 3 0%Z 0%Z 0%Z 100%Z
              (start_world calm) (snd (toy_built calm 3 4 5))
              (fst (toy_built calm 3 4 5))
              (events_of (toy_construct calm 3 4 5))
              ltac:(lia) ltac:(lia) ltac:(lia) ltac:(vm_compute; reflexivity))
    as (_ & _ & He & Hb & Hs & Hl & _).
  repeat split; assumption.
Defined.

(** ** C8: what run_model returns *)

(** C8. For every step_count and every start state, run_model returns the
    pair that convert_result2dataframe makes of the two accumulated lists
    as they are when the loop is left; this holds whether the loop ran all
    its iterations or was left by break, and whether or not steps raised.
    The lists at that point are the lists at the start with the records of
    this run appended. *)
Theorem run_model_returns_converted_lists (E : Externals) (step_count : Z) (s : St E) :
  let r := run_model step_count s in
  let loop := run_loop step_count (py_range step_count) s in
  result_of r =
    Ok (convert_result2dataframe E (lst_bank_ratio (snd (state_of r)))
                                   (lst_ibloan (snd (state_of r)))) /\
  state_of r = state_of loop /\
  (result_of loop = Ok true \/ result_of loop = Ok false) /\
  (exists x, lst_bank_ratio (snd (state_of r)) = lst_bank_ratio (snd s) ++ x) /\
  (exists y, lst_ibloan (snd (state_of r)) = lst_ibloan (snd s) ++ y).
Proof.
  cbv zeta. rewrite run_model_run. cbn [result_of state_of fst snd].
  split; [reflexivity|]. split; [reflexivity|]. split.
  - destruct (run_loop_total E step_count (py_range step_count) s) as [[|] Hb]; auto.
  - apply (lists_grow E run_mut), keeps_run_loop.
Qed.

(** ** C9: the result lists belong to the class *)

(** C9. lst_bank_ratio and lst_ibloan are attributes of the class, shared by
    every BankSim object of the process.  The steps of a first object only
    append to them; constructing a second object leaves them as they are,
    records of the first object included; and what run_model of the second
    object returns is the conversion of lists that begin with all the
    records the first object left. *)
Theorem result_lists_are_shared (E : Externals) (first : St E) (n1 : Z)
    (height width ns nl nb : Z)
    (rfree car min_reserves_ratio initial_equity : num E) (n2 : Z) :
  let w := snd (state_of (run_model n1 first)) in
  let second := BankSim_init height width ns nl nb rfree car
                  min_reserves_ratio initial_equity w in
  (exists x, lst_bank_ratio w = lst_bank_ratio (snd first) ++ x) /\
  (exists y, lst_ibloan w = lst_ibloan (snd first) ++ y) /\
  lst_bank_ratio (snd (fst second)) = lst_bank_ratio w /\
  lst_ibloan (snd (fst second)) = lst_ibloan w /\
  (forall m2, result_of second = Ok m2 ->
     exists x y,
       result_of (run_model n2 (m2, snd (fst second)))
       = Ok (convert_result2dataframe E (lst_bank_ratio w ++ x) (lst_ibloan w ++ y))).
Proof.
  cbv zeta.
  destruct (lists_grow E run_mut _ _ (keeps_run_model E n1 first)) as [Hx Hy].
  destruct (BankSim_init_lists E height width ns nl nb rfree car min_reserves_ratio
              initial_equity (snd (state_of (run_model n1 first)))) as [Lb Li].
  cbv zeta in Lb, Li.
  split; [exact Hx|]. split; [exact Hy|]. split; [exact Lb|]. split; [exact Li|].
  intros m2 _.
  set (w2 := snd (fst (BankSim_init height width ns nl nb rfree car
                         min_reserves_ratio initial_equity
                         (snd (state_of (run_model n1 first)))))) in *.
  destruct (lists_grow E run_mut _ _ (keeps_run_model E n2 (m2, w2)))
    as [[x Hgx] [y Hgy]].
  cbn [snd] in Hgx, Hgy. rewrite Lb in Hgx. rewrite Li in Hgy.
  exists x, y. rewrite <- Hgx, <- Hgy, run_model_run. reflexivity.
Qed.

(* C9 at work: the records of a first object survive the construction of a
   second. *)
Lemma result_lists_are_shared_witness :
  let w := snd (state_of (run_model 2 (toy_built calm 1 0 0))) in
  lst_bank_ratio w = [1; 1] /\
  lst_bank_ratio
    (snd (fst (@BankSim_init (toy calm) 20 20 0 0 2 0%Z 0%Z 0%Z 100%Z w)))
  = lst_bank_ratio w.
Proof.
  cbv zeta. split; [vm_compute; reflexivity|].
  destruct (result_lists_are_shared (toy calm) (toy_built calm 1 0 0) 2
              20 20 0 0 2 0%Z 0%Z 0%Z 100%Z 1) as (_ & _ & H & _).
  exact H.
Defined.

(* C9 on the small outside: a first object with one bank runs two steps and
   leaves the records [1; 1]; a second object with two banks (ids 1 and 2),
   built afterwards and run for one step, returns [1; 1; 1; 2]. *)
Example second_instance_returns_first_records :
  let w := snd (state_of (run_model 2 (toy_built calm 1 0 0))) in
  lst_bank_ratio w = [1; 1] /\
  match @BankSim_init (toy calm) 20 20 0 0 2 0%Z 0%Z 0%Z 100%Z w with
  | (Ok m2, w2, _) =>
      lst_bank_ratio w2 = [1; 1] /\
      result_of (run_model 1 (m2, w2)) = Ok ([1; 1; 1; 2], [])
  | (Raise _, _, _) => False
  end.
Proof. vm_compute. repeat split. Qed.

(** ** C10: construction without a bank node *)

Lemma init_body_without_node (E : Externals) (s : St E) :
  nodes (G (fst s)) = [] ->
  (initial_bank (fst s) <= 0)%Z ->
  (0 < initial_saver (fst s) \/ 0 < initial_loan (fst s))%Z ->
  exists e, result_of (init_body s) = Raise e /\
            (os_path_isfile E (sqlite_db E) (ext (snd s)) = true -> e = IndexError).
Proof.
  intros HG Hb Hsl. unfold init_body.
  pose proof (ensure_database_self E s) as Hself.
  destruct (result_of (ensure_database s)) as [[]|e] eqn:Hr.
  - exists IndexError. split; [|reflexivity].
    rewrite (bind_result _ _ s tt Hr).
    apply bind_raise, create_agents_no_node; rewrite Hself; assumption.
  - exists e. split; [apply bind_raise; exact Hr|].
    intros Hfile. unfold ensure_database in Hr.
    rewrite (bind_result _ _ s s) in Hr by reflexivity.
    cbn [get state_of fst snd] in Hr. rewrite Hfile in Hr. discriminate Hr.
Qed.

Lemma init_body_with_node (E : Externals) (s : St E) :
  nodes (G (fst s)) = py_range (initial_bank (fst s)) ->
  (1 <= initial_bank (fst s))%Z ->
  os_path_isfile E (sqlite_db E) (ext (snd s)) = true ->
  (forall ags x, so_exn (initialize_deposit_base E ags x) = None) ->
  (forall ags c r x, so_exn (initialize_loan_book E ags c r x) = None) ->
  is_ok (result_of (init_body s)) = true.
Proof.
  intros HG Hb Hfile Hdep Hloan. unfold init_body.
  assert (Hens : ensure_database s = (Ok tt, s, [])).
  { unfold ensure_database, bind, get, ret. cbn [fst snd]. rewrite Hfile. reflexivity. }
  apply bind_ok_step with (a := tt); [rewrite Hens; reflexivity|].
  rewrite Hens. cbn [state_of fst snd].
  pose proof (create_agents_succeeds E s HG Hb) as Hcr.
  destruct (result_of (create_agents s)) as [[]|e] eqn:Hr; [|discriminate Hcr].
  apply bind_ok_step with (a := tt); [exact Hr|].
  set (s1 := state_of (create_agents s)).
  unfold initialize_market, datacollector_collect, run_stage, on_self, modify, bind,
    get, emit, ret, result_of.
  cbn [fst snd]. rewrite Hdep. cbn [fst snd]. rewrite Hloan. reflexivity.
Qed.

(** C10. With initial_bank = 0 the graph has no node, so as soon as a Saver
    or a Loan is to be placed, random.choice is handed an empty list and
    raises: BankSim(...) with initial_bank = 0 and initial_saver > 0 or
    initial_loan > 0 never returns an object (when the database file exists
    the exception is that IndexError).  With initial_bank >= 1 the graph is
    not empty and every pass of the saver loop and of the loan loop ends
    normally, whatever the random generator returns; and then construction
    returns an object whenever the database file exists and the two market
    initialisation calls do not raise. *)
Theorem construction_needs_a_bank (E : Externals)
    (height width ns nl nb : Z)
    (rfree car min_reserves_ratio initial_equity : num E) (w : World E) :
  let built := BankSim_init height width ns nl nb rfree car min_reserves_ratio
                 initial_equity w in
  (nb = 0%Z -> (0 < ns \/ 0 < nl)%Z ->
   exists e, result_of built = Raise e /\
             (os_path_isfile E (sqlite_db E) (ext w) = true -> e = IndexError)) /\
  ((1 <= nb)%Z ->
   (forall (s : St E) (l : list nat),
      G (fst s) = empty_graph nb ->
      is_ok (result_of (for_each l (add_saver (E:=E)) s)) = true /\
      is_ok (result_of (for_each l (add_loan (E:=E)) s)) = true) /\
   (os_path_isfile E (sqlite_db E) (ext w) = true ->
    (forall ags x, so_exn (initialize_deposit_base E ags x) = None) ->
    (forall ags c r x, so_exn (initialize_loan_book E ags c r x) = None) ->
    is_ok (result_of built) = true)).
Proof.
  cbv zeta. split.
  - intros Hb Hsl.
    destruct (init_body_without_node E
                (fresh_object E height width ns nl nb rfree car min_reserves_ratio
                   initial_equity, w)) as (e & He & Hidx).
    + cbn. subst nb. reflexivity.
    + cbn. lia.
    + cbn. exact Hsl.
    + exists e. split; [|exact Hidx].
      unfold BankSim_init, result_of in *.
      destruct (init_body _) as [[[[]|e'] s1] ev1]; cbn in *;
        [discriminate He | injection He as ->; reflexivity].
  - intros Hb. split.
    + intros s l HG. apply placement_loops_ok. rewrite HG.
      cbn [empty_graph nodes]. apply py_range_nonempty. exact Hb.
    + intros Hfile Hdep Hloan.
      pose proof (init_body_with_node E
                    (fresh_object E height width ns nl nb rfree car min_reserves_ratio
                       initial_equity, w) eq_refl Hb Hfile Hdep Hloan) as Hok.
      unfold BankSim_init, result_of in *.
      destruct (init_body _) as [[[[]|e'] s1] ev1]; cbn in *;
        [reflexivity | discriminate Hok].
Qed.

(* C10 on the small outside: no bank and one saver, no bank and one loan,
   one bank. *)
Example construction_without_bank :
  result_of (toy_construct calm 0 1 0) = Raise IndexError /\
  result_of (toy_construct calm 0 0 1) = Raise IndexError /\
  is_ok (result_of (toy_construct calm 0 0 0)) = true /\
  is_ok (result_of (toy_construct calm 1 7 9)) = true.
Proof. repeat split. Qed.

(* C10 at work: one saver and no bank; one bank, seven savers, nine loans. *)
Lemma construction_needs_a_bank_witness :
  (exists e, result_of (toy_construct calm 0 1 0) = Raise e /\ e = IndexError) /\
  is_ok (result_of (toy_construct calm 1 7 9)) = true.
Proof.
  split.
  - destruct (construction_needs_a_bank (toy calm) 20 20 1 0 0 0%Z 0%Z 0%Z 100%Z
                (start_world calm)) as [H0 _].
    assert (Hs : (0 < 1 \/ 0 < 0)%Z) by lia.
    destruct (H0 eq_refl Hs) as (e & He & Hidx).
    exists e. split; [exact He | apply Hidx; reflexivity].
  - destruct (construction_needs_a_bank (toy calm) 20 20 7 9 1 0%Z 0%Z 0%Z 100%Z
                (start_world calm)) as [_ H1].
    assert (Hb : (1 <= 1)%Z) by lia.
    destruct (H1 Hb) as [_ Hok].
    apply Hok; [reflexivity | intros; reflexivity | intros; reflexivity].
Defined.

(** * Further properties of the orchestrator *)

(** ** The run id as a function of the clock *)

(** X1. On valid datetimes the run id, int(dt.strftime('%Y%m%d%H%M%S')), is
    always a number; two datetimes get the same id only if they are the
    same second, and the ids are ordered as the datetimes are. *)
Theorem run_id_order (a b : DateTime) :
  valid_datetime a -> valid_datetime b ->
  exists ia ib,
    py_int (strftime_YmdHMS a) = Some ia /\
    py_int (strftime_YmdHMS b) = Some ib /\
    (ia = ib <-> a = b) /\
    ((ia < ib)%Z <-> datetime_lt a b).
Proof.
  intros Ha Hb.
  exists (encode_YmdHMS a), (encode_YmdHMS b).
  split; [apply int_of_strftime; exact Ha|].
  split; [apply int_of_strftime; exact Hb|].
  destruct a as [ya ma da ha mia sa], b as [yb mb db hb mib sb].
  unfold valid_datetime, encode_YmdHMS, datetime_lt in *. cbn in *.
  split; [split|split].
  - intros H. assert (ya = yb) by lia. assert (ma = mb) by lia.
    assert (da = db) by lia. assert (ha = hb) by lia.
    assert (mia = mib) by lia. assert (sa = sb) by lia. congruence.
  - intros H. injection H as -> -> -> -> -> ->. reflexivity.
  - intros H. lia.
  - intros H. lia.
Qed.

(* X1 at work: one second before and after midnight of a new year. *)
Lemma run_id_order_witness :
  exists ia ib,
    py_int (strftime_YmdHMS (mkDateTime 2023 12 31 23 59 59)) = Some ia /\
    py_int (strftime_YmdHMS (mkDateTime 2024 1 1 0 0 0)) = Some ib /\
    (ia < ib)%Z.
Proof.
  destruct (run_id_order (mkDateTime 2023 12 31 23 59 59) (mkDateTime 2024 1 1 0 0 0))
    as (ia & ib & Ha & Hb & _ & Hlt).
  - unfold valid_datetime. cbn. lia.
  - unfold valid_datetime. cbn. lia.
  - exists ia, ib. split; [exact Ha|]. split; [exact Hb|].
    apply Hlt. unfold datetime_lt. cbn. lia.
Defined.

(** ** What init_database reports *)

(** X2. init_database ends normally exactly when sqlite3.connect, open,
    read, executescript and commit all succeed.  When sqlite3.connect
    raises, the finally clause reads the unassigned local db_cursor and the
    call ends with that UnboundLocalError instead of the generic error;
    when a later call raises, it ends with Exception("SQLite DB init
    error").  The exception that was raised first is never the one
    reported. *)
Theorem init_database_outcome (E : Externals) (s : St E) :
  let c := sqlite3_connect E (sqlite_db E) (ext (snd s)) in
  let o := file_open E (db_init_query E) (snd c) in
  let r := file_read E (snd o) in
  let x := cursor_executescript E (snd r) in
  let k := conn_commit E (snd x) in
  result_of (init_database s) =
  match fst c with
  | Some _ => Raise (UnboundLocalError "db_cursor")
  | None =>
      match fst o, fst r, fst x, fst k with
      | None, None, None, None => Ok tt
      | _, _, _, _ => Raise (PyException "SQLite DB init error")
      end
  end.
Proof.
  cbv zeta.
  unfold init_database, with_locals, try_finally, try_except, init_database_try,
    init_database_finally, lift, sqlite3_connect_, conn_cursor, cursor_close,
    conn_close, bind, ext_call, on_world, modify, get, emit, ret, raise, result_of.
  cbn [fst snd].
  destruct (sqlite3_connect E (sqlite_db E) (ext (snd s))) as [[e|] x1]; cbn;
    [reflexivity|].
  destruct (file_open E (db_init_query E) x1) as [[e|] x2]; cbn; [reflexivity|].
  destruct (file_read E x2) as [[e|] x3]; cbn; [reflexivity|].
  destruct (cursor_executescript E x3) as [[e|] x4]; cbn; [reflexivity|].
  destruct (conn_commit E x4) as [[e|] x5]; cbn; reflexivity.
Qed.

(** ** A run of no step *)

(** X3. run_model with step_count <= 0 performs no operation at all: no
    step, no connection, no run record; it leaves the state as it is and
    returns the conversion of the two lists as they stand. *)
Theorem run_model_of_no_step (E : Externals) (step_count : Z) (s : St E) :
  (step_count <= 0)%Z ->
  run_model step_count s =
  (Ok (convert_result2dataframe E (lst_bank_ratio (snd s)) (lst_ibloan (snd s))),
   s, []).
Proof.
  intros H. rewrite run_model_run, (py_range_empty _ H). reflexivity.
Qed.

(* X3 at work: run_model(0) on a second object returns the records a first
   object left. *)
Lemma run_model_of_no_step_witness :
  result_of (run_model 0 (state_of (run_model 2 (toy_built calm 1 0 0))))
  = Ok ([1; 1], []).
Proof.
  rewrite (run_model_of_no_step (toy calm) 0
             (state_of (run_model 2 (toy_built calm 1 0 0))) ltac:(lia)).
  vm_compute. reflexivity.
Defined.

(** ** How many steps a run executes *)

Lemma run_loop_bounds (E : Externals) (step_count : Z) (indices : list nat) (s : St E) :
  let r := run_loop step_count indices s in
  match result_of r with
  | Ok false =>
      count_events is_step_begin (events_of r) = List.length indices /\
      count_events is_notice (events_of r) = 0
  | Ok true =>
      1 <= count_events is_step_begin (events_of r) <= List.length indices /\
      count_events is_notice (events_of r) = 1 /\
      count_solvent (fst (state_of r)) = 0
  | Raise _ => False
  end.
Proof.
  cbv zeta. revert s. induction indices as [|i rest IH]; intros s.
  - cbn. split; reflexivity.
  - rewrite run_loop_cons.
    destruct (iteration_counts E step_count i s) as (Hb & Hn & _).
    unfold bankrupt_log in Hn.
    destruct (count_solvent (fst (state_of (step s))) =? 0) eqn:Hz.
    + cbn [result_of state_of events_of fst snd List.length] in *.
      rewrite Hb, Hn. apply Nat.eqb_eq in Hz. repeat split; try lia.
    + specialize (IH (state_of (step s))).
      remember (events_of (run_iteration step_count i s)) as evI.
      destruct (run_loop step_count rest (state_of (step s))) as [[[[|]|e] s2] ev2];
        cbn [result_of state_of events_of fst snd List.length] in *;
        rewrite ?count_events_app, ?Hb, ?Hn; cbn [List.length]; lia.
Qed.

(** X4. run_model(step_count) calls step() at most step_count times and logs
    the all-banks-bankrupt notice at most once.  If the notice is not
    logged, step() was called exactly step_count times (for step_count >=
    0); if it is logged, at least one step ran and no solvent bank is left
    in the state run_model returns in. *)
Theorem run_model_step_bounds (E : Externals) (step_count : Z) (s : St E) :
  let r := run_model step_count s in
  count_events is_notice (events_of r) <= 1 /\
  count_events is_step_begin (events_of r) <= Z.to_nat step_count /\
  (count_events is_notice (events_of r) = 0 ->
   count_events is_step_begin (events_of r) = Z.to_nat step_count) /\
  (count_events is_notice (events_of r) = 1 ->
   1 <= count_events is_step_begin (events_of r) /\
   count_solvent (fst (state_of r)) = 0).
Proof.
  cbv zeta. rewrite run_model_run. cbn [events_of state_of fst snd].
  pose proof (run_loop_bounds E step_count (py_range step_count) s) as H.
  cbv zeta in H.
  assert (Hlen : List.length (py_range step_count) = Z.to_nat step_count)
    by (unfold py_range; apply length_seq).
  rewrite Hlen in H.
  destruct (result_of (run_loop step_count (py_range step_count) s)) as [[|]|e];
    [| |contradiction].
  - destruct H as (Hb & Hn & Hz). repeat split; lia.
  - destruct H as (Hb & Hn). repeat split; lia.
Qed.

(** ** The scheduler's counter and the data collector *)

Section Counters.

Variable E : Externals.

Lemma counters_stable (s s' : St E) :
  reaches quiet_mut s s' ->
  schedule_steps (fst s') = schedule_steps (fst s) /\
  model_vars (fst s') = model_vars (fst s).
Proof.
  apply reaches_inv
    with (R := fun a b : St E =>
                 schedule_steps (fst b) = schedule_steps (fst a) /\
                 model_vars (fst b) = model_vars (fst a)).
  - intros a. auto.
  - intros s1 s2 s3 [A1 B1] [A2 B2]. split; congruence.
  - intros k a b Hk Hm. destruct Hm; try discriminate Hk; cbn; auto.
Qed.

Lemma advances_bind_quiet {A B} (m : M (St E) A) (f : A -> M (St E) B) :
  keeps (reaches quiet_mut) m -> (forall a, advances (f a)) -> advances (bind m f).
Proof.
  intros Hm Hf s. rewrite run_bind.
  destruct (counters_stable _ _ (Hm s)) as [Hs Hv]. unfold state_of in Hs, Hv.
  destruct (m s) as [[[a|e] s1] ev1]; cbn [fst snd] in Hs, Hv.
  - specialize (Hf a s1). cbn [result_of state_of fst snd].
    destruct (result_of (f a s1)); rewrite <- Hs, <- Hv; exact Hf.
  - cbn. auto.
Qed.

Lemma advances_schedule_step_collect :
  advances (bind (schedule_step (E:=E)) (fun _ => datacollector_collect (E:=E))).
Proof.
  intros s.
  unfold schedule_step, datacollector_collect, bind, emit, run_stage, on_self, modify,
    result_of, state_of.
  destruct (so_exn _); cbn; [auto|].
  rewrite length_app. cbn. split; [reflexivity | lia].
Qed.

Lemma keeps_first_step_block_quiet :
  keeps (reaches quiet_mut) (first_step_block (E:=E)).
Proof.
  unfold first_step_block.
  repeat first
    [ match goal with
      | |- keeps _ (sqlite3_connect_ _) => apply keeps_sqlite3_connect; reflexivity
      | |- keeps _ (conn_cursor _) => apply keeps_conn_cursor; reflexivity
      end
    | progress keeps_tac ].
Qed.

Lemma advances_step_body : advances (step_body (E:=E)).
Proof.
  unfold step_body.
  apply advances_bind_quiet; [apply keeps_get | intros s0; cbv zeta].
  repeat first
    [ apply advances_schedule_step_collect
    | apply advances_bind_quiet;
      [ first
          [ apply keeps_stage; reflexivity
          | apply keeps_second_round_effects; reflexivity
          | apply keeps_main_write_bank_ratios; reflexivity
          | apply keeps_main_write_interbank_links; reflexivity
          | apply keeps_insert_agtbank; reflexivity
          | apply keeps_commit; reflexivity ]
      | intros _ ] ].
Qed.

Lemma advances_step : advances (step (E:=E)).
Proof.
  unfold step.
  apply advances_bind_quiet; [apply keeps_emit | intros _].
  apply advances_bind_quiet; [apply keeps_get | intros s0].
  apply advances_bind_quiet; [| intros _; apply advances_step_body].
  destruct (schedule_steps (fst s0) =? 0);
    [apply keeps_first_step_block_quiet | apply keeps_ret].
Qed.

End Counters.

(** X5. A call of step() that ends normally advances schedule.steps by one
    and adds one value to the data collector; a call that raises, wherever
    it raises, leaves both as they were.  So schedule.steps counts the
    steps that ended normally, not the calls of step(). *)
Theorem step_advances_on_success (E : Externals) (s : St E) :
  match result_of (step s) with
  | Ok _ =>
      schedule_steps (fst (state_of (step s))) = S (schedule_steps (fst s)) /\
      List.length (model_vars (fst (state_of (step s))))
      = S (List.length (model_vars (fst s)))
  | Raise _ =>
      schedule_steps (fst (state_of (step s))) = schedule_steps (fst s) /\
      model_vars (fst (state_of (step s))) = model_vars (fst s)
  end.
Proof.
  pose proof (advances_step E s) as H.
  destruct (result_of (step s)); exact H.
Qed.

Section Collector.

Variable E : Externals.

Lemma stays_bind {X A B} (g : St E -> X) (m : M (St E) A) (f : A -> M (St E) B) :
  (forall s, g (state_of (m s)) = g s) ->
  (forall a s, g (state_of (f a s)) = g s) ->
  forall s, g (state_of (bind m f s)) = g s.
Proof.
  intros Hm Hf s. rewrite run_bind. specialize (Hm s). unfold state_of in *.
  destruct (m s) as [[[a|e] s1] ev1]; cbn [fst snd] in *; [|exact Hm].
  rewrite <- Hm. apply Hf.
Qed.

Lemma stays_for_each {X A} (g : St E -> X) (l : list A) (body : A -> M (St E) unit) :
  (forall x s, g (state_of (body x s)) = g s) ->
  forall s, g (state_of (for_each l body s)) = g s.
Proof.
  intros Hb. induction l as [|x l IH]; intros s; [reflexivity|].
  cbn [for_each]. apply stays_bind; [apply Hb | intros _; exact IH].
Qed.

Lemma add_bank_model_vars i (s : St E) :
  model_vars (fst (state_of (add_bank i s))) = model_vars (fst s).
Proof.
  unfold add_bank, next_id, place_agent, schedule_add, bind, on_self, modify, get,
    ret, raise, state_of.
  cbn. destruct (existsb (Nat.eqb i) (nodes (G (fst s)))); reflexivity.
Qed.

Lemma add_saver_model_vars i (s : St E) :
  model_vars (fst (state_of (add_saver i s))) = model_vars (fst s).
Proof.
  unfold add_saver, next_id, random_choice, place_agent, schedule_add, bind, on_self,
    modify, get, ext_read, ret, raise, state_of.
  cbn -[Nat.modulo nth List.length existsb].
  destruct (nodes (G (fst s))) as [|n0 l] eqn:Hn; [reflexivity|].
  destruct (random_below E _ _) as [r x]. cbn -[Nat.modulo nth List.length existsb].
  destruct (existsb _ _); reflexivity.
Qed.

Lemma add_loan_model_vars i (s : St E) :
  model_vars (fst (state_of (add_loan i s))) = model_vars (fst s).
Proof.
  unfold add_loan, next_id, random_choice, place_agent, schedule_add, bind, on_self,
    modify, get, ext_read, ret, raise, state_of.
  cbn -[Nat.modulo nth List.length existsb].
  destruct (nodes (G (fst s))) as [|n0 l] eqn:Hn; [reflexivity|].
  destruct (random_below E _ _) as [r x]. cbn -[Nat.modulo nth List.length existsb].
  destruct (existsb _ _); reflexivity.
Qed.

Lemma create_agents_model_vars (s : St E) :
  model_vars (fst (state_of (create_agents s))) = model_vars (fst s).
Proof.
  revert s. unfold create_agents.
  set (g := fun t : St E => model_vars (fst t)).
  apply (stays_bind g); [reflexivity | intros s0].
  apply (stays_bind g);
    [apply (stays_for_each g); intros x s; apply add_bank_model_vars | intros _].
  apply (stays_bind g); [reflexivity | intros s1].
  apply (stays_bind g);
    [apply (stays_for_each g); intros x s; apply add_saver_model_vars | intros _].
  apply (stays_bind g); [reflexivity | intros s2].
  apply (stays_for_each g); intros x s; apply add_loan_model_vars.
Qed.

Lemma keeps_initialize_market_quiet :
  keeps (reaches quiet_mut) (initialize_market (E:=E)).
Proof. unfold initialize_market. keeps_tac. Qed.

(* Construction collects once, at its end. *)
Lemma init_body_collects_once (s s' : St E) ev :
  init_body s = (Ok tt, s', ev) ->
  List.length (model_vars (fst s')) = S (List.length (model_vars (fst s))).
Proof.
  intros H. unfold init_body in H.
  apply bind_inv in H as ([] & s1 & e1 & e1' & H1 & H & _).
  apply bind_inv in H as ([] & s2 & e2 & e2' & H2 & H & _).
  apply bind_inv in H as ([] & s3 & e3 & e3' & H3 & H & _).
  pose proof (ensure_database_self E s) as Hself.
  rewrite H1 in Hself. cbn [state_of fst snd] in Hself.
  pose proof (create_agents_model_vars s1) as Hc.
  rewrite H2 in Hc. cbn [state_of fst snd] in Hc.
  destruct (counters_stable E _ _ (keeps_initialize_market_quiet s2)) as [_ Hm].
  rewrite H3 in Hm. cbn [state_of fst snd] in Hm.
  unfold datacollector_collect, bind, on_self, modify, emit in H. cbn in H.
  injection H as <- _. cbn. rewrite length_app, Hm, Hc, Hself. cbn. lia.
Qed.

Lemma db_untouched allow (s s' : St E) :
  allow MDb = false -> reaches allow s s' ->
  conn (fst s') = conn (fst s) /\ db_cursor (fst s') = db_cursor (fst s) /\
  simid (fst s') = simid (fst s).
Proof.
  intros Hd.
  apply reaches_inv
    with (R := fun a b : St E =>
                 conn (fst b) = conn (fst a) /\ db_cursor (fst b) = db_cursor (fst a) /\
                 simid (fst b) = simid (fst a)).
  - intros a. auto.
  - intros s1 s2 s3 (A1 & B1 & C1) (A2 & B2 & C2). repeat split; congruence.
  - intros k a b Hk Hm. destruct Hm; cbn; auto. congruence.
Qed.

(* Every step keeps the collector one value ahead of the counter. *)
Lemma step_keeps_collector_ahead (s : St E) :
  List.length (model_vars (fst s)) = S (schedule_steps (fst s)) ->
  List.length (model_vars (fst (state_of (step s))))
  = S (schedule_steps (fst (state_of (step s)))).
Proof.
  intros H. pose proof (advances_step E s) as Ha.
  destruct (result_of (step s)); destruct Ha as [Hs Hv]; rewrite Hs, Hv; lia.
Qed.

Lemma run_loop_keeps_collector_ahead step_count indices (s : St E) :
  List.length (model_vars (fst s)) = S (schedule_steps (fst s)) ->
  List.length (model_vars (fst (state_of (run_loop step_count indices s))))
  = S (schedule_steps (fst (state_of (run_loop step_count indices s)))).
Proof.
  revert s. induction indices as [|i rest IH]; intros s H; [exact H|].
  rewrite run_loop_cons. pose proof (step_keeps_collector_ahead s H) as H1.
  destruct (count_solvent (fst (state_of (step s))) =? 0); cbn [state_of fst snd].
  - exact H1.
  - apply IH. exact H1.
Qed.

End Collector.

(** X6. A freshly constructed model has schedule.steps = 0, one collected
    value, and no connection, cursor or run id yet; and from then on,
    after any run_model, with or without errors and early stop, the data
    collector holds exactly schedule.steps + 1 values. *)
Theorem collector_is_one_ahead (E : Externals)
    (height width ns nl nb : Z)
    (rfree car min_reserves_ratio initial_equity : num E)
    (w w' : World E) (m : BankSim E) (ev : list Event) :
  BankSim_init height width ns nl nb rfree car min_reserves_ratio initial_equity w
  = (Ok m, w', ev) ->
  schedule_steps m = 0 /\
  List.length (model_vars m) = 1 /\
  conn m = None /\ db_cursor m = None /\ simid m = None /\
  forall step_count,
    List.length (model_vars (fst (state_of (run_model step_count (m, w')))))
    = S (schedule_steps (fst (state_of (run_model step_count (m, w'))))).
Proof.
  intros Hinit. apply BankSim_init_ok in Hinit.
  pose proof (keeps_init_body E
                (fresh_object E height width ns nl nb rfree car min_reserves_ratio
                   initial_equity, w)) as K.
  rewrite Hinit in K. cbn [state_of fst snd] in K.
  pose proof (schedule_steps_stable E build_mut _ _ eq_refl K) as Hs.
  destruct (db_untouched E build_mut _ _ eq_refl K) as (Hc & Hcu & Hid).
  pose proof (init_body_collects_once E _ _ _ Hinit) as Hv.
  cbn [fst snd fresh_object schedule_steps conn db_cursor simid model_vars List.length]
    in Hs, Hc, Hcu, Hid, Hv.
  repeat split; try assumption.
  intros step_count. rewrite run_model_run. cbn [state_of fst snd].
  apply run_loop_keeps_collector_ahead. cbn [fst]. rewrite Hs, Hv. reflexivity.
Qed.

(* X6 at work: three steps of which the first raises leave two counted steps
   and three collected values. *)
Lemma collector_is_one_ahead_witness :
  schedule_steps
    (fst (state_of (run_model 3 (fst (toy_built flaky 1 0 0), snd (toy_built flaky 1 0 0)))))
  = 2 /\
  List.length
    (model_vars
       (fst (state_of
               (run_model 3 (fst (toy_built flaky 1 0 0), snd (toy_built flaky 1 0 0))))))
  = S (schedule_steps
         (fst (state_of
                 (run_model 3 (fst (toy_built flaky 1 0 0), snd (toy_built flaky 1 0 0)))))).
Proof.
  split; [vm_compute; reflexivity|].
  destruct (collector_is_one_ahead (toy flaky) 20 20 0 0 1 0%Z 0%Z 0%Z 100%Z
              (start_world flaky) (snd (toy_built flaky 1 0 0))
              (fst (toy_built flaky 1 0 0)) (events_of (toy_construct flaky 1 0 0))
              ltac:(vm_compute; reflexivity)) as (_ & _ & _ & _ & _ & H).
  exact (H 3%Z).
Defined.

Section Handles.

Variable E : Externals.

Lemma handles_stable allow (s s' : St E) :
  allow MHandles = false -> reaches allow s s' ->
  open_conns (snd s') = open_conns (snd s) /\
  open_cursors (snd s') = open_cursors (snd s) /\
  next_handle (snd s') = next_handle (snd s).
Proof.
  intros Hd.
  apply reaches_inv
    with (R := fun a b : St E =>
                 open_conns (snd b) = open_conns (snd a) /\
                 open_cursors (snd b) = open_cursors (snd a) /\
                 next_handle (snd b) = next_handle (snd a)).
  - intros a. auto.
  - intros s1 s2 s3 (A1 & B1 & C1) (A2 & B2 & C2). repeat split; congruence.
  - intros k a b Hk Hm. destruct Hm; cbn; auto. congruence.
Qed.

Lemma body_not_close e : is_body_event e = true -> is_close e = false.
Proof. destruct e; intros H; try reflexivity; discriminate H. Qed.

Lemma first_block_not_close e : is_first_block_event e = true -> is_close e = false.
Proof. destruct e; intros H; try reflexivity; discriminate H. Qed.

(* The first-call block leaves the connection and the cursor it opened
   open, on top of those that were open before. *)
Lemma first_step_block_handles (s : St E) :
  let c := sqlite3_connect E (sqlite_db E) (ext (snd s)) in
  let h := next_handle (snd s) in
  let s' := state_of (first_step_block s) in
  match fst c with
  | Some e =>
      open_conns (snd s') = open_conns (snd s) /\
      open_cursors (snd s') = open_cursors (snd s)
  | None =>
      open_conns (snd s') = h :: open_conns (snd s) /\
      open_cursors (snd s') = S h :: open_cursors (snd s)
  end.
Proof.
  cbv zeta.
  unfold first_step_block, sqlite3_connect_, conn_cursor, bind, ext_call, ext_read,
    on_self, on_world, modify, get, emit, ret, raise, state_of.
  destruct (sqlite3_connect E (sqlite_db E) (ext (snd s))) as [[e|] x1];
    cbn -[py_int strftime_YmdHMS]; [split; reflexivity|].
  destruct (datetime_now E x1) as [local x2]. cbn -[py_int strftime_YmdHMS].
  destruct (py_int (strftime_YmdHMS local)) as [id|] eqn:Hid;
    [|exfalso; exact (strftime_is_a_number local Hid)].
  cbn -[py_int strftime_YmdHMS].
  destruct (datetime_now_utc E x2) as [utc x3]. cbn -[py_int strftime_YmdHMS].
  destruct (insert_simulation_table E _ _ _) as [[e|] x4];
    cbn -[py_int strftime_YmdHMS]; split; reflexivity.
Qed.

(* The body of step() rebinds neither self.conn nor self.db_cursor and
   closes nothing. *)
Lemma step_body_holds_open (s : St E) :
  holds_open s -> holds_open (state_of (step_body s)).
Proof.
  intros [Hc Hcu].
  destruct (handles_stable body_mut _ _ eq_refl (keeps_step_body E s)) as (A & B & _).
  destruct (db_untouched E body_mut _ _ eq_refl (keeps_step_body E s)) as (C & D & _).
  unfold holds_open. rewrite A, B, C, D. split; assumption.
Qed.

Lemma step_holds_open (s : St E) :
  holds_open s -> holds_open (state_of (step s)).
Proof.
  intros Hs. rewrite step_run. destruct (schedule_steps (fst s) =? 0).
  - pose proof (first_step_block_run E s) as Hrun.
    pose proof (first_step_block_handles s) as Hh. cbv zeta in Hrun, Hh.
    destruct (fst (sqlite3_connect E (sqlite_db E) (ext (snd s)))).
    + rewrite Hrun. exact Hs.
    + destruct Hrun as (id & r & s' & _ & Hrun & _ & Hconn & Hcur & _).
      rewrite Hrun in *. cbn [state_of fst snd] in Hh. destruct Hh as [Hc Hcu].
      assert (Hs' : holds_open s').
      { split.
        - intros h Hh. rewrite Hconn in Hh. injection Hh as <-.
          rewrite Hc. left. reflexivity.
        - intros c Hcc. rewrite Hcur in Hcc. injection Hcc as <-.
          rewrite Hcu. left. reflexivity. }
      destruct r as [[]|e]; cbn [state_of fst snd].
      * apply step_body_holds_open. exact Hs'.
      * exact Hs'.
  - cbn [state_of fst snd]. apply step_body_holds_open. exact Hs.
Qed.

Lemma step_no_close (s : St E) :
  count_events is_close (events_of (step s)) = 0.
Proof.
  destruct (step_events_shape E s) as (blk & body & Heq & Hblk & Hbody & _).
  rewrite Heq. change (EvStepBegin :: blk ++ body) with ([EvStepBegin] ++ blk ++ body).
  rewrite !count_events_app,
    (count_events_none is_close _ blk first_block_not_close Hblk),
    (count_events_none is_close _ body body_not_close Hbody).
  reflexivity.
Qed.

Lemma run_loop_holds_open step_count indices (s : St E) :
  holds_open s ->
  holds_open (state_of (run_loop step_count indices s)) /\
  count_events is_close (events_of (run_loop step_count indices s)) = 0.
Proof.
  revert s. induction indices as [|i rest IH]; intros s Hs.
  - split; [exact Hs | reflexivity].
  - rewrite run_loop_cons.
    pose proof (step_holds_open s Hs) as Hs1.
    assert (Hit : count_events is_close (events_of (run_iteration step_count i s)) = 0).
    { rewrite run_iteration_run. cbn [events_of snd].
      rewrite !count_events_app, step_no_close.
      rewrite count_progress_report, count_traceback_log by reflexivity.
      rewrite (count_bankrupt_log E is_close) by reflexivity. reflexivity. }
    destruct (count_solvent (fst (state_of (step s))) =? 0);
      cbn [state_of events_of fst snd].
    + split; [exact Hs1 | exact Hit].
    + destruct (IH _ Hs1) as [Hs2 Hno].
      split; [exact Hs2|]. rewrite count_events_app, Hit, Hno. reflexivity.
Qed.

End Handles.

(** X7. The handles the object holds stay open: if self.conn and
    self.db_cursor, when set, refer to an open connection and an open
    cursor, then so they do after any run_model, whatever errors the loop
    contained and however often the first-call block ran again; and neither
    step() nor run_model() ever calls close(). *)
Theorem held_handles_stay_open (E : Externals) (step_count : Z) (s : St E) :
  holds_open s ->
  holds_open (state_of (run_model step_count s)) /\
  count_events is_close (events_of (run_model step_count s)) = 0.
Proof.
  intros Hs. rewrite run_model_run. cbn [state_of events_of fst snd].
  apply run_loop_holds_open. exact Hs.
Qed.

(* X7 at work: three steps of which the first raises after the connection
   was opened, so that the second opens another one. *)
Lemma held_handles_stay_open_witness :
  conn (fst (state_of (run_model 3 (toy_built flaky 1 0 0)))) = Some 2 /\
  In 2 (open_conns (snd (state_of (run_model 3 (toy_built flaky 1 0 0))))) /\
  count_events is_close (events_of (run_model 3 (toy_built flaky 1 0 0))) = 0.
Proof.
  assert (Hs : holds_open (toy_built flaky 1 0 0)).
  { split; intros h Hh; vm_compute in Hh; discriminate Hh. }
  destruct (held_handles_stay_open (toy flaky) 3 (toy_built flaky 1 0 0) Hs)
    as [[Hc _] Hno].
  assert (Hconn : conn (fst (state_of (run_model 3 (toy_built flaky 1 0 0)))) = Some 2)
    by (vm_compute; reflexivity).
  split; [exact Hconn|]. split; [exact (Hc 2 Hconn) | exact Hno].
Defined.

Section Run_identity.

Variable E : Externals.

Lemma stamped_prefix c i (l rest full : list Event) :
  l ++ rest = full -> Forall (stamped c i) full -> Forall (stamped c i) l.
Proof.
  intros <- H. apply Forall_app in H. exact (proj1 H).
Qed.

Lemma step_body_stamped (s : St E) :
  Forall (stamped (db_cursor (fst s)) (simid (fst s))) (events_of (step_body s)).
Proof.
  assert (Hall : Forall (stamped (db_cursor (fst s)) (simid (fst s))) (body_events s)).
  { unfold body_events. repeat constructor. }
  pose proof (performs_step_body E s) as H. unfold events_of.
  destruct (step_body s) as [[[[]|e] s1] ev]; cbn [snd].
  - rewrite H. exact Hall.
  - destruct H as [rest H]. exact (stamped_prefix _ _ _ _ _ H Hall).
Qed.

(* A call of step() after the scheduler has advanced. *)
Lemma later_step_identity (s : St E) :
  schedule_steps (fst s) <> 0 ->
  reaches body_mut s (state_of (step s)) /\
  Forall (stamped (db_cursor (fst s)) (simid (fst s))) (events_of (step s)).
Proof.
  intros Hs. rewrite step_run.
  destruct (schedule_steps (fst s) =? 0) eqn:H0; [apply Nat.eqb_eq in H0; contradiction|].
  cbn [state_of events_of fst snd]. split.
  - apply keeps_step_body.
  - constructor; [exact I | apply step_body_stamped].
Qed.

Lemma run_loop_identity step_count indices (s : St E) :
  schedule_steps (fst s) <> 0 ->
  reaches body_mut s (state_of (run_loop step_count indices s)) /\
  Forall (stamped (db_cursor (fst s)) (simid (fst s)))
         (events_of (run_loop step_count indices s)).
Proof.
  revert s. induction indices as [|i rest IH]; intros s Hs.
  - split; [apply reaches_refl | constructor].
  - rewrite run_loop_cons.
    destruct (later_step_identity s Hs) as [K Hev].
    assert (Hit : Forall (stamped (db_cursor (fst s)) (simid (fst s)))
                         (events_of (run_iteration step_count i s))).
    { rewrite run_iteration_run. cbn [events_of snd].
      repeat (apply Forall_app; split); try exact Hev.
      - unfold progress_report.
        destruct ((i mod 10 =? 0) || (Z.of_nat i + 1 =? step_count)%Z);
          repeat constructor.
      - destruct (result_of (step s)); repeat constructor.
      - unfold bankrupt_log.
        destruct (count_solvent (fst (state_of (step s))) =? 0); repeat constructor. }
    destruct (count_solvent (fst (state_of (step s))) =? 0);
      cbn [state_of events_of fst snd].
    + split; [exact K | exact Hit].
    + assert (Hs' : schedule_steps (fst (state_of (step s))) <> 0).
      { pose proof (schedule_steps_monotone E _ _ _ K). lia. }
      destruct (IH _ Hs') as [K' Hev'].
      destruct (db_untouched E body_mut _ _ eq_refl K) as (_ & Hcu & Hid).
      rewrite Hcu, Hid in Hev'.
      split.
      * exact (reaches_trans E _ _ _ _ K K').
      * apply Forall_app. split; [exact Hit | exact Hev'].
Qed.

End Run_identity.

(** X8. Once the scheduler has advanced (schedule.steps is not 0), a run
    keeps its database identity: whatever happens in run_model, self.conn,
    self.db_cursor and self.simid are what they were, no handle is opened
    or closed, the step counter does not go back, and every call of
    insert_agtbank_table in the run is handed that same cursor and that same
    run id. *)
Theorem run_keeps_its_identity (E : Externals) (step_count : Z) (s : St E) :
  schedule_steps (fst s) <> 0 ->
  conn (fst (state_of (run_model step_count s))) = conn (fst s) /\
  db_cursor (fst (state_of (run_model step_count s))) = db_cursor (fst s) /\
  simid (fst (state_of (run_model step_count s))) = simid (fst s) /\
  open_conns (snd (state_of (run_model step_count s))) = open_conns (snd s) /\
  open_cursors (snd (state_of (run_model step_count s))) = open_cursors (snd s) /\
  schedule_steps (fst s) <= schedule_steps (fst (state_of (run_model step_count s))) /\
  Forall (stamped (db_cursor (fst s)) (simid (fst s)))
         (events_of (run_model step_count s)).
Proof.
  intros Hs. rewrite run_model_run. cbn [state_of events_of fst snd].
  destruct (run_loop_identity E step_count (py_range step_count) s Hs) as [K Hev].
  destruct (db_untouched E body_mut _ _ eq_refl K) as (A & B & C).
  destruct (handles_stable E body_mut _ _ eq_refl K) as (D & F & _).
  pose proof (schedule_steps_monotone E _ _ _ K) as G.
  unfold state_of in *. repeat split; assumption.
Qed.

(* X8 at work: a second run of three steps on a model that has already run
   one step. *)
Lemma run_keeps_its_identity_witness :
  schedule_steps (fst (state_of (step (toy_built calm 1 0 0)))) = 1 /\
  simid (fst (state_of (run_model 3 (state_of (step (toy_built calm 1 0 0))))))
  = Some 20240305120000%Z /\
  Forall (stamped (Some 1) (Some 20240305120000%Z))
         (events_of (run_model 3 (state_of (step (toy_built calm 1 0 0))))).
Proof.
  assert (H1 : schedule_steps (fst (state_of (step (toy_built calm 1 0 0)))) = 1)
    by (vm_compute; reflexivity).
  assert (Hne : schedule_steps (fst (state_of (step (toy_built calm 1 0 0)))) <> 0)
    by (rewrite H1; discriminate).
  destruct (run_keeps_its_identity (toy calm) 3 _ Hne) as (_ & _ & Hid & _ & _ & _ & Hev).
  split; [exact H1|]. split.
  - rewrite Hid. vm_compute. reflexivity.
  - assert (Hc : db_cursor (fst (state_of (step (toy_built calm 1 0 0)))) = Some 1)
      by (vm_compute; reflexivity).
    assert (Hi : simid (fst (state_of (step (toy_built calm 1 0 0))))
                 = Some 20240305120000%Z) by (vm_compute; reflexivity).
    rewrite Hc, Hi in Hev. exact Hev.
Defined.

Section Without_database.

Variable E : Externals.

Lemma set_ext_same (w : World E) : set_ext (ext w) w = w.
Proof. destruct w. reflexivity. Qed.

(* The first call of step() when sqlite3.connect raises: the exception
   leaves step() before anything else is done. *)
Lemma step_without_database (s : St E) :
  schedule_steps (fst s) = 0 ->
  fst (sqlite3_connect E (sqlite_db E) (ext (snd s))) <> None ->
  exists e,
    step s = (Raise e,
              (fst s, set_ext (snd (sqlite3_connect E (sqlite_db E) (ext (snd s))))
                              (snd s)),
              [EvStepBegin]).
Proof.
  intros H0 Hc. rewrite step_run, H0. cbn [Nat.eqb].
  pose proof (first_step_block_run E s) as Hrun. cbv zeta in Hrun.
  destruct (fst (sqlite3_connect E (sqlite_db E) (ext (snd s)))) as [e|];
    [|congruence].
  exists e. rewrite Hrun. reflexivity.
Qed.

Lemma run_loop_without_database step_count indices (s : St E) :
  schedule_steps (fst s) = 0 ->
  (forall x, fst (sqlite3_connect E (sqlite_db E) x) <> None) ->
  let r := run_loop step_count indices s in
  (exists x, state_of r = (fst s, set_ext x (snd s))) /\
  count_events is_body_event (events_of r) = 0 /\
  count_events is_first_block_event (events_of r) = 0 /\
  count_events is_traceback (events_of r) = count_events is_step_begin (events_of r) /\
  (count_solvent (fst s) <> 0 ->
   count_events is_step_begin (events_of r) = List.length indices).
Proof.
  intros H0 Hc. cbv zeta. revert s H0.
  induction indices as [|i rest IH]; intros s H0.
  - cbn. repeat split; auto. exists (ext (snd s)).
    rewrite set_ext_same. destruct s; reflexivity.
  - rewrite run_loop_cons.
    destruct (step_without_database s H0 (Hc _)) as [e Hstep].
    assert (Hit : count_events is_body_event (events_of (run_iteration step_count i s)) = 0 /\
                  count_events is_first_block_event
                    (events_of (run_iteration step_count i s)) = 0 /\
                  count_events is_traceback (events_of (run_iteration step_count i s)) = 1 /\
                  count_events is_step_begin (events_of (run_iteration step_count i s)) = 1).
    { rewrite run_iteration_run, Hstep. cbn [events_of result_of state_of fst snd].
      rewrite !count_events_app.
      rewrite !count_progress_report by reflexivity.
      rewrite (count_bankrupt_log E is_body_event),
        (count_bankrupt_log E is_first_block_event),
        (count_bankrupt_log E is_traceback), (count_bankrupt_log E is_step_begin)
        by reflexivity.
      repeat split. }
    destruct Hit as (I1 & I2 & I3 & I4).
    rewrite Hstep. cbn [state_of fst snd].
    destruct (count_solvent (fst s) =? 0) eqn:Hsolv; cbn [state_of events_of fst snd].
    + repeat split; try assumption; try congruence.
      * eexists. reflexivity.
      * intros Hne. apply Nat.eqb_eq in Hsolv. contradiction.
    + set (s1 := (fst s, set_ext (snd (sqlite3_connect E (sqlite_db E) (ext (snd s))))
                                 (snd s))) in *.
      destruct (IH s1 H0) as ((x & Hx) & J1 & J2 & J3 & J4).
      rewrite !count_events_app, I1, I2, I3, I4, J1, J2, J3.
      repeat split.
      * exists x. rewrite Hx. reflexivity.
      * intros Hne. cbn [List.length]. rewrite (J4 Hne). reflexivity.
Qed.

End Without_database.

(** X9. When sqlite3.connect raises whenever it is called, a run_model on a
    model whose scheduler has not advanced does nothing but fail: every
    step() is left at its first statement, so no pipeline stage, writer,
    snapshot, commit, scheduler step or collection runs, the object and the
    result lists stay as they were, each failed step is logged as a
    traceback, and run_model still returns normally with the conversion of
    the unchanged lists.  While a solvent bank exists the loop does not stop
    early: it calls step(), and so tries to connect, step_count times. *)
Theorem run_without_database (E : Externals) (step_count : Z) (s : St E) :
  schedule_steps (fst s) = 0 ->
  (forall x, fst (sqlite3_connect E (sqlite_db E) x) <> None) ->
  (exists x, state_of (run_model step_count s) = (fst s, set_ext x (snd s))) /\
  result_of (run_model step_count s)
  = Ok (convert_result2dataframe E (lst_bank_ratio (snd s)) (lst_ibloan (snd s))) /\
  count_events is_body_event (events_of (run_model step_count s)) = 0 /\
  count_events is_first_block_event (events_of (run_model step_count s)) = 0 /\
  count_events is_traceback (events_of (run_model step_count s))
  = count_events is_step_begin (events_of (run_model step_count s)) /\
  (count_solvent (fst s) <> 0 ->
   count_events is_step_begin (events_of (run_model step_count s))
   = Z.to_nat step_count).
Proof.
  intros H0 Hc. rewrite run_model_run. cbn [state_of result_of events_of fst snd].
  destruct (run_loop_without_database E step_count (py_range step_count) s H0 Hc)
    as ((x & Hx) & J1 & J2 & J3 & J4).
  rewrite Hx. cbn [fst snd set_ext lst_bank_ratio lst_ibloan].
  repeat split; try assumption.
  - exists x. reflexivity.
  - intros Hne. rewrite (J4 Hne). unfold py_range. apply length_seq.
Qed.

(* X9 at work: three steps against a database that cannot be opened. *)
Lemma run_without_database_witness :
  count_events is_step_begin (events_of (run_model 3 (toy_built offline 1 0 0))) = 3 /\
  count_events is_traceback (events_of (run_model 3 (toy_built offline 1 0 0))) = 3 /\
  count_events is_body_event (events_of (run_model 3 (toy_built offline 1 0 0))) = 0 /\
  result_of (run_model 3 (toy_built offline 1 0 0)) = Ok ([], []).
Proof.
  destruct (run_without_database (toy offline) 3 (toy_built offline 1 0 0))
    as (_ & Hr & Hb & _ & Ht & Hn).
  - vm_compute. reflexivity.
  - intros x. cbn. discriminate.
  - assert (Hs : count_solvent (fst (toy_built offline 1 0 0)) <> 0)
      by (vm_compute; discriminate).
    specialize (Hn Hs). rewrite Ht, Hn.
    split; [reflexivity|]. split; [reflexivity|]. split; [exact Hb|].
    rewrite Hr. vm_compute. reflexivity.
Defined.

Section Construction_trace.

Variable E : Externals.

Lemma silent_bind {A B} (m : M (St E) A) (f : A -> M (St E) B) :
  silent m -> (forall a, silent (f a)) -> silent (bind m f).
Proof.
  intros Hm Hf s. rewrite run_bind. specialize (Hm s). unfold events_of in *.
  destruct (m s) as [[[a|e] s1] ev1]; cbn [fst snd] in *; [|exact Hm].
  rewrite Hm. apply Hf.
Qed.

Lemma silent_for_each {A} (l : list A) (body : A -> M (St E) unit) :
  (forall x, silent (body x)) -> silent (for_each l body).
Proof.
  intros Hb. induction l as [|x l IH]; [intros s; reflexivity|].
  cbn [for_each]. apply silent_bind; [apply Hb | intros _; exact IH].
Qed.

Lemma silent_run_stage f : silent (run_stage (E:=E) f).
Proof. intros s. unfold run_stage, events_of. destruct (so_exn _); reflexivity. Qed.

Lemma silent_add_bank i : silent (add_bank (E:=E) i).
Proof.
  intros s.
  unfold add_bank, next_id, place_agent, schedule_add, bind, on_self, modify, get,
    ret, raise, events_of.
  cbn. destruct (existsb (Nat.eqb i) (nodes (G (fst s)))); reflexivity.
Qed.

Lemma silent_add_saver i : silent (add_saver (E:=E) i).
Proof.
  intros s.
  unfold add_saver, next_id, random_choice, place_agent, schedule_add, bind, on_self,
    modify, get, ext_read, ret, raise, events_of.
  cbn -[Nat.modulo nth List.length existsb].
  destruct (nodes (G (fst s))) as [|n0 l] eqn:Hn; [reflexivity|].
  destruct (random_below E _ _) as [r x]. cbn -[Nat.modulo nth List.length existsb].
  destruct (existsb _ _); reflexivity.
Qed.

Lemma silent_add_loan i : silent (add_loan (E:=E) i).
Proof.
  intros s.
  unfold add_loan, next_id, random_choice, place_agent, schedule_add, bind, on_self,
    modify, get, ext_read, ret, raise, events_of.
  cbn -[Nat.modulo nth List.length existsb].
  destruct (nodes (G (fst s))) as [|n0 l] eqn:Hn; [reflexivity|].
  destruct (random_below E _ _) as [r x]. cbn -[Nat.modulo nth List.length existsb].
  destruct (existsb _ _); reflexivity.
Qed.

Lemma silent_create_agents : silent (create_agents (E:=E)).
Proof.
  unfold create_agents.
  apply silent_bind; [intros s; reflexivity | intros s0].
  apply silent_bind; [apply silent_for_each, silent_add_bank | intros _].
  apply silent_bind; [intros s; reflexivity | intros s1].
  apply silent_bind; [apply silent_for_each, silent_add_saver | intros _].
  apply silent_bind; [intros s; reflexivity | intros s2].
  apply silent_for_each, silent_add_loan.
Qed.

Lemma silent_initialize_market : silent (initialize_market (E:=E)).
Proof.
  unfold initialize_market.
  apply silent_bind; [apply silent_run_stage | intros _].
  apply silent_bind; [intros s; reflexivity | intros s0]. apply silent_run_stage.
Qed.

Lemma ensure_database_run (s : St E) :
  ensure_database s =
  if os_path_isfile E (sqlite_db E) (ext (snd s)) then (Ok tt, s, [])
  else
    match init_database s with
    | (Ok _, s1, ev) => (Ok tt, s1, ev ++ [EvLog (LogText "db initialization")])
    | (Raise e, s1, ev) => (Raise e, s1, ev)
    end.
Proof.
  unfold ensure_database, bind, get, logger_info, emit, ret. cbn [fst snd].
  destruct (os_path_isfile E (sqlite_db E) (ext (snd s))); [reflexivity|].
  destruct (init_database s) as [[[[]|e] s1] ev]; reflexivity.
Qed.

Lemma init_body_run (s : St E) :
  init_body s =
  match ensure_database s with
  | (Ok _, s1, ev1) =>
      (result_of (populate s1), state_of (populate s1), ev1 ++ events_of (populate s1))
  | (Raise e, s1, ev1) => (Raise e, s1, ev1)
  end.
Proof.
  change (init_body s) with (bind (ensure_database (E:=E)) (fun _ => populate (E:=E)) s).
  unfold bind, result_of, state_of, events_of.
  destruct (ensure_database s) as [[[[]|e] s1] ev1]; [|reflexivity].
  destruct (populate s1) as [[r s2] ev2]. reflexivity.
Qed.

(* The only operation of the rest of __init__ is the collection at its end. *)
Lemma populate_events (s : St E) :
  events_of (populate s)
  = if is_ok (result_of (populate s)) then [EvCollect] else [].
Proof.
  unfold populate. rewrite run_bind.
  pose proof (silent_create_agents s) as H1. unfold events_of, result_of in *.
  destruct (create_agents s) as [[[[]|e] s1] ev1]; cbn [fst snd is_ok] in *;
    [|exact H1].
  subst ev1. rewrite run_bind.
  pose proof (silent_initialize_market s1) as H2. unfold events_of, result_of in *.
  destruct (initialize_market s1) as [[[[]|e] s2] ev2]; cbn [fst snd is_ok] in *;
    [|exact H2].
  subst ev2. reflexivity.
Qed.

Lemma handles_of_run_stage f (s : St E) :
  handles (state_of (run_stage f s)) = handles s.
Proof. unfold run_stage, state_of. destruct (so_exn _); reflexivity. Qed.

Lemma handles_of_add_bank i (s : St E) :
  handles (state_of (add_bank i s)) = handles s.
Proof.
  unfold add_bank, next_id, place_agent, schedule_add, bind, on_self, modify, get,
    ret, raise, state_of.
  cbn. destruct (existsb (Nat.eqb i) (nodes (G (fst s)))); reflexivity.
Qed.

Lemma handles_of_add_saver i (s : St E) :
  handles (state_of (add_saver i s)) = handles s.
Proof.
  unfold add_saver, next_id, random_choice, place_agent, schedule_add, bind, on_self,
    modify, get, ext_read, ret, raise, state_of.
  cbn -[Nat.modulo nth List.length existsb].
  destruct (nodes (G (fst s))) as [|n0 l] eqn:Hn; [reflexivity|].
  destruct (random_below E _ _) as [r x]. cbn -[Nat.modulo nth List.length existsb].
  destruct (existsb _ _); reflexivity.
Qed.

Lemma handles_of_add_loan i (s : St E) :
  handles (state_of (add_loan i s)) = handles s.
Proof.
  unfold add_loan, next_id, random_choice, place_agent, schedule_add, bind, on_self,
    modify, get, ext_read, ret, raise, state_of.
  cbn -[Nat.modulo nth List.length existsb].
  destruct (nodes (G (fst s))) as [|n0 l] eqn:Hn; [reflexivity|].
  destruct (random_below E _ _) as [r x]. cbn -[Nat.modulo nth List.length existsb].
  destruct (existsb _ _); reflexivity.
Qed.

(* The rest of __init__ opens and closes nothing. *)
Lemma populate_handles (s : St E) :
  open_conns (snd (state_of (populate s))) = open_conns (snd s) /\
  open_cursors (snd (state_of (populate s))) = open_cursors (snd s).
Proof.
  assert (H : handles (state_of (populate s)) = handles s).
  { revert s. unfold populate, create_agents, initialize_market.
    repeat first
      [ apply handles_of_add_bank | apply handles_of_add_saver
      | apply handles_of_add_loan
      | intros ?; apply handles_of_run_stage
      | apply (stays_for_each E (handles (E:=E))); intros ? ?
      | apply (stays_bind E (handles (E:=E))); [|intros ?]
      | reflexivity ]. }
  unfold handles in H. injection H as -> ->. split; reflexivity.
Qed.

End Construction_trace.

(** X10. When the database file exists, construction performs no database
    operation at all: its only recorded operation is the data collection at
    its end (none when it raises before), and the open connections and
    cursors are those that were open before. *)
Theorem construction_with_database_file (E : Externals)
    (height width ns nl nb : Z)
    (rfree car min_reserves_ratio initial_equity : num E) (w : World E) :
  os_path_isfile E (sqlite_db E) (ext w) = true ->
  let r := BankSim_init height width ns nl nb rfree car min_reserves_ratio
             initial_equity w in
  events_of r = (if is_ok (result_of r) then [EvCollect] else []) /\
  open_conns (state_of r) = open_conns w /\
  open_cursors (state_of r) = open_cursors w.
Proof.
  intros Hfile. cbv zeta. unfold BankSim_init.
  set (s := (fresh_object E height width ns nl nb rfree car min_reserves_ratio
               initial_equity, w)).
  rewrite init_body_run, ensure_database_run.
  change (ext (snd s)) with (ext w). rewrite Hfile.
  pose proof (populate_events E s) as He.
  destruct (populate_handles E s) as [Hc Hcu].
  unfold events_of, result_of, state_of in *.
  destruct (populate s) as [[[[]|e] [m1 w1]] ev1]; cbn in *; auto.
Qed.

(* X10 at work: a model of one bank built beside an existing database file. *)
Lemma construction_with_database_file_witness :
  events_of (toy_construct calm 1 0 0) = [EvCollect] /\
  open_conns (state_of (toy_construct calm 1 0 0)) = [].
Proof.
  destruct (construction_with_database_file (toy calm) 20 20 0 0 1 0%Z 0%Z 0%Z 100%Z
              (start_world calm) eq_refl) as (He & Hc & _).
  split; [exact He | exact Hc].
Defined.

(** X11. When the database file is missing, construction first runs
    init_database.  If that raises, construction raises the same exception
    at once, with nothing performed after it and the world as init_database
    left it.  If it ends
    normally, 'db initialization' is logged right after it, and the only
    operation that follows is the data collection at the end of a
    construction that succeeds. *)
Theorem construction_without_database_file (E : Externals)
    (height width ns nl nb : Z)
    (rfree car min_reserves_ratio initial_equity : num E) (w : World E) :
  os_path_isfile E (sqlite_db E) (ext w) = false ->
  let d := init_database
             (fresh_object E height width ns nl nb rfree car min_reserves_ratio
                initial_equity, w) in
  let r := BankSim_init height width ns nl nb rfree car min_reserves_ratio
             initial_equity w in
  match result_of d with
  | Raise e => r = (Raise e, snd (state_of d), events_of d)
  | Ok _ =>
      events_of r
      = events_of d ++ EvLog (LogText "db initialization")
          :: (if is_ok (result_of r) then [EvCollect] else [])
  end.
Proof.
  intros Hfile. cbv zeta. unfold BankSim_init.
  set (s := (fresh_object E height width ns nl nb rfree car min_reserves_ratio
               initial_equity, w)).
  rewrite init_body_run, ensure_database_run.
  change (ext (snd s)) with (ext w). rewrite Hfile.
  unfold events_of, result_of, state_of.
  destruct (init_database s) as [[[[]|e] s1] ev]; cbn [fst snd]; [|reflexivity].
  pose proof (populate_events E s1) as He.
  unfold events_of, result_of, state_of in *.
  destruct (populate s1) as [[[[]|e] [m1 w1]] ev1]; cbn in *; subst ev1;
    rewrite <- app_assoc; reflexivity.
Qed.

(* X11 at work: no database file, and sqlite3.connect raises. *)
Lemma construction_without_database_file_witness :
  toy_construct unreachable_db 1 0 0
  = (Raise (UnboundLocalError "db_cursor"), start_world unreachable_db, []).
Proof.
  pose proof (construction_without_database_file (toy unreachable_db)
                20 20 0 0 1 0%Z 0%Z 0%Z 100%Z (start_world unreachable_db) eq_refl)
    as H.
  exact H.
Defined.

Section Numbering.

Variable E : Externals.

Lemma ids_in_order_add (l : list (Agent (Attrs E))) (a : Agent (Attrs E)) n :
  map (@unique_id _) l = seq 1 n -> unique_id a = S n ->
  map (@unique_id _) (l ++ [a]) = seq 1 (S n).
Proof.
  intros Hl Ha. rewrite map_app, Hl, seq_S. cbn. rewrite Ha. reflexivity.
Qed.

(* Each pass of a creation loop takes the next id for its agent. *)
Lemma add_bank_numbers i (s : St E) :
  is_ok (result_of (add_bank i s)) = true ->
  ids_in_order s -> ids_in_order (state_of (add_bank i s)).
Proof.
  unfold ids_in_order, add_bank, next_id, place_agent, schedule_add, bind, on_self,
    modify, get, ret, raise, result_of, state_of.
  cbn. destruct (existsb (Nat.eqb i) (nodes (G (fst s)))); cbn; [|discriminate].
  intros _ H. apply ids_in_order_add; [exact H | reflexivity].
Qed.

Lemma add_saver_numbers i (s : St E) :
  is_ok (result_of (add_saver i s)) = true ->
  ids_in_order s -> ids_in_order (state_of (add_saver i s)).
Proof.
  unfold ids_in_order, add_saver, next_id, random_choice, place_agent, schedule_add,
    bind, on_self, modify, get, ext_read, ret, raise, result_of, state_of.
  cbn -[Nat.modulo nth List.length existsb seq].
  destruct (nodes (G (fst s))) as [|n0 l] eqn:Hn;
    cbn -[Nat.modulo nth List.length existsb seq]; [discriminate|].
  destruct (random_below E _ _) as [r x].
  cbn -[Nat.modulo nth List.length existsb seq].
  destruct (existsb _ _); cbn -[Nat.modulo nth List.length existsb seq];
    [|discriminate].
  intros _ H. apply ids_in_order_add; [exact H | reflexivity].
Qed.

Lemma add_loan_numbers i (s : St E) :
  is_ok (result_of (add_loan i s)) = true ->
  ids_in_order s -> ids_in_order (state_of (add_loan i s)).
Proof.
  unfold ids_in_order, add_loan, next_id, random_choice, place_agent, schedule_add,
    bind, on_self, modify, get, ext_read, ret, raise, result_of, state_of.
  cbn -[Nat.modulo nth List.length existsb seq].
  destruct (nodes (G (fst s))) as [|n0 l] eqn:Hn;
    cbn -[Nat.modulo nth List.length existsb seq]; [discriminate|].
  destruct (random_below E _ _) as [r x].
  cbn -[Nat.modulo nth List.length existsb seq].
  destruct (existsb _ _); cbn -[Nat.modulo nth List.length existsb seq];
    [|discriminate].
  intros _ H. apply ids_in_order_add; [exact H | reflexivity].
Qed.

(* A loop that ends normally carries along what each of its passes keeps. *)
Lemma for_each_carries {A} (I : St E -> Prop) (body : A -> M (St E) unit) :
  (forall x s, is_ok (result_of (body x s)) = true -> I s -> I (state_of (body x s))) ->
  forall l s s' ev, for_each l body s = (Ok tt, s', ev) -> I s -> I s'.
Proof.
  intros Hb l. induction l as [|x l IH]; intros s s' ev H Hs.
  - cbn in H. injection H as <- _. exact Hs.
  - cbn [for_each] in H.
    apply bind_inv in H as ([] & s1 & e1 & e2 & H1 & H2 & _).
    apply (IH _ _ _ H2). specialize (Hb x s). rewrite H1 in Hb. apply Hb; auto.
Qed.

Lemma create_agents_numbers (s s' : St E) ev :
  create_agents s = (Ok tt, s', ev) -> ids_in_order s -> ids_in_order s'.
Proof.
  intros H Hs. unfold create_agents in H.
  apply bind_inv in H as (a0 & t0 & e0 & e0' & H0 & H & _).
  apply get_inv in H0 as [-> ->].
  apply bind_inv in H as ([] & s1 & e1 & e1' & H1 & H & _).
  apply bind_inv in H as (a1 & t1 & e2 & e2' & H1' & H & _).
  apply get_inv in H1' as [-> ->].
  apply bind_inv in H as ([] & s2 & e3 & e3' & H2 & H & _).
  apply bind_inv in H as (a2 & t2 & e4 & e4' & H2' & H3 & _).
  apply get_inv in H2' as [-> ->].
  apply (for_each_carries _ _ add_loan_numbers _ _ _ _ H3).
  apply (for_each_carries _ _ add_saver_numbers _ _ _ _ H2).
  apply (for_each_carries _ _ add_bank_numbers _ _ _ _ H1).
  exact Hs.
Qed.

Lemma columns_of_shape (l l' : list (Agent (Attrs E))) :
  map (shape E) l = map (shape E) l' ->
  map (@unique_id _) l = map (@unique_id _) l' /\
  map (@kind _) l = map (@kind _) l' /\
  map (@pos _) l = map (@pos _) l'.
Proof.
  intros H.
  assert (H1 : map (fun x => fst (fst x)) (map (shape E) l)
               = map (fun x => fst (fst x)) (map (shape E) l')) by (rewrite H; reflexivity).
  assert (H2 : map (fun x => snd (fst x)) (map (shape E) l)
               = map (fun x => snd (fst x)) (map (shape E) l')) by (rewrite H; reflexivity).
  assert (H3 : map snd (map (shape E) l) = map snd (map (shape E) l'))
    by (rewrite H; reflexivity).
  rewrite !map_map in H1, H2, H3. auto.
Qed.

Lemma banks_in_a_row g (l : list nat) (new : list (Agent (Attrs E))) :
  Forall2 (bank_at E g) l new ->
  map (@kind _) new = repeat KBank (List.length l) /\ map (@pos _) new = map Some l.
Proof.
  induction 1 as [|i a l new [Hk Hp] _ [IHk IHp]]; [split; reflexivity|].
  cbn. rewrite Hk, Hp, IHk, IHp. split; reflexivity.
Qed.

Lemma placed_in_a_row k g (l : list nat) (new : list (Agent (Attrs E))) :
  Forall2 (placed E k g) l new -> map (@kind _) new = repeat k (List.length l).
Proof.
  induction 1 as [|i a l new [Hk _] _ IH]; [reflexivity|].
  cbn. rewrite Hk, IH. reflexivity.
Qed.

(* The agents of a constructed model carry the ids 1, 2, ... in scheduler
   order. *)
Lemma init_body_numbers (s s' : St E) ev :
  ids_in_order s ->
  init_body s = (Ok tt, s', ev) ->
  map (@unique_id _) (schedule_agents (fst s'))
  = seq 1 (List.length (schedule_agents (fst s'))).
Proof.
  intros Hs H. unfold init_body in H.
  apply bind_inv in H as ([] & s1 & e1 & e1' & H1 & H & _).
  apply bind_inv in H as ([] & s2 & e2 & e2' & H2 & H & _).
  pose proof (ensure_database_self E s) as Hself.
  rewrite H1 in Hself. cbn [state_of fst snd] in Hself.
  assert (Hs1 : ids_in_order s1) by (unfold ids_in_order in *; rewrite Hself; exact Hs).
  pose proof (create_agents_numbers _ _ _ H2 Hs1) as Hs2.
  match type of H with
  | ?t s2 = _ => assert (K : keeps (reaches run_mut) t)
  end.
  { repeat first
      [ apply keeps_initialize_market_run
      | match goal with
        | |- keeps _ (datacollector_collect (E:=_)) =>
            apply keeps_datacollector_collect; reflexivity
        end
      | progress keeps_tac ]. }
  specialize (K s2). rewrite H in K. cbn [state_of fst snd] in K.
  destruct (columns_of_shape _ _ (shape_stable E _ _ K)) as (Hid & _ & _).
  unfold ids_in_order in Hs2.
  assert (Hlen : List.length (schedule_agents (fst s')) = current_id (fst s2)).
  { rewrite <- (length_map (@unique_id _)), Hid, Hs2. apply length_seq. }
  rewrite Hlen, Hid. exact Hs2.
Qed.

End Numbering.

(** X12. In a model that construction returns, the agents stand in the
    scheduler in creation order and carry the ids 1, 2, 3, ... in that
    order, so no two agents share a unique_id; first come the
    initial_bank Banks, then the initial_saver Savers, then the
    initial_loan Loans; and the i-th Bank (unique_id i+1) sits on node i of
    the graph. *)
Theorem agents_are_numbered_in_creation_order (E : Externals)
    (height width ns nl nb : Z)
    (rfree car min_reserves_ratio initial_equity : num E)
    (w w' : World E) (m : BankSim E) (ev : list Event) :
  BankSim_init height width ns nl nb rfree car min_reserves_ratio initial_equity w
  = (Ok m, w', ev) ->
  map (@unique_id _) (schedule_agents m) = seq 1 (List.length (schedule_agents m)) /\
  NoDup (map (@unique_id _) (schedule_agents m)) /\
  map (@kind _) (schedule_agents m)
  = repeat KBank (Z.to_nat nb) ++ repeat KSaver (Z.to_nat ns)
    ++ repeat KLoan (Z.to_nat nl) /\
  map (@pos _) (firstn (Z.to_nat nb) (schedule_agents m)) = map Some (py_range nb).
Proof.
  intros Hinit. apply BankSim_init_ok in Hinit.
  set (s := (fresh_object E height width ns nl nb rfree car min_reserves_ratio
               initial_equity, w)) in *.
  assert (Hids : map (@unique_id _) (schedule_agents m)
                 = seq 1 (List.length (schedule_agents m))).
  { apply (init_body_numbers E s (m, w') ev); [reflexivity | exact Hinit]. }
  destruct (init_body_ok E s (m, w') ev eq_refl Hinit)
    as (banks & savers & loans & Hshape & Fb & Fs & Fl & _).
  destruct (columns_of_shape E _ _ Hshape) as (_ & Hkind & Hpos).
  cbn [fst snd] in *.
  destruct (banks_in_a_row E _ _ _ Fb) as [Kb Pb].
  pose proof (placed_in_a_row E _ _ _ _ Fs) as Ks.
  pose proof (placed_in_a_row E _ _ _ _ Fl) as Kl.
  unfold s in Kb, Ks, Kl, Pb. cbn [fst fresh_object initial_bank initial_saver initial_loan]
    in Kb, Ks, Kl, Pb.
  unfold py_range in Kb, Ks, Kl. rewrite length_seq in Kb, Ks, Kl.
  split; [exact Hids|]. split; [rewrite Hids; apply seq_NoDup|]. split.
  - rewrite Hkind, !map_app, Kb, Ks, Kl. reflexivity.
  - rewrite <- firstn_map, Hpos, !map_app, Pb.
    assert (Hn : Z.to_nat nb = List.length (map Some (py_range nb)))
      by (rewrite length_map; unfold py_range; rewrite length_seq; reflexivity).
    rewrite Hn at 1. rewrite firstn_app, firstn_all, Nat.sub_diag. cbn [firstn].
    apply app_nil_r.
Qed.

(* X12 at work: two banks, one saver and one loan. *)
Lemma agents_are_numbered_in_creation_order_witness :
  map (@unique_id _) (schedule_agents (fst (toy_built calm 2 1 1))) = [1; 2; 3; 4] /\
  map (@kind _) (schedule_agents (fst (toy_built calm 2 1 1)))
  = [KBank; KBank; KSaver; KLoan] /\
  map (@pos _) (firstn 2 (schedule_agents (fst (toy_built calm 2 1 1))))
  = [Some 0; Some 1].
Proof.
  destruct (agents_are_numbered_in_creation_order (toy calm) 20 20 1 1 2
              0%Z 0%Z 0%Z 100%Z (start_world calm) (snd (toy_built calm 2 1 1))
              (fst (toy_built calm 2 1 1)) (events_of (toy_construct calm 2 1 1))
              ltac:(vm_compute; reflexivity)) as (Hid & _ & Hk & Hp).
  split; [|split].
  - rewrite Hid. vm_compute. reflexivity.
  - exact Hk.
  - exact Hp.
Defined.

Section Run_is_identified.

Variable E : Externals.

Lemma identified_prefix (l rest full : list Event) :
  l ++ rest = full -> Forall identified full -> Forall identified l.
Proof.
  intros <- H. apply Forall_app in H. exact (proj1 H).
Qed.

(* The body of step() on an object that has its connection, cursor and id. *)
Lemma step_body_identified (s : St E) :
  db_ready s ->
  db_ready (state_of (step_body s)) /\ Forall identified (events_of (step_body s)).
Proof.
  intros (Hc & Hcu & Hid). split.
  - destruct (db_untouched E body_mut _ _ eq_refl (keeps_step_body E s)) as (A & B & C).
    unfold db_ready. rewrite A, B, C. auto.
  - assert (Hall : Forall identified (body_events s)).
    { unfold body_events. repeat constructor; assumption. }
    pose proof (performs_step_body E s) as H. unfold events_of.
    destruct (step_body s) as [[[[]|e] s1] ev]; cbn [snd].
    + rewrite H. exact Hall.
    + destruct H as [rest H]. exact (identified_prefix _ _ _ H Hall).
Qed.

Lemma step_identified (s : St E) :
  schedule_steps (fst s) = 0 \/ db_ready s ->
  (schedule_steps (fst (state_of (step s))) = 0 \/ db_ready (state_of (step s))) /\
  Forall identified (events_of (step s)).
Proof.
  intros Hs. rewrite step_run.
  destruct (schedule_steps (fst s) =? 0) eqn:H0.
  - apply Nat.eqb_eq in H0.
    pose proof (first_step_block_run E s) as Hrun. cbv zeta in Hrun.
    destruct (fst (sqlite3_connect E (sqlite_db E) (ext (snd s)))).
    + rewrite Hrun. cbn [state_of events_of fst snd]. split; [left; exact H0|].
      repeat constructor.
    + destruct Hrun as (id & r & s' & _ & Hrun & Hid & Hc & Hcu & Hst).
      rewrite Hrun.
      assert (Hready : db_ready s').
      { unfold db_ready. rewrite Hid, Hc, Hcu. repeat split; discriminate. }
      destruct (step_body_identified s' Hready) as [R Hev].
      destruct r as [[]|e]; cbn [state_of events_of fst snd].
      * split; [right; exact R|].
        repeat (constructor; [exact I|]). exact Hev.
      * split; [right; exact Hready|]. repeat constructor.
  - assert (Hready : db_ready s).
    { destruct Hs as [Hs|Hs]; [|exact Hs]. apply Nat.eqb_neq in H0. contradiction. }
    destruct (step_body_identified s Hready) as [R Hev].
    cbn [state_of events_of fst snd]. split; [right; exact R|].
    constructor; [exact I | exact Hev].
Qed.

Lemma run_loop_identified step_count indices (s : St E) :
  schedule_steps (fst s) = 0 \/ db_ready s ->
  (schedule_steps (fst (state_of (run_loop step_count indices s))) = 0 \/
   db_ready (state_of (run_loop step_count indices s))) /\
  Forall identified (events_of (run_loop step_count indices s)).
Proof.
  revert s. induction indices as [|i rest IH]; intros s Hs.
  - split; [exact Hs | constructor].
  - rewrite run_loop_cons.
    destruct (step_identified s Hs) as [Hs1 Hev].
    assert (Hit : Forall identified (events_of (run_iteration step_count i s))).
    { rewrite run_iteration_run. cbn [events_of snd].
      repeat (apply Forall_app; split); try exact Hev.
      - unfold progress_report.
        destruct ((i mod 10 =? 0) || (Z.of_nat i + 1 =? step_count)%Z);
          repeat constructor.
      - destruct (result_of (step s)); repeat constructor.
      - unfold bankrupt_log.
        destruct (count_solvent (fst (state_of (step s))) =? 0); repeat constructor. }
    destruct (count_solvent (fst (state_of (step s))) =? 0);
      cbn [state_of events_of fst snd].
    + split; [exact Hs1 | exact Hit].
    + destruct (IH _ Hs1) as [Hs2 Hev2].
      split; [exact Hs2|]. apply Forall_app. split; [exact Hit | exact Hev2].
Qed.

End Run_is_identified.

(** X13. On an object whose scheduler has not advanced, or that has its
    connection, cursor and run id, the same holds again after any
    run_model, whatever errors the loop contained, and every call of
    insert_agtbank_table in the run was handed a cursor and a run id that
    are not None. *)
Theorem snapshots_carry_a_run_id (E : Externals) (step_count : Z) (s : St E) :
  schedule_steps (fst s) = 0 \/ db_ready s ->
  (schedule_steps (fst (state_of (run_model step_count s))) = 0 \/
   db_ready (state_of (run_model step_count s))) /\
  Forall identified (events_of (run_model step_count s)).
Proof.
  intros Hs. rewrite run_model_run. cbn [state_of events_of fst snd].
  apply run_loop_identified. exact Hs.
Qed.

(* X13 at work: three steps of which the first raises after the run record
   was inserted. *)
Lemma snapshots_carry_a_run_id_witness :
  Forall identified (events_of (run_model 3 (toy_built flaky 1 0 0))).
Proof.
  apply (snapshots_carry_a_run_id (toy flaky) 3 (toy_built flaky 1 0 0)).
  left. vm_compute. reflexivity.
Defined.

Section Collected_values.

Variable E : Externals.

Lemma collects_bind_quiet {A B} (m : M (St E) A) (f : A -> M (St E) B) :
  keeps (reaches quiet_mut) m -> (forall a, collects (f a)) -> collects (bind m f).
Proof.
  intros Hm Hf s. rewrite run_bind.
  destruct (counters_stable E _ _ (Hm s)) as [_ Hv]. unfold state_of in Hv.
  destruct (m s) as [[[a|e] s1] ev1]; cbn [fst snd] in Hv.
  - specialize (Hf a s1). cbn [result_of state_of fst snd].
    rewrite <- Hv. exact Hf.
  - cbn. discriminate.
Qed.

Lemma collects_schedule_step_collect :
  collects (bind (schedule_step (E:=E)) (fun _ => datacollector_collect (E:=E))).
Proof.
  intros s.
  unfold schedule_step, datacollector_collect, bind, emit, run_stage, on_self, modify,
    result_of, state_of.
  destruct (so_exn _); cbn; [discriminate|]. intros _. reflexivity.
Qed.

Lemma collects_step_body : collects (step_body (E:=E)).
Proof.
  unfold step_body.
  apply collects_bind_quiet; [apply keeps_get | intros s0; cbv zeta].
  repeat first
    [ apply collects_schedule_step_collect
    | apply collects_bind_quiet;
      [ first
          [ apply keeps_stage; reflexivity
          | apply keeps_second_round_effects; reflexivity
          | apply keeps_main_write_bank_ratios; reflexivity
          | apply keeps_main_write_interbank_links; reflexivity
          | apply keeps_insert_agtbank; reflexivity
          | apply keeps_commit; reflexivity ]
      | intros _ ] ].
Qed.

Lemma collects_step : collects (step (E:=E)).
Proof.
  unfold step.
  apply collects_bind_quiet; [apply keeps_emit | intros _].
  apply collects_bind_quiet; [apply keeps_get | intros s0].
  apply collects_bind_quiet; [| intros _; apply collects_step_body].
  destruct (schedule_steps (fst s0) =? 0);
    [apply keeps_first_step_block_quiet | apply keeps_ret].
Qed.

End Collected_values.

(** X14. A call of step() that ends normally appends to the data collector
    exactly one value, get_sum_totasset of the model as step() leaves it:
    the sum of total_assets over the Bank agents only, in scheduler order,
    starting from 0.  The values collected before stay as they were. *)
Theorem step_collects_current_assets (E : Externals) (s : St E) :
  is_ok (result_of (step s)) = true ->
  model_vars (fst (state_of (step s)))
  = model_vars (fst s) ++ [get_sum_totasset (fst (state_of (step s)))].
Proof.
  intros H. exact (collects_step E s H).
Qed.

(* X14 at work: two banks of 100 each, one saver, one loan. *)
Lemma step_collects_current_assets_witness :
  model_vars (fst (state_of (step (toy_built calm 2 1 1)))) = [200%Z; 200%Z].
Proof.
  rewrite (step_collects_current_assets (toy calm) (toy_built calm 2 1 1));
    [|vm_compute; reflexivity].
  vm_compute. reflexivity.
Defined.
